(** * A chat relay with local tools: the orchestration core of [src/index.js]

    The development embeds the JavaScript of [src/index.js] in Gallina:
    the three local tools ([sum], [prime], [getcryptoprice]), the text
    parsers of the offline responder, [runOfflineDemo], [runAgent] and
    [chatHandler], and proves properties of the embedded functions.

    Conventions.
    - A JavaScript number is [number]: [NaN], the two infinities, or a
      finite value held as a rational.  The values the program computes
      are binary64 values: a sum and the value of a decimal literal are
      rounded to the nearest binary64 value, ties to even, and become an
      infinity beyond the range; the remainder operator [%] is exact in
      binary64.  The sign of zero is not represented.  A number prints
      as the shortest decimal that reads back as the same value.
    - A string is a [string] of 8-bit code units.
    - Everything outside the process (the completion provider, the price
      index, [JSON.parse], [JSON.stringify]) is a field of [Env], so every
      theorem holds for every behaviour of these collaborators.
    - The module-level array [History] and the log of external calls live
      in [State]; handlers are computations in the monad [M], which keeps
      the state reached when an exception is thrown. *)

From Stdlib Require Import ZArith QArith Qround Qabs List String Ascii Bool Lia Lqa Arith.
From Stdlib Require Import DecimalString.
Import ListNotations.

Local Open Scope Z_scope.
#[local] Set Warnings "-register-all".
#[local] Set Warnings "-automation".
#[local] Set Warnings "-notation-overridden".
#[local] Set Warnings "-notation-incompatible-prefix".

(* ================================================================== *)
(** * Numbers *)
(* ================================================================== *)

Module Num.

Inductive number : Type :=
| NaN
| PInf
| NInf
| Fin (q : Q).

Definition of_Z (z : Z) : number := Fin (inject_Z z).

(** The least magnitude that binary64 rounds to an infinity:
    [2^1024 - 2^970]. *)
Definition overflow_threshold : Q := inject_Z (2 ^ 1024 - 2 ^ 970).

(** The integer nearest to [q]; of two equally near ones, the even one. *)
Definition round_half_even (q : Q) : Z :=
  let f := Qfloor q in
  match (q - inject_Z f ?= 1 # 2)%Q with
  | Lt => f
  | Gt => f + 1
  | Eq => if Z.even f then f else f + 1
  end.

(** [2^e] for an integer [e] of either sign. *)
Definition pow2 (e : Z) : Q :=
  if 0 <=? e then inject_Z (2 ^ e) else 1 # Z.to_pos (2 ^ (- e)).

(** The integer [e] with [2^e <= q < 2^(e+1)], for [q > 0]. *)
Definition floor_log2 (q : Q) : Z :=
  let e := Z.log2 (Qnum q) - Z.log2 (QDen q) in
  if Qle_bool (pow2 e) q then e else e - 1.

(** The binary64 value nearest to [q], ties to the even significand, for
    [q] within the binary64 range.  A binary64 value is [m * 2^e] with
    [|m| < 2^53] and [-1074 <= e]: the unit in the last place of [q] is
    [2^e] for [e = max (floor_log2 |q| - 52) (-1074)], and [q] is rounded
    to the nearest multiple of it.  The result is in lowest terms. *)
Definition round64 (q : Q) : Q :=
  if Qeq_bool q 0 then 0%Q
  else
    let a := Qabs q in
    let e := Z.max (floor_log2 a - 52) (-1074) in
    let m := round_half_even (a / pow2 e) in
    let r := Qred (inject_Z m * pow2 e) in
    if Qle_bool 0 q then r else Qred (- r).

(** The number for an exact result [q], as every arithmetic operation and
    every conversion from text produces it: an infinity when [q] is beyond
    the binary64 range, the nearest binary64 value otherwise. *)
Definition of_Q (q : Q) : number :=
  if Qle_bool overflow_threshold q then PInf
  else if Qle_bool q (- overflow_threshold) then NInf
  else Fin (round64 q).

(** [a < b] *)
Definition lt (a b : number) : bool :=
  match a, b with
  | NaN, _ | _, NaN => false
  | PInf, _ => false
  | _, NInf => false
  | NInf, _ => true
  | Fin _, PInf => true
  | Fin x, Fin y => negb (Qle_bool y x)
  end.

(** [a <= b] *)
Definition le (a b : number) : bool :=
  match a, b with
  | NaN, _ | _, NaN => false
  | NInf, _ => true
  | _, PInf => true
  | PInf, _ => false
  | Fin _, NInf => false
  | Fin x, Fin y => Qle_bool x y
  end.

(** [a === b] on numbers *)
Definition strict_eq (a b : number) : bool :=
  match a, b with
  | PInf, PInf | NInf, NInf => true
  | Fin x, Fin y => Qeq_bool x y
  | _, _ => false
  end.

(** [a + b] on numbers: the exact sum, rounded *)
Definition add (a b : number) : number :=
  match a, b with
  | NaN, _ | _, NaN => NaN
  | PInf, NInf | NInf, PInf => NaN
  | PInf, _ | _, PInf => PInf
  | NInf, _ | _, NInf => NInf
  | Fin x, Fin y => of_Q (x + y)
  end.

(** [a % b]: the remainder of the division truncated toward zero, with the
    sign of the dividend.  For [a = n1/d1] and [b = n2/d2] it is
    [Z.rem (n1*d2) (n2*d1) / (d1*d2)]. *)
Definition rem (a b : number) : number :=
  match a, b with
  | Fin x, Fin y =>
      if Qnum y =? 0 then NaN
      else Fin (Z.rem (Qnum x * QDen y) (Qnum y * QDen x) # (Qden x * Qden y))
  | Fin x, (PInf | NInf) => Fin x
  | _, _ => NaN
  end.

(** [i <= Math.sqrt(num)] for an integer [i].  The square root is the real
    one: for [num >= 0] the test is [i <= 0] or [i*i <= num];
    [Math.sqrt] of a negative number or of [NaN] is [NaN], and every
    comparison with [NaN] is false.  (The rounded root of binary64
    compares with an integer in the same way when [num] is an integer
    below 2^53.) *)
Definition le_sqrt (i : Z) (num : number) : bool :=
  match num with
  | NaN | NInf => false
  | PInf => true
  | Fin q => Qle_bool 0 q && ((i <=? 0) || Qle_bool (inject_Z (i * i)) q)
  end.

(** [Number.isInteger] *)
Definition isInteger (a : number) : bool :=
  match a with
  | Fin q => Qnum q mod QDen q =? 0
  | _ => false
  end.

End Num.
Import Num.

(* ================================================================== *)
(** * The primality check *)
(* ================================================================== *)

(** The [for] loop of [prime]:
    [for (let i = 2; i <= Math.sqrt(num); i++) if (num % i === 0) return false;]
    followed by [return true].  [fuel] bounds the number of times the loop
    condition is evaluated; [None] means the budget ran out. *)
Fixpoint prime_loop (fuel : nat) (num : number) (i : Z) : option bool :=
  match fuel with
  | O => None
  | S fuel' =>
      if Num.le_sqrt i num then
        if Num.strict_eq (Num.rem num (Num.of_Z i)) (Num.of_Z 0) then Some false
        else prime_loop fuel' num (i + 1)
      else Some true
  end.

(** [function prime(num)] on a number.  The counter [i] is an integer. *)
Definition prime (fuel : nat) (num : number) : option bool :=
  if Num.lt num (Num.of_Z 2) then Some false else prime_loop fuel num 2.

(* ================================================================== *)
(** * Strings *)
(* ================================================================== *)

Local Open Scope string_scope.

(** The double quote, for the texts that contain one. *)
Definition dquote : string := String (ascii_of_nat 34) "".

Definition is_upper (c : ascii) : bool :=
  let n := nat_of_ascii c in (65 <=? n)%nat && (n <=? 90)%nat.

Definition is_lower (c : ascii) : bool :=
  let n := nat_of_ascii c in (97 <=? n)%nat && (n <=? 122)%nat.

(** [\d] *)
Definition is_digit (c : ascii) : bool :=
  let n := nat_of_ascii c in (48 <=? n)%nat && (n <=? 57)%nat.

(** [\s] on 8-bit code units: tab, line feed, vertical tab, form feed,
    carriage return, space and the no-break space. *)
Definition is_space (c : ascii) : bool :=
  let n := nat_of_ascii c in
  ((9 <=? n)%nat && (n <=? 13)%nat) || (n =? 32)%nat || (n =? 160)%nat.

(** [[a-z0-9-]] *)
Definition is_coin_char (c : ascii) : bool :=
  is_lower c || is_digit c || Ascii.eqb c "-"%char.

(** The capital letters of the upper half of the 8-bit range: 192 to 222
    except the multiplication sign 215. *)
Definition is_upper_latin1 (c : ascii) : bool :=
  let n := nat_of_ascii c in
  (192 <=? n)%nat && (n <=? 222)%nat && negb (n =? 215)%nat.

Definition lower_char (c : ascii) : ascii :=
  if is_upper c || is_upper_latin1 c then ascii_of_nat (nat_of_ascii c + 32) else c.

Definition upper_char (c : ascii) : ascii :=
  if is_lower c then ascii_of_nat (nat_of_ascii c - 32) else c.

Fixpoint map_string (f : ascii -> ascii) (s : string) : string :=
  match s with
  | EmptyString => EmptyString
  | String c s' => String (f c) (map_string f s')
  end.

(** [s.toLowerCase()] *)
Definition toLowerCase (s : string) : string := map_string lower_char s.

(** [s.toUpperCase()] on the letters a-z; the program applies it to coin
    names, which are made of [a-z], [0-9] and [-]. *)
Definition toUpperCase (s : string) : string := map_string upper_char s.

(** [s.includes(sub)] *)
Fixpoint includes (s sub : string) : bool :=
  if prefix sub s then true
  else match s with
       | EmptyString => false
       | String _ s' => includes s' sub
       end.

(* ================================================================== *)
(** * Regular expressions *)
(* ================================================================== *)

(** The fragment of JavaScript regular expressions that the parsers use:
    literals, character classes, concatenation, the greedy [?] on a
    sub-pattern, the greedy [*] and [+] on a character class, and numbered
    capturing groups. *)
Module Regex.

Inductive regex : Type :=
| Lit (c : ascii)
| Class (p : ascii -> bool)
| Cat (r1 r2 : regex)
| Opt (r : regex)
| Star (p : ascii -> bool)
| Plus (p : ascii -> bool)
| Group (n : nat) (r : regex).

(** Captures, most recent first. *)
Definition captures : Type := list (nat * string).

Definition cont : Type := string -> captures -> option captures.

(** The text consumed between the input [s] and the rest [s']. *)
Definition consumed (s s' : string) : string :=
  substring 0 (String.length s - String.length s') s.

(** Greedy iteration of a character class, backtracking one character at a
    time when the continuation fails. *)
Fixpoint star_match (p : ascii -> bool) (s : string) (caps : captures)
    (k : cont) : option captures :=
  match s with
  | String c s' =>
      if p c then
        match star_match p s' caps k with
        | Some res => Some res
        | None => k s caps
        end
      else k s caps
  | EmptyString => k s caps
  end.

(** Backtracking matcher in continuation-passing style: [rmatch r s caps k]
    matches [r] at the start of [s] and hands the rest to [k]. *)
Fixpoint rmatch (r : regex) (s : string) (caps : captures) (k : cont)
    : option captures :=
  match r with
  | Lit c =>
      match s with
      | String c' s' => if Ascii.eqb c c' then k s' caps else None
      | EmptyString => None
      end
  | Class p =>
      match s with
      | String c' s' => if p c' then k s' caps else None
      | EmptyString => None
      end
  | Cat r1 r2 => rmatch r1 s caps (fun s' caps' => rmatch r2 s' caps' k)
  | Opt r1 =>
      match rmatch r1 s caps k with
      | Some res => Some res
      | None => k s caps
      end
  | Star p => star_match p s caps k
  | Plus p =>
      match s with
      | String c' s' => if p c' then star_match p s' caps k else None
      | EmptyString => None
      end
  | Group n r1 =>
      rmatch r1 s caps (fun s' caps' => k s' ((n, consumed s s') :: caps'))
  end.

(** [text.match(re)] without the [g] flag: the leftmost match. *)
Fixpoint search (r : regex) (s : string) : option captures :=
  match rmatch r s [] (fun _ caps => Some caps) with
  | Some caps => Some caps
  | None =>
      match s with
      | String _ s' => search r s'
      | EmptyString => None
      end
  end.

(** [m[n]] *)
Fixpoint group (n : nat) (caps : captures) : option string :=
  match caps with
  | [] => None
  | (n', s) :: rest => if (n =? n')%nat then Some s else group n rest
  end.

Fixpoint lits (s : string) : regex :=
  match s with
  | EmptyString => Opt (Class (fun _ => false))
  | String c EmptyString => Lit c
  | String c s' => Cat (Lit c) (lits s')
  end.

End Regex.
Import Regex.

(** [-?\d+(?:\.\d+)?] *)
Definition re_number : regex :=
  Cat (Opt (Lit "-")) (Cat (Plus is_digit) (Opt (Cat (Lit ".") (Plus is_digit)))).

(** [/(-?\d+(?:\.\d+)?)\s*\+\s*(-?\d+(?:\.\d+)?)/] *)
Definition re_sum : regex :=
  Cat (Group 1 re_number)
      (Cat (Star is_space) (Cat (Lit "+") (Cat (Star is_space) (Group 2 re_number)))).

(** [/(-?\d+(?:\.\d+)?)/] *)
Definition re_prime : regex := Group 1 re_number.

(** [/price\s+of\s+([a-z0-9-]+)/] *)
Definition re_price_of : regex :=
  Cat (lits "price")
      (Cat (Plus is_space) (Cat (lits "of") (Cat (Plus is_space) (Group 1 (Plus is_coin_char))))).

(** [/([a-z0-9-]+)\s+price/] *)
Definition re_coin_price : regex :=
  Cat (Group 1 (Plus is_coin_char)) (Cat (Plus is_space) (lits "price")).

(* ================================================================== *)
(** * Numbers and text *)
(* ================================================================== *)

Fixpoint digits_value (acc : Z) (s : string) : option Z :=
  match s with
  | EmptyString => Some acc
  | String c s' =>
      if is_digit c
      then digits_value (10 * acc + Z.of_nat (nat_of_ascii c - 48)) s'
      else None
  end.

Fixpoint split_dot (s : string) : string * option string :=
  match s with
  | EmptyString => (EmptyString, None)
  | String c s' =>
      if Ascii.eqb c "." then (EmptyString, Some s')
      else let '(a, b) := split_dot s' in (String c a, b)
  end.

(** The value of an unsigned decimal literal [digits] or [digits.digits]. *)
Definition unsigned_decimal (s : string) : option Q :=
  let '(ip, fp) := split_dot s in
  match ip, digits_value 0 ip with
  | EmptyString, _ | _, None => None
  | _, Some n =>
      match fp with
      | None => Some (inject_Z n)
      | Some EmptyString => None
      | Some f =>
          match digits_value 0 f with
          | None => None
          | Some m =>
              let d := Z.to_pos (10 ^ Z.of_nat (String.length f)) in
              Some (Qred ((n * Zpos d + m) # d))
          end
      end
  end.

(** The value of a decimal literal [-?digits] or [-?digits.digits]. *)
Definition decimal_literal (s : string) : option Q :=
  match s with
  | String "-" s' =>
      match unsigned_decimal s' with
      | Some q => Some (Qred (- q))
      | None => None
      end
  | _ => unsigned_decimal s
  end.

Definition Z_to_string (z : Z) : string :=
  DecimalString.NilZero.string_of_int (Z.to_int z).

(** [10^n] for an integer [n] of either sign. *)
Definition pow10 (n : Z) : Q :=
  if (0 <=? n)%Z then inject_Z (10 ^ n) else 1 # Z.to_pos (10 ^ (- n)).

(** The integer [n] with [10^(n-1) <= a < 10^n], for [a > 0], reached from
    a first guess by steps of one. *)
Fixpoint decade_from (fuel : nat) (a : Q) (n : Z) : Z :=
  match fuel with
  | O => n
  | S fuel' =>
      if negb (Qle_bool (pow10 (n - 1)) a) then decade_from fuel' a (n - 1)
      else if Qle_bool (pow10 n) a then decade_from fuel' a (n + 1)
      else n
  end.

(** The first guess is [floor (floor_log2 a * log10 2) + 1], which is at
    most one off over the binary64 range. *)
Definition decade (a : Q) : Z :=
  decade_from 8 a ((Num.floor_log2 a * 1233) / 4096 + 1).

(** The significand [s] and the number of digits [k] of the shortest
    decimal [s * 10^(n-k)] that reads back as the binary64 value [a > 0]
    of decade [n]: [k] is as small as possible, and of the two multiples
    of [10^(n-k)] around [a] that read back as [a] the nearer is taken,
    the even one when they are equally near.  Seventeen digits always
    suffice. *)
Fixpoint shortest_from (fuel : nat) (a : Q) (n k : Z) : Z * Z :=
  let scale := pow10 (n - k) in
  let lo := Qfloor (a / scale) in
  let hi := (lo + 1)%Z in
  let lo_ok := Qeq_bool (Num.round64 (inject_Z lo * scale)) a in
  let hi_ok := Qeq_bool (Num.round64 (inject_Z hi * scale)) a in
  let nearest :=
    match (a - inject_Z lo * scale ?= inject_Z hi * scale - a)%Q with
    | Lt => lo
    | Gt => hi
    | Eq => if Z.even lo then lo else hi
    end in
  match fuel with
  | O => (nearest, k)
  | S fuel' =>
      if lo_ok && hi_ok then (nearest, k)
      else if lo_ok then (lo, k)
      else if hi_ok then (hi, k)
      else shortest_from fuel' a n (k + 1)
  end.

Fixpoint zeros (n : nat) : string :=
  match n with
  | O => EmptyString
  | S n' => String "0" (zeros n')
  end.

(** The text of the decimal [0.ds * 10^n] for the digits [ds], as
    [Number.prototype.toString] lays it out: positional notation when
    [-6 < n <= 21], exponent notation otherwise. *)
Definition format_decimal (ds : string) (n : Z) : string :=
  let k := Z.of_nat (String.length ds) in
  if ((k <=? n) && (n <=? 21))%Z then ds ++ zeros (Z.to_nat (n - k))
  else if ((0 <? n) && (n <=? 21))%Z
  then substring 0 (Z.to_nat n) ds ++ "." ++ substring (Z.to_nat n) (Z.to_nat (k - n)) ds
  else if ((-6 <? n) && (n <=? 0))%Z then "0." ++ zeros (Z.to_nat (- n)) ++ ds
  else
    let e := (n - 1)%Z in
    let exponent := (if (e <? 0)%Z then "e-" else "e+") ++ Z_to_string (Z.abs e) in
    match ds with
    | String d EmptyString => String d EmptyString ++ exponent
    | String d rest => String d EmptyString ++ "." ++ rest ++ exponent
    | EmptyString => exponent
    end.

(** [String(n)], as the template literals and [JSON.stringify] apply it:
    the shortest decimal that reads back as [n], in positional notation
    from [1e-6] up to but not including [1e21] and in exponent notation
    outside.  The sign of a zero is not represented; both zeros print as
    "0". *)
Definition Number_toString (n : number) : string :=
  match n with
  | NaN => "NaN"
  | PInf => "Infinity"
  | NInf => "-Infinity"
  | Fin q =>
      let x := Num.round64 q in
      if Qeq_bool x 0 then "0"
      else
        let a := Qabs x in
        let n := decade a in
        let '(s, k) := shortest_from 16 a n 1 in
        let body :=
          if (s =? 10 ^ k)%Z then format_decimal "1" (n + 1)
          else format_decimal (Z_to_string s) n in
        if Qle_bool 0 x then body else "-" ++ body
  end.

(* ================================================================== *)
(** * JavaScript values *)
(* ================================================================== *)

(** The values that [JSON.parse] and [response.json()] produce.  An object
    is the list of its own properties.  [undefined] is [None] in
    [option JValue]. *)
Inductive JValue : Type :=
| JNull
| JBool (b : bool)
| JNum (n : number)
| JStr (s : string)
| JArr (items : list JValue)
| JObj (fields : list (string * JValue)).

Definition JSValue : Type := option JValue.

Fixpoint assoc (k : string) (fields : list (string * JValue)) : JSValue :=
  match fields with
  | [] => None
  | (k', v) :: rest => if String.eqb k k' then Some v else assoc k rest
  end.

(** An array index written canonically. *)
Definition index_of_string (k : string) : option nat :=
  match digits_value 0 k with
  | Some n => if String.eqb (Z_to_string n) k then Some (Z.to_nat n) else None
  | None => None
  end.

(** [v[k]] for a value [v] that is neither [null] nor [undefined], when the
    outcome is a value of [JSValue]: own properties of objects, elements
    and [length] of arrays and strings.  Inherited methods are functions,
    which have no [usd] or other data property read here and are
    rendered as [undefined]. *)
Definition get_prop (v : JValue) (k : string) : JSValue :=
  match v with
  | JObj fields => assoc k fields
  | JArr items =>
      if String.eqb k "length" then Some (JNum (Num.of_Z (Z.of_nat (List.length items))))
      else match index_of_string k with
           | Some i => nth_error items i
           | None => None
           end
  | JStr s =>
      if String.eqb k "length" then Some (JNum (Num.of_Z (Z.of_nat (String.length s))))
      else match index_of_string k with
           | Some i => match String.get i s with
                       | Some c => Some (JStr (String c ""))
                       | None => None
                       end
           | None => None
           end
  | _ => None
  end.

(** [v?.[k]] *)
Definition opt_get (v : JSValue) (k : string) : JSValue :=
  match v with
  | None | Some JNull => None
  | Some v' => get_prop v' k
  end.

(** [v != null] *)
Definition not_nullish (v : JSValue) : bool :=
  match v with
  | None | Some JNull => false
  | _ => true
  end.

Fixpoint join (sep : string) (l : list string) : string :=
  match l with
  | [] => ""
  | [x] => x
  | x :: rest => x ++ sep ++ join sep rest
  end.

(** [String(v)], as a template literal applies it. *)
Fixpoint ToString (v : JValue) : string :=
  match v with
  | JNull => "null"
  | JBool true => "true"
  | JBool false => "false"
  | JNum n => Number_toString n
  | JStr s => s
  | JArr items =>
      join "," (map (fun x => match x with JNull => "" | _ => ToString x end) items)
  | JObj _ => "[object Object]"
  end.

Definition ToString_opt (v : JSValue) : string :=
  match v with
  | None => "undefined"
  | Some v' => ToString v'
  end.

(** Truthiness. *)
Definition truthy (v : JSValue) : bool :=
  match v with
  | None | Some JNull | Some (JBool false) | Some (JStr "") => false
  | Some (JNum NaN) => false
  | Some (JNum (Fin q)) => negb (Qeq_bool q 0)
  | _ => true
  end.

Definition truthy_string (s : option string) : bool :=
  match s with
  | None | Some "" => false
  | Some _ => true
  end.

(* ================================================================== *)
(** * The process and its collaborators *)
(* ================================================================== *)

(** A thrown value: [message] is its [message] property when it is an
    object that carries one. *)
Record Thrown : Type := mkThrown { message : option string }.

Definition Error (msg : string) : Thrown := mkThrown (Some msg).

Inductive result (A : Type) : Type :=
| Ok (a : A)
| Err (e : Thrown).
Arguments Ok {A} a.
Arguments Err {A} e.

(** [toolCall.function] *)
Record ToolFunction : Type := mkToolFunction {
  name : string;
  arguments : string
}.

(** An entry of [message.tool_calls]. *)
Record ToolCall : Type := mkToolCall {
  id : string;
  function : ToolFunction
}.

(** An entry of [History]: [{ role, content }], the provider's message
    object, or [{ role, tool_call_id, content }]. *)
Record Message : Type := mkMessage {
  role : string;
  content : option string;
  tool_calls : option (list ToolCall);
  tool_call_id : option string
}.

(** An entry of [tools]. *)
Record ToolSpec : Type := mkToolSpec {
  spec_name : string;
  description : string;
  properties : list (string * string);
  required : list string
}.

(** The argument of [groq.chat.completions.create]. *)
Record ChatRequest : Type := mkChatRequest {
  model : string;
  messages : list Message;
  req_tools : option (list ToolSpec);
  tool_choice : option string
}.

Record Choice : Type := mkChoice { choice_message : option Message }.

Record ChatResponse : Type := mkChatResponse { choices : list Choice }.

(** What [fetch] resolves to: [response.ok] and the outcome of
    [response.json()]. *)
Record FetchResponse : Type := mkFetchResponse {
  ok : bool;
  json : result JValue
}.

(** External calls, in the order they are made. *)
Inductive Event : Type :=
| EvCompletion (req : ChatRequest)
| EvTool (tool : string) (args : JValue)
| EvFetch (url : string).

(** The collaborators.  The provider and the price index may answer
    differently on each call: they see the log of the calls made so far. *)
Record Env : Type := mkEnv {
  GROQ_API_KEY : option string;
  GROQ_MODEL : option string;
  completions_create : list Event -> ChatRequest -> result ChatResponse;
  fetch : list Event -> string -> result FetchResponse;
  JSON_parse : string -> result JValue;
  JSON_stringify : JSValue -> option string;
  (** [Number(s)] on the strings that are not plain decimal literals *)
  StringToNumber : string -> number;
  (** [availableTools[name](args)] for a [name] that is not an own
      property of [availableTools] *)
  inherited_call : string -> JValue -> result JSValue;
  (** the engine's wording of a [TypeError] raised at an expression *)
  TypeError_message : string -> string
}.

(** The module-level state: the array [History], the cached client
    [groqClient], and the log of external calls. *)
Record State : Type := mkState {
  History : list Message;
  groqClient : bool;
  log : list Event
}.

Definition system_message : Message :=
  mkMessage "system"
    (Some ("You are an AI robot agent that can optionally call tools to do math, check if a number is prime, or fetch crypto prices. " ++
           "When you use tools, clearly explain what you did and include the result in natural language."))
    None None.

(** The state when the module has been loaded. *)
Definition initial_state : State := mkState [system_message] false [].

(* ================================================================== *)
(** * Computations *)
(* ================================================================== *)

Inductive outcome (A : Type) : Type :=
| Return (a : A)
| Throw (e : Thrown)
| Diverge.
Arguments Return {A} a.
Arguments Throw {A} e.
Arguments Diverge {A}.

(** A computation runs from a state to an outcome and the state reached;
    a thrown exception keeps the state. *)
Definition M (A : Type) : Type := State -> outcome A * State.

Definition ret {A} (a : A) : M A := fun st => (Return a, st).

Definition bind {A B} (m : M A) (f : A -> M B) : M B :=
  fun st =>
    match m st with
    | (Return a, st') => f a st'
    | (Throw e, st') => (Throw e, st')
    | (Diverge, st') => (Diverge, st')
    end.

Definition throw {A} (e : Thrown) : M A := fun st => (Throw e, st).

Definition diverge {A} : M A := fun st => (Diverge, st).

(** [try { m } catch (err) { h err }] *)
Definition try_catch {A} (m : M A) (h : Thrown -> M A) : M A :=
  fun st =>
    match m st with
    | (Throw e, st') => h e st'
    | other => other
    end.

Declare Scope monad_scope.
Delimit Scope monad_scope with monad.
Notation "x <- m ;; k" := (bind m (fun x => k))
  (at level 61, m at next level, right associativity) : monad_scope.
Notation "m ;;; k" := (bind m (fun _ => k))
  (at level 61, right associativity) : monad_scope.
Local Open Scope monad_scope.

Definition of_result {A} (r : result A) : M A :=
  match r with
  | Ok a => ret a
  | Err e => throw e
  end.

(** [History.push(m)] *)
Definition push (m : Message) : M unit :=
  fun st => (Return tt, mkState (History st ++ [m]) (groqClient st) (log st)).

Definition get_History : M (list Message) := fun st => (Return (History st), st).

Definition record (ev : Event) : M unit :=
  fun st => (Return tt, mkState (History st) (groqClient st) (log st ++ [ev])).

Definition get_log : M (list Event) := fun st => (Return (log st), st).

(** A [TypeError] raised by the engine while evaluating [site]. *)
Definition TypeError {A} (env : Env) (site : string) : M A :=
  throw (Error (TypeError_message env site)).


(* ================================================================== *)
(** * Conversions *)
(* ================================================================== *)

(** [Number(s)]: on a decimal literal the binary64 value nearest to the
    value it denotes, an infinity beyond the range; the engine's
    conversion on every other string. *)
Definition Number_of_string (env : Env) (s : string) : number :=
  match decimal_literal s with
  | Some q => Num.of_Q q
  | None => StringToNumber env s
  end.

(** [ToNumber(v)] *)
Definition ToNumber (env : Env) (v : JSValue) : number :=
  match v with
  | None => NaN
  | Some JNull => Num.of_Z 0
  | Some (JBool b) => Num.of_Z (if b then 1 else 0)
  | Some (JNum n) => n
  | Some (JStr s) => Number_of_string env s
  | Some (JArr items) => Number_of_string env (ToString (JArr items))
  | Some (JObj fields) => Number_of_string env (ToString (JObj fields))
  end.

(** Whether [ToPrimitive(v)] is a string. *)
Definition to_primitive_is_string (v : JSValue) : bool :=
  match v with
  | Some (JStr _) | Some (JArr _) | Some (JObj _) => true
  | _ => false
  end.

(** [a + b] *)
Definition js_plus (env : Env) (a b : JSValue) : JValue :=
  if to_primitive_is_string a || to_primitive_is_string b
  then JStr (ToString_opt a ++ ToString_opt b)
  else JNum (Num.add (ToNumber env a) (ToNumber env b)).

(** [m[n]] after a successful match.  The groups of the patterns of this
    program stand outside every [?], so they take part in every match
    ([search_re_sum_sound] shows it for the sum pattern). *)
Definition capture (n : nat) (m : captures) : string :=
  match group n m with
  | Some s => s
  | None => "undefined"
  end.

(* ================================================================== *)
(** * [src/index.js] *)
(* ================================================================== *)

Definition nl : string := String (ascii_of_nat 10) "".

(** [function getGroqClient()] *)
Definition getGroqClient (env : Env) : M bool :=
  fun st =>
    if groqClient st then (Return true, st)
    else if truthy_string (GROQ_API_KEY env)
         then (Return true, mkState (History st) true (log st))
         else (Return false, st).

(** [function sum(num1, num2) { return num1 + num2; }] *)
Definition sum (env : Env) (num1 num2 : JSValue) : JValue := js_plus env num1 num2.

(** [async function getcryptoprice(coin)] *)
Definition getcryptoprice (env : Env) (coin : string) : M JValue :=
  let url := "https://api.coingecko.com/api/v3/simple/price?ids=" ++ coin ++ "&vs_currencies=usd" in
  l <- get_log ;;
  record (EvFetch url) ;;;
  response <- of_result (fetch env l url) ;;
  if negb (ok response)
  then throw (Error ("Failed to fetch price for " ++ coin))
  else of_result (json response).

(** [function parseTwoNumbersForSum(text)] *)
Definition parseTwoNumbersForSum (env : Env) (text : string) : option (number * number) :=
  match search re_sum text with
  | None => None
  | Some m =>
      Some (Number_of_string env (capture 1 m), Number_of_string env (capture 2 m))
  end.

(** [function parseNumberForPrime(text)] *)
Definition parseNumberForPrime (env : Env) (text : string) : option number :=
  match search re_prime text with
  | None => None
  | Some m => Some (Number_of_string env (capture 1 m))
  end.

(** [function parseCoinForPrice(text)] *)
Definition parseCoinForPrice (text : string) : option string :=
  let t := toLowerCase text in
  if includes t "bitcoin" || includes t "btc" then Some "bitcoin"
  else if includes t "ethereum" || includes t "eth" then Some "ethereum"
  else
    match search re_price_of t with
    | Some m => Some (capture 1 m)
    | None =>
        match search re_coin_price t with
        | Some m => Some (capture 1 m)
        | None => None
        end
    end.

(** [{ name, args }] *)
Record ToolCallInfo : Type := mkToolCallInfo {
  info_name : string;
  info_args : JValue
}.

(** [{ text, toolCall }] as [runOfflineDemo] returns it. *)
Record Demo : Type := mkDemo {
  demo_text : string;
  demo_toolCall : option ToolCallInfo
}.

Definition help_text : string :=
  "Offline demo mode is active because GROQ_API_KEY is not set." ++ nl ++
  "Try:" ++ nl ++
  "- Calculate 1234 + 5678" ++ nl ++
  "- Is 9973 prime?" ++ nl ++
  "- Bitcoin price" ++ nl ++
  nl ++ "To enable full AI chat, add GROQ_API_KEY to a .env file and restart the server.".

(** The object returned by the third branch of [runOfflineDemo] once the
    price has been fetched. *)
Definition price_reply (coin : string) (price : JValue) : Demo :=
  let usd := opt_get (opt_get (Some price) coin) "usd" in
  mkDemo
    (if not_nullish usd
     then toUpperCase coin ++ " price: $" ++ ToString_opt usd ++ " USD"
     else "I couldn't find a USD price for " ++ dquote ++ coin ++ dquote ++
          ". Try: bitcoin, ethereum.")
    (Some (mkToolCallInfo "get_crypto_price" (JObj [("coin", JStr coin)]))).

(** The third branch of [runOfflineDemo] and the final [return]. *)
Definition offline_price (env : Env) (userMessage lower : string) : M Demo :=
  let no_match := ret (mkDemo help_text None) in
  if includes lower "price" || includes lower "crypto" ||
     includes lower "bitcoin" || includes lower "ethereum"
  then
    match parseCoinForPrice userMessage with
    | Some coin =>
        price <- getcryptoprice env coin ;;
        ret (price_reply coin price)
    | None => no_match
    end
  else no_match.

(** The second branch of [runOfflineDemo] and what follows it.  [prime]
    reads its argument through [<], [Math.sqrt] and [%] only. *)
Definition offline_prime (fuel : nat) (env : Env) (userMessage lower : string) : M Demo :=
  if includes lower "prime"
  then
    match parseNumberForPrime env userMessage with
    | Some number =>
        match prime fuel number with
        | None => diverge
        | Some isPrime =>
            ret (mkDemo
                   (Number_toString number ++ " is " ++
                    (if isPrime then "" else "not ") ++ "a prime number.")
                   (Some (mkToolCallInfo "check_prime_number" (JObj [("number", JNum number)]))))
        end
    | None => offline_price env userMessage lower
    end
  else offline_price env userMessage lower.

(** [async function runOfflineDemo(userMessage)] *)
Definition runOfflineDemo (fuel : nat) (env : Env) (userMessage : string) : M Demo :=
  let lower := toLowerCase userMessage in
  match parseTwoNumbersForSum env userMessage with
  | Some (num1, num2) =>
      let result := sum env (Some (JNum num1)) (Some (JNum num2)) in
      ret (mkDemo
             ("Result: " ++ Number_toString num1 ++ " + " ++ Number_toString num2 ++
              " = " ++ ToString result)
             (Some (mkToolCallInfo "sum" (JObj [("num1", JNum num1); ("num2", JNum num2)]))))
  | None => offline_prime fuel env userMessage lower
  end.

(** [const tools = [...]] *)
Definition tools : list ToolSpec :=
  [ mkToolSpec "sum" "Returns the sum of two numbers"
      [("num1", "number"); ("num2", "number")] ["num1"; "num2"];
    mkToolSpec "check_prime_number" "Checks whether a number is prime"
      [("number", "number")] ["number"];
    mkToolSpec "get_crypto_price" "Gets current crypto price in USD"
      [("coin", "string")] ["coin"] ].

(** The parameter pattern [({ k })] applied to [args]. *)
Definition destructure (env : Env) (args : JValue) (k : string) : M JSValue :=
  match args with
  | JNull => TypeError env "destructure"
  | _ => ret (get_prop args k)
  end.

(** [const availableTools = { sum, check_prime_number, get_crypto_price }].
    A tool receives the parsed arguments; [prime] converts its argument
    with [ToNumber] at each of its operators, and the template literal of
    [getcryptoprice] converts [coin] with [String]. *)
Definition availableTools (fuel : nat) (env : Env)
    : list (string * (JValue -> M JSValue)) :=
  [ ("sum", fun args =>
       num1 <- destructure env args "num1" ;;
       num2 <- destructure env args "num2" ;;
       ret (Some (sum env num1 num2)));
    ("check_prime_number", fun args =>
       number <- destructure env args "number" ;;
       match prime fuel (ToNumber env number) with
       | Some b => ret (Some (JBool b))
       | None => diverge
       end);
    ("get_crypto_price", fun args =>
       coin <- destructure env args "coin" ;;
       price <- getcryptoprice env (ToString_opt coin) ;;
       ret (Some price)) ].

Fixpoint own_property {A} (k : string) (table : list (string * A)) : option A :=
  match table with
  | [] => None
  | (k', v) :: rest => if String.eqb k k' then Some v else own_property k rest
  end.

(** [const tool = availableTools[name]; const result = await tool(args);] *)
Definition call_tool (fuel : nat) (env : Env) (name : string) (args : JValue) : M JSValue :=
  record (EvTool name args) ;;;
  match own_property name (availableTools fuel env) with
  | Some tool => tool args
  | None => of_result (inherited_call env name args)
  end.

(** [groq.chat.completions.create(req)] *)
Definition create (env : Env) (req : ChatRequest) : M ChatResponse :=
  l <- get_log ;;
  record (EvCompletion req) ;;;
  of_result (completions_create env l req).

(** [response.choices[0].message] *)
Definition first_message (env : Env) (response : ChatResponse) : M (option Message) :=
  match choices response with
  | [] => TypeError env "choices[0].message"
  | c :: _ => ret (choice_message c)
  end.

(** [{ text, toolCall }] as [runAgent] returns it. *)
Record Reply : Type := mkReply {
  reply_text : option string;
  reply_toolCall : option ToolCallInfo
}.

Definition user_message (text : string) : Message :=
  mkMessage "user" (Some text) None None.

Definition assistant_message (text : string) : Message :=
  mkMessage "assistant" (Some text) None None.

Definition tool_message (call_id : string) (text : option string) : Message :=
  mkMessage "tool" text None (Some call_id).

(** [if (m?.content) History.push({ role: "assistant", content: m.content })] *)
Definition push_content (m : option Message) : M unit :=
  match m with
  | Some msg =>
      match content msg with
      | Some text => if String.eqb text "" then ret tt else push (assistant_message text)
      | None => ret tt
      end
  | None => ret tt
  end.

(** [const MODEL = process.env.GROQ_MODEL || "llama-3.1-8b-instant"] *)
Definition MODEL (env : Env) : string :=
  match GROQ_MODEL env with
  | Some m => if String.eqb m "" then "llama-3.1-8b-instant" else m
  | None => "llama-3.1-8b-instant"
  end.

(** The body of [if (message.tool_calls && message.tool_calls.length > 0)]
    from [History.push(message)] on: the request and the result of the
    tool are appended, the second request is sent, and its answer is
    appended and returned. *)
Definition after_tool (env : Env) (msg : Message) (toolCall : ToolCall)
    (args : JValue) (result : JSValue) : M Reply :=
  push msg ;;;
  push (tool_message (id toolCall) (JSON_stringify env result)) ;;;
  h <- get_History ;;
  finalResponse <- create env (mkChatRequest (MODEL env) h None None) ;;
  finalMessage <- first_message env finalResponse ;;
  push_content finalMessage ;;;
  match finalMessage with
  | None => TypeError env "finalMessage.content"
  | Some fm =>
      ret (mkReply (content fm) (Some (mkToolCallInfo (name (function toolCall)) args)))
  end.

(** The body of [if (message.tool_calls && message.tool_calls.length > 0)]:
    the arguments of the first entry are parsed, the tool it names is
    called, and [after_tool] follows. *)
Definition tool_round (fuel : nat) (env : Env)
    (msg : Message) (toolCall : ToolCall) : M Reply :=
  args <- of_result (JSON_parse env (arguments (function toolCall))) ;;
  result <- call_tool fuel env (name (function toolCall)) args ;;
  after_tool env msg toolCall args result.

(** [runAgent] from [let message = response.choices[0].message] on. *)
Definition after_first_answer (fuel : nat) (env : Env) (response : ChatResponse) : M Reply :=
  message <- first_message env response ;;
  match message with
  | None => TypeError env "message.tool_calls"
  | Some msg =>
      match tool_calls msg with
      | Some (toolCall :: _) => tool_round fuel env msg toolCall
      | _ =>
          push_content message ;;;
          ret (mkReply (content msg) None)
      end
  end.

(** [async function runAgent(userMessage)] *)
Definition runAgent (fuel : nat) (env : Env) (userMessage : string) : M Reply :=
  groq <- getGroqClient env ;;
  if negb groq
  then throw (Error "GROQ_API_KEY is not configured on the server.")
  else
    push (user_message userMessage) ;;;
    h <- get_History ;;
    response <- create env (mkChatRequest (MODEL env) h (Some tools) (Some "auto")) ;;
    after_first_answer fuel env response.

(** The JSON bodies that [chatHandler] sends. *)
Inductive ResBody : Type :=
| ChatBody (response : option string) (toolCall : option ToolCallInfo)
| ErrorBody (error : string).

Record HttpResponse : Type := mkHttpResponse {
  status : nat;
  res_body : ResBody
}.

(** [res.json(b)] and [res.status(n).json(b)] *)
Definition res_json (b : ResBody) : HttpResponse := mkHttpResponse 200 b.
Definition res_status_json (n : nat) (b : ResBody) : HttpResponse := mkHttpResponse n b.

(** The request as the handler reads it: [req.body]. *)
Record HttpRequest : Type := mkHttpRequest { req_body : JSValue }.

Definition fallback_note : string :=
  nl ++ nl ++ "[Note: Groq API call failed; you are seeing the offline/tool-based fallback response instead.]".

(** [(err && typeof err === "object" && "message" in err && err.message)
     ? String(err.message) : "Internal server error ..."] *)
Definition safeMessage (err : Thrown) : string :=
  match message err with
  | Some m => if String.eqb m "" then "Internal server error while processing the AI request." else m
  | None => "Internal server error while processing the AI request."
  end.

(** [const { message } = req.body || {}] *)
Definition body_message (req : HttpRequest) : JSValue :=
  if truthy (req_body req)
  then match req_body req with
       | Some b => get_prop b "message"
       | None => None
       end
  else None.

(** [async function chatHandler(req, res)] *)
Definition chatHandler (fuel : nat) (env : Env) (req : HttpRequest) : M HttpResponse :=
  match body_message req with
  | Some (JStr (String c rest)) =>
      let message := String c rest in
      if negb (truthy_string (GROQ_API_KEY env))
      then
        try_catch
          (demo <- runOfflineDemo fuel env message ;;
           ret (res_json (ChatBody (Some (demo_text demo)) (demo_toolCall demo))))
          (fun _ => ret (res_status_json 500 (ErrorBody "Offline demo failed.")))
      else
        try_catch
          (result <- runAgent fuel env message ;;
           ret (res_json (ChatBody (reply_text result) (reply_toolCall result))))
          (fun err =>
             try_catch
               (demo <- runOfflineDemo fuel env message ;;
                ret (res_json (ChatBody (Some (demo_text demo ++ fallback_note))
                                        (demo_toolCall demo))))
               (fun _ => ret (res_status_json 500 (ErrorBody (safeMessage err)))))
  | _ =>
      ret (res_status_json 400 (ErrorBody "Missing 'message' field in request body."))
  end.

(** [app.post("/chat", chatHandler); app.post("/api/chat", chatHandler);] *)
Definition post_routes (fuel : nat) (env : Env)
    : list (string * (HttpRequest -> M HttpResponse)) :=
  [ ("/chat", chatHandler fuel env); ("/api/chat", chatHandler fuel env) ].

(** A [POST] to [path]: the handler registered for it, if any. *)
Definition POST (fuel : nat) (env : Env) (path : string) (req : HttpRequest)
    : option (M HttpResponse) :=
  match own_property path (post_routes fuel env) with
  | Some handler => Some (handler req)
  | None => None
  end.


(* ================================================================== *)
(** * The primality check as the specification words it *)
(* ================================================================== *)

(** The integer square root of a finite value. *)
Definition isqrt (q : Q) : Z := Z.sqrt (Qfloor q).

(** [i] divides [q] exactly: the remainder of [q] by [i] is zero. *)
Definition exact_divisor (q : Q) (i : Z) : bool :=
  (Z.rem (Qnum q) (i * QDen q) =? 0)%Z.

(** [lo, lo+1, ..., lo+n-1] *)
Fixpoint Zrange (lo : Z) (n : nat) : list Z :=
  match n with
  | O => []
  | S n' => lo :: Zrange (lo + 1) n'
  end.

(** Every integer from 2 up to and including the integer square root. *)
Definition trial_divisors (q : Q) : list Z := Zrange 2 (Z.to_nat (isqrt q - 1)).

(** Modelled on the specification's sentence: false below 2, otherwise
    false exactly when a trial divisor divides. *)
Definition check_prime_spec (q : Q) : bool :=
  if Qle_bool 2 q then negb (existsb (exact_divisor q) (trial_divisors q)) else false.

(* ================================================================== *)
(** * The sum intent as the specification words it *)
(* ================================================================== *)

Fixpoint all_chars (p : ascii -> bool) (s : string) : bool :=
  match s with
  | EmptyString => true
  | String c s' => p c && all_chars p s'
  end.

(** One or more digits. *)
Definition digits (s : string) : Prop := s <> "" /\ all_chars is_digit s = true.

(** [<optional sign><digits><optional .digits>] *)
Definition number_token (s : string) : Prop :=
  exists sign ds frac,
    s = sign ++ ds ++ frac /\
    (sign = "" \/ sign = "-") /\
    digits ds /\
    (frac = "" \/ exists fs, frac = "." ++ fs /\ digits fs).

(** The text contains a number, then [+], then a second number, with
    optional white space around the [+]. *)
Definition contains_sum (text : string) : Prop :=
  exists pre a ws1 ws2 b suf,
    text = pre ++ a ++ ws1 ++ "+" ++ ws2 ++ b ++ suf /\
    number_token a /\ number_token b /\
    all_chars is_space ws1 = true /\ all_chars is_space ws2 = true.

(* ================================================================== *)
(** * The words of a pattern *)
(* ================================================================== *)

(** The words a regular expression matches. *)
Fixpoint matches (r : regex) (w : string) : Prop :=
  match r with
  | Lit c => w = String c ""
  | Class p => exists c, w = String c "" /\ p c = true
  | Cat r1 r2 => exists w1 w2, w = w1 ++ w2 /\ matches r1 w1 /\ matches r2 w2
  | Opt r1 => w = "" \/ matches r1 w
  | Star p => all_chars p w = true
  | Plus p => w <> "" /\ all_chars p w = true
  | Group _ r1 => matches r1 w
  end.

(** The words a regular expression matches, with the captures the match
    adds to [caps]. *)
Fixpoint matches_with (r : regex) (w : string) (caps caps' : captures) : Prop :=
  match r with
  | Lit c => w = String c "" /\ caps' = caps
  | Class p => (exists c, w = String c "" /\ p c = true) /\ caps' = caps
  | Cat r1 r2 =>
      exists w1 w2 mid,
        w = w1 ++ w2 /\ matches_with r1 w1 caps mid /\ matches_with r2 w2 mid caps'
  | Opt r1 => (w = "" /\ caps' = caps) \/ matches_with r1 w caps caps'
  | Star p => all_chars p w = true /\ caps' = caps
  | Plus p => (w <> "" /\ all_chars p w = true) /\ caps' = caps
  | Group n r1 => exists mid, matches_with r1 w caps mid /\ caps' = (n, w) :: mid
  end.

(** A continuation that accepts the rest [suf] whatever was captured. *)
Definition accepts (k : cont) (suf : string) : Prop :=
  forall caps, k suf caps <> None.

(* ================================================================== *)
(** * Vocabulary of the offline claims *)
(* ================================================================== *)

(** The address that [getcryptoprice] requests for [coin]. *)
Definition price_url (coin : string) : string :=
  "https://api.coingecko.com/api/v3/simple/price?ids=" ++ coin ++ "&vs_currencies=usd".

(** The price lookup of the offline responder for a resolved coin. *)
Definition price_lookup (env : Env) (coin : string) : M Demo :=
  price <- getcryptoprice env coin ;; ret (price_reply coin price).

(** The second branch of [runOfflineDemo] is taken: the text contains
    "prime" and a number. *)
Definition prime_intent (env : Env) (text : string) : bool :=
  includes (toLowerCase text) "prime" &&
  match parseNumberForPrime env text with
  | Some _ => true
  | None => false
  end.

(** The request whose body is [{ message: text }]. *)
Definition chat_request (text : string) : HttpRequest :=
  mkHttpRequest (Some (JObj [("message", JStr text)])).

(** A text [n] characters of [c] long. *)
Fixpoint repeat_char (c : ascii) (n : nat) : string :=
  match n with
  | O => EmptyString
  | S n' => String c (repeat_char c n')
  end.

(** "prime " followed by the decimal digits of [10^400]. *)
Definition prime_of_huge : string := "prime 1" ++ repeat_char "0" 400.

(* ================================================================== *)
(** * Vocabulary of the handler claims *)
(* ================================================================== *)

(** The reply of [chatHandler] when the offline responder throws and no
    provider key is set. *)
Definition offline_failed : HttpResponse :=
  res_status_json 500 (ErrorBody "Offline demo failed.").

(** The reply of [chatHandler] to a body without a usable message. *)
Definition missing_message : HttpResponse :=
  res_status_json 400 (ErrorBody "Missing 'message' field in request body.").



(* ================================================================== *)
(** * Vocabulary of the orchestrator claims *)
(* ================================================================== *)

(** The provider can be reached: the client is cached or the key is set. *)
Definition provider_configured (env : Env) (st : State) : bool :=
  groqClient st || truthy_string (GROQ_API_KEY env).

(** The request of the first round-trip. *)
Definition first_request (env : Env) (st : State) (userMessage : string) : ChatRequest :=
  mkChatRequest (MODEL env) (History st ++ [user_message userMessage])
                (Some tools) (Some "auto").

(** The state when the first round-trip has been made. *)
Definition after_first_request (env : Env) (st : State) (userMessage : string) : State :=
  mkState (History st ++ [user_message userMessage]) true
          (log st ++ [EvCompletion (first_request env st userMessage)]).

(** The request of the second round-trip, for a transcript [T]. *)
Definition second_request (env : Env) (T : list Message) : ChatRequest :=
  mkChatRequest (MODEL env) T None None.

(** The kinds of events. *)
Definition is_fetch (ev : Event) : bool :=
  match ev with EvFetch _ => true | _ => false end.

Definition is_tool (ev : Event) : bool :=
  match ev with EvTool _ _ => true | _ => false end.

Definition is_completion (ev : Event) : bool :=
  match ev with EvCompletion _ => true | _ => false end.

(** The requests sent to the provider, in order. *)
Definition completions (l : list Event) : list Event := filter is_completion l.

(** The tool invocations made, in order. *)
Definition invocations (l : list Event) : list Event := filter is_tool l.

(** The reply of [chatHandler] when [runAgent] has thrown [err], from the
    outcome of the offline responder. *)
Definition fallback_reply (err : Thrown) (r : outcome Demo * State)
    : outcome HttpResponse * State :=
  match r with
  | (Return demo, st') =>
      (Return (res_json (ChatBody (Some (demo_text demo ++ fallback_note))
                                  (demo_toolCall demo))), st')
  | (Throw _, st') => (Return (res_status_json 500 (ErrorBody (safeMessage err))), st')
  | (Diverge, st') => (Diverge, st')
  end.

(** A computation only appends to the transcript. *)
Definition appending {A} (m : M A) : Prop :=
  forall st, exists appended, History (snd (m st)) = (History st ++ appended)%list.

(** A computation leaves the transcript as it is. *)
Definition silent {A} (m : M A) : Prop :=
  forall st, History (snd (m st)) = History st.

(** Serving requests one after the other; a path without a handler leaves
    the state as it is. *)
Fixpoint serve (fuel : nat) (env : Env) (reqs : list (string * HttpRequest))
    (st : State) : State :=
  match reqs with
  | [] => st
  | (path, req) :: rest =>
      match POST fuel env path req with
      | Some handler => serve fuel env rest (snd (handler st))
      | None => serve fuel env rest st
      end
  end.

(* ================================================================== *)
(** * Sample collaborators *)
(* ================================================================== *)

(** No provider key; the given price index. *)
Definition offline_env (price_index : list Event -> string -> result FetchResponse) : Env :=
  mkEnv None None
        (fun _ _ => Err (Error "no provider"))
        price_index
        (fun _ => Err (Error "Unexpected token"))
        (fun _ => None)
        (fun _ => NaN)
        (fun _ _ => Err (Error "tool is not a function"))
        (fun site => "TypeError: " ++ site).

(** A price index that answers every request with a non-success status. *)
Definition price_index_down : list Event -> string -> result FetchResponse :=
  fun _ _ => Ok (mkFetchResponse false (Err (Error "Unexpected token"))).

(** A price index that knows bitcoin at 97000 USD. *)
Definition price_index_up : list Event -> string -> result FetchResponse :=
  fun _ _ =>
    Ok (mkFetchResponse true
          (Ok (JObj [("bitcoin", JObj [("usd", JNum (Num.of_Z 97000))])]))).

(** A provider that is configured and fails on every call; a price index
    that is down. *)
Definition failing_env : Env :=
  mkEnv (Some "gsk_key") None
        (fun _ _ => Err (Error "Connection error."))
        price_index_down
        (fun _ => Err (Error "Unexpected token"))
        (fun _ => None)
        (fun _ => NaN)
        (fun _ _ => Err (Error "tool is not a function"))
        (fun site => "TypeError: " ++ site).

(** The arguments [{"num1":2,"num2":3}] and [{"number":7}] as the provider
    sends them. *)
Definition sum_arguments : string :=
  "{" ++ dquote ++ "num1" ++ dquote ++ ":2," ++ dquote ++ "num2" ++ dquote ++ ":3}".

Definition prime_arguments : string :=
  "{" ++ dquote ++ "number" ++ dquote ++ ":7}".

(** A provider that requests two tool invocations in its first answer and
    then answers in plain text. *)
Definition two_calls : Message :=
  mkMessage "assistant" None
    (Some [mkToolCall "call_1" (mkToolFunction "sum" sum_arguments);
           mkToolCall "call_2" (mkToolFunction "check_prime_number" prime_arguments)])
    None.

(** A provider that asks for two tools at its first call and answers in
    plain text afterwards; [JSON.parse] knows the two argument texts. *)
Definition tool_env : Env :=
  mkEnv (Some "gsk_key") None
        (fun l _ =>
           match l with
           | [] => Ok (mkChatResponse [mkChoice (Some two_calls)])
           | _ => Ok (mkChatResponse [mkChoice (Some (assistant_message "2 + 3 = 5"))])
           end)
        price_index_up
        (fun text =>
           if String.eqb text sum_arguments
           then Ok (JObj [("num1", JNum (Num.of_Z 2)); ("num2", JNum (Num.of_Z 3))])
           else if String.eqb text prime_arguments
                then Ok (JObj [("number", JNum (Num.of_Z 7))])
                else Err (Error "Unexpected token"))
        (fun v => match v with
                  | Some v' => Some (ToString v')
                  | None => None
                  end)
        (fun _ => NaN)
        (fun _ _ => Err (Error "tool is not a function"))
        (fun site => "TypeError: " ++ site).

(* ================================================================== *)
(** * Vocabulary of the further properties *)
(* ================================================================== *)

(** What one request can add to the transcript: nothing; the user message;
    the user message and the answer; the user message, the provider's tool
    request and the tool message that answers its first entry; the same
    followed by the final answer. *)
Inductive request_appends (text : string) : list Message -> Prop :=
| appends_nothing : request_appends text []
| appends_user : request_appends text [user_message text]
| appends_answer (answer : string) :
    request_appends text [user_message text; assistant_message answer]
| appends_tool (m : Message) (tc : ToolCall) (rest : list ToolCall) (result : option string) :
    tool_calls m = Some (tc :: rest) ->
    request_appends text [user_message text; m; tool_message (id tc) result]
| appends_tool_answer (m : Message) (tc : ToolCall) (rest : list ToolCall)
    (result : option string) (answer : string) :
    tool_calls m = Some (tc :: rest) ->
    request_appends text
      [user_message text; m; tool_message (id tc) result; assistant_message answer].

(** The state reached from [st] by external calls [new] alone. *)
Definition logged (st : State) (new : list Event) : State :=
  mkState (History st) (groqClient st) (log st ++ new).

(** The requests sent to the price index, in order. *)
Definition fetches_of (l : list Event) : list Event := filter is_fetch l.

(** The text holds no digit. *)
Definition no_digit (text : string) : bool :=
  all_chars (fun c => negb (is_digit c)) text.

(** A provider that answers every request in plain text. *)
Definition plain_env : Env :=
  mkEnv (Some "gsk_key") None
        (fun _ _ => Ok (mkChatResponse [mkChoice (Some (assistant_message "Hello!"))]))
        price_index_up
        (fun _ => Err (Error "Unexpected token"))
        (fun _ => None)
        (fun _ => NaN)
        (fun _ _ => Err (Error "tool is not a function"))
        (fun site => "TypeError: " ++ site).

(** At most one request to the price index. *)
Definition at_most_one_fetch (l : list Event) : Prop :=
  l = [] \/ exists url, l = [EvFetch url].

(** The external calls of one run of [runAgent] after the first request:
    none; one tool invocation with at most one request to the price index;
    the same followed by the second request. *)
Inductive agent_calls (env : Env) : list Event -> Prop :=
| calls_none : agent_calls env []
| calls_tool (tool : string) (args : JValue) (fetches : list Event) :
    at_most_one_fetch fetches ->
    agent_calls env (EvTool tool args :: fetches)
| calls_tool_second (tool : string) (args : JValue) (fetches : list Event)
    (T : list Message) :
    at_most_one_fetch fetches ->
    agent_calls env (EvTool tool args :: fetches ++ [EvCompletion (second_request env T)]).

(** The message requests tool invocations: [tool_calls] is a list that is
    not empty. *)
Definition requests_tools (m : Message) : bool :=
  match tool_calls m with
  | Some (_ :: _) => true
  | _ => false
  end.

(** A message with role "tool" that requests no tool invocation itself.
    The message of the provider that [runAgent] appends as it came,
    whatever its role, always requests one. *)
Definition is_tool_result (t : Message) : bool :=
  String.eqb (role t) "tool" && negb (requests_tools t).

(** [t] answers the first invocation that [m] requests. *)
Definition answers (m t : Message) : bool :=
  match tool_calls m, tool_call_id t with
  | Some (tc :: _), Some call_id => String.eqb call_id (id tc)
  | _, _ => false
  end.

(** Every message of the transcript with role "tool" that requests no
    tool invocation itself stands right after a message whose first
    requested invocation it answers; [prev] is the entry before the
    list. *)
Fixpoint paired_from (prev : option Message) (H : list Message) : bool :=
  match H with
  | [] => true
  | t :: rest =>
      (if is_tool_result t
       then match prev with
            | Some m => answers m t
            | None => false
            end
       else true) &&
      paired_from (Some t) rest
  end.

Definition tool_paired (H : list Message) : bool := paired_from None H.


(* ================================================================== *)
(** * [src/index.js]: starting the server *)
(* ================================================================== *)

(** What [app.listen(port)] leads to: the [listening] event, the [error]
    event with the error's [code] when it has one, or neither, in which
    case the promise is never settled.  A port the runtime refuses outright
    is an error with another code. *)
Inductive ListenResult : Type :=
| Listening
| ListenError (code : option string)
| NoEvent.

(** How [startServer] ends: with the server bound to [port]; in the
    [catch] block with [process.exit(1)]; after the loop with
    [process.exit(1)]; or never, waiting on [port]. *)
Inductive StartResult : Type :=
| ServerOn (port : number)
| ExitFailed (port : number) (code : option string)
| ExitNoPort
| Waiting (port : number).

(** [err && err.code === "EADDRINUSE"] *)
Definition in_use (code : option string) : bool :=
  match code with
  | Some c => String.eqb c "EADDRINUSE"
  | None => false
  end.

Definition maxAttempts : nat := 10.

(** [initialPort + attempt] *)
Definition port_of (initialPort : number) (attempt : nat) : number :=
  Num.add initialPort (Num.of_Z (Z.of_nat attempt)).

(** The [for] loop of [startServer] from [attempt] on.  [listen k port] is
    the outcome of the [k]-th call of [app.listen], made on [port]; [fuel]
    bounds the number of times the loop body runs. *)
Fixpoint startServer_from (listen : nat -> number -> ListenResult) (initialPort : number)
    (fuel attempt : nat) : option StartResult :=
  match fuel with
  | O => if (attempt <=? maxAttempts)%nat then None else Some ExitNoPort
  | S fuel' =>
      if (attempt <=? maxAttempts)%nat then
        let port := port_of initialPort attempt in
        match listen attempt port with
        | Listening => Some (ServerOn port)
        | NoEvent => Some (Waiting port)
        | ListenError code =>
            if in_use code && (attempt <? maxAttempts)%nat
            then startServer_from listen initialPort fuel' (S attempt)
            else Some (ExitFailed port code)
        end
      else Some ExitNoPort
  end.

(** [async function startServer(initialPort)] *)
Definition startServer (listen : nat -> number -> ListenResult) (initialPort : number)
    (fuel : nat) : option StartResult :=
  startServer_from listen initialPort fuel 0.

(** The ports before the [k]-th all answered [EADDRINUSE]. *)
Definition all_in_use (listen : nat -> number -> ListenResult) (p0 : number) (k : nat) : Prop :=
  forall j, (j < k)%nat -> exists code, listen j (port_of p0 j) = ListenError code /\ in_use code = true.

(** A sample network: the first three ports are taken. *)
Definition three_taken (k : nat) (port : number) : ListenResult :=
  if (k <? 3)%nat then ListenError (Some "EADDRINUSE") else Listening.

(* ================================================================== *)
(** * [src/api/chat.js] *)
(* ================================================================== *)

Module ApiChat.

(** [const prime = (n) => { if (n <= 1) return false; for (...) ...; return true; }]
    with the same loop as [prime] of [src/index.js]. *)
Definition prime (fuel : nat) (n : number) : option bool :=
  if Num.le n (Num.of_Z 1) then Some false else prime_loop fuel n 2.

End ApiChat.

(** A number strictly between 1 and 2. *)
Definition between_one_and_two (num : number) : bool :=
  Num.lt (Num.of_Z 1) num && Num.lt num (Num.of_Z 2).


(* ================================================================== *)
(** * The first match, as the specification words it *)
(* ================================================================== *)

(** The text does not start with a character of the class [p]. *)
Definition not_starts (p : ascii -> bool) (s : string) : Prop :=
  match s with
  | String c _ => p c = false
  | EmptyString => True
  end.

(** A sum expression stands at the very start of the text. *)
Definition starts_with_sum (s : string) : Prop :=
  exists a ws1 ws2 b suf,
    s = a ++ ws1 ++ "+" ++ ws2 ++ b ++ suf /\
    number_token a /\ number_token b /\
    all_chars is_space ws1 = true /\ all_chars is_space ws2 = true.

(** A number stands at the very start of the text. *)
Definition starts_with_number (s : string) : Prop :=
  exists a suf, s = a ++ suf /\ number_token a.

(** [pre] is the shortest prefix of [text] after which [P] holds of the
    rest: what stands after [pre] is the first place of the text where
    [P] holds. *)
Definition first_place (P : string -> Prop) (text pre : string) : Prop :=
  forall pre' rest',
    text = pre' ++ rest' ->
    (String.length pre' < String.length pre)%nat -> ~ P rest'.

(** [b] is the longest number at the start of [b ++ suf]. *)
Definition longest_number (b suf : string) : Prop :=
  forall b' suf',
    b ++ suf = b' ++ suf' -> number_token b' ->
    (String.length b' <= String.length b)%nat.


(* ================================================================== *)
(** * The binary64 format, as its standard words it *)
(* ================================================================== *)

(** A finite binary64 value: [m * 2^e] with a significand [m] of at most
    53 bits and an exponent [e] from -1074 to 971. *)
Definition binary64 (x : Q) : Prop :=
  exists m e : Z,
    Z.abs m < 2 ^ 53 /\ -1074 <= e <= 971 /\ (x == inject_Z m * Num.pow2 e)%Q.

(** [r] is a binary64 value, and no binary64 value is nearer to [q]. *)
Definition nearest64 (q r : Q) : Prop :=
  binary64 r /\ forall d, binary64 d -> (Qabs (r - q) <= Qabs (d - q))%Q.

(** What the exact result [q] of an operation becomes: a nearest binary64
    value, or an infinity from [2^1024 - 2^970] on. *)
Definition rounds_to (q : Q) (n : number) : Prop :=
  match n with
  | Fin r => nearest64 q r
  | PInf => (Num.overflow_threshold <= q)%Q
  | NInf => (q <= - Num.overflow_threshold)%Q
  | NaN => False
  end.




(** A request to the provider that offers the tool catalogue with automatic
    choice, as the first request of [runAgent] does. *)
Definition offers_tools (env : Env) (r : ChatRequest) : Prop :=
  model r = MODEL env /\ req_tools r = Some tools /\ tool_choice r = Some "auto".

(** A request to the provider that offers no tool, as the second request
    of [runAgent] does. *)
Definition offers_no_tool (env : Env) (r : ChatRequest) : Prop :=
  model r = MODEL env /\ req_tools r = None /\ tool_choice r = None.

(** The calls other than requests to the price index, in order. *)
Definition provider_and_tool_calls (l : list Event) : list Event :=
  filter (fun ev => negb (is_fetch ev)) l.


(* ================================================================== *)
(** * Facts about numbers and [prime] *)
(* ================================================================== *)

Section PrimeFacts.

Local Open Scope Z_scope.

Lemma le_sqrt_isqrt (q : Q) (i : Z) :
  (2 <= q)%Q -> 0 < i -> Num.le_sqrt i (Fin q) = (i <=? isqrt q).
Proof.
  intros Hq Hi. unfold Num.le_sqrt, isqrt.
  assert (H0 : Qle_bool 0 q = true).
  { apply Qle_bool_iff. apply Qle_trans with (2 := Hq). discriminate. }
  rewrite H0. cbn [andb].
  replace (i <=? 0) with false by (symmetry; apply Z.leb_gt; exact Hi).
  cbn [orb].
  destruct q as [n d]. unfold Qle in Hq. cbn in Hq.
  assert (Hfl : 0 <= n / Zpos d) by (apply Z.div_pos; lia).
  destruct (Z.leb_spec i (Z.sqrt (Qfloor (n # d)))) as [Hle | Hgt].
  - apply Qle_bool_iff. unfold Qle. cbn. cbn in Hle.
    apply Z.sqrt_le_square in Hle; try lia.
    pose proof (Z.mul_div_le n (Zpos d) ltac:(lia)). nia.
  - apply not_true_is_false. intros Hb. apply Qle_bool_iff in Hb.
    unfold Qle in Hb. cbn in Hb, Hgt.
    assert (i * i <= n / Zpos d).
    { apply Z.div_le_lower_bound; lia. }
    apply Z.sqrt_le_square in H; lia.
Qed.

Lemma rem_zero_exact_divisor (q : Q) (i : Z) :
  i <> 0 ->
  Num.strict_eq (Num.rem (Fin q) (Num.of_Z i)) (Num.of_Z 0) = exact_divisor q i.
Proof.
  intros Hi. unfold Num.strict_eq, Num.rem, Num.of_Z, exact_divisor.
  cbn [Qnum Qden inject_Z].
  replace (i =? 0) with false by (symmetry; apply Z.eqb_neq; exact Hi).
  unfold Qeq_bool. cbn [Qnum Qden].
  rewrite !Z.mul_1_r. reflexivity.
Qed.

(** An exact divisor is an integer [i] of which [q] is an integer multiple. *)
Lemma exact_divisor_multiple (q : Q) (i : Z) :
  i <> 0 ->
  (exact_divisor q i = true <-> exists k : Z, q == inject_Z (k * i)).
Proof.
  intros Hi. unfold exact_divisor. rewrite Z.eqb_eq.
  rewrite Z.rem_divide by (destruct q; cbn; lia).
  destruct q as [n d]. unfold Qeq. cbn. split.
  - intros [k Hk]. exists k. lia.
  - intros [k Hk]. exists k. lia.
Qed.

Lemma prime_below_two (fuel : nat) (n : number) :
  Num.lt n (Num.of_Z 2) = true -> prime fuel n = Some false.
Proof. intros H. unfold prime. rewrite H. reflexivity. Qed.

Lemma prime_from_two (fuel : nat) (q : Q) :
  (2 <= q)%Q -> prime fuel (Fin q) = prime_loop fuel (Fin q) 2.
Proof.
  intros H. unfold prime, Num.lt, Num.of_Z.
  replace (Qle_bool (inject_Z 2) q) with true; [reflexivity|].
  symmetry. apply Qle_bool_iff. exact H.
Qed.

(** The loop started at [i] with [n] candidates left below the root. *)
Lemma prime_loop_scan (q : Q) (n : nat) :
  (2 <= q)%Q ->
  forall (i : Z) (fuel : nat),
    2 <= i -> i + Z.of_nat n = isqrt q + 1 -> (n < fuel)%nat ->
    prime_loop fuel (Fin q) i = Some (negb (existsb (exact_divisor q) (Zrange i n))).
Proof.
  intros Hq. induction n as [|n IH]; intros i fuel Hi Hn Hfuel.
  - destruct fuel as [|fuel]; [lia|]. cbn [prime_loop Zrange existsb negb].
    rewrite le_sqrt_isqrt by (assumption || lia).
    replace (i <=? isqrt q) with false by (symmetry; apply Z.leb_gt; lia).
    reflexivity.
  - destruct fuel as [|fuel]; [lia|]. cbn [prime_loop Zrange existsb].
    rewrite le_sqrt_isqrt by (assumption || lia).
    replace (i <=? isqrt q) with true by (symmetry; apply Z.leb_le; lia).
    rewrite rem_zero_exact_divisor by lia.
    destruct (exact_divisor q i); [reflexivity|].
    cbn [orb]. apply IH; lia.
Qed.

(** The loop returns as soon as it meets a divisor. *)
Lemma prime_loop_first_divisor (q : Q) (n : nat) :
  (2 <= q)%Q ->
  forall (i : Z) (fuel : nat),
    2 <= i -> i + Z.of_nat n <= isqrt q ->
    existsb (exact_divisor q) (Zrange i n) = false ->
    exact_divisor q (i + Z.of_nat n) = true ->
    (n < fuel)%nat ->
    prime_loop fuel (Fin q) i = Some false.
Proof.
  intros Hq. induction n as [|n IH]; intros i fuel Hi Hn Hnone Hd Hfuel.
  - destruct fuel as [|fuel]; [lia|]. cbn [prime_loop].
    rewrite le_sqrt_isqrt by (assumption || lia).
    replace (i <=? isqrt q) with true by (symmetry; apply Z.leb_le; lia).
    rewrite rem_zero_exact_divisor by lia.
    replace (i + Z.of_nat 0) with i in Hd by lia. rewrite Hd. reflexivity.
  - destruct fuel as [|fuel]; [lia|]. cbn [prime_loop].
    cbn [Zrange existsb] in Hnone. apply orb_false_iff in Hnone as [Hi0 Hrest].
    rewrite le_sqrt_isqrt by (assumption || lia).
    replace (i <=? isqrt q) with true by (symmetry; apply Z.leb_le; lia).
    rewrite rem_zero_exact_divisor by lia. rewrite Hi0.
    apply IH; try lia; try assumption.
    replace (i + 1 + Z.of_nat n) with (i + Z.of_nat (S n)) by lia. exact Hd.
Qed.

Lemma isqrt_pos (q : Q) : (2 <= q)%Q -> 1 <= isqrt q.
Proof.
  intros Hq. unfold isqrt. destruct q as [n d]. unfold Qle in Hq. cbn in *.
  assert (2 <= n / Zpos d) by (apply Z.div_le_lower_bound; lia).
  apply Z.sqrt_le_square; lia.
Qed.

Lemma prime_refines_spec (q : Q) (fuel : nat) :
  (2 <= q)%Q -> (Z.to_nat (isqrt q) <= fuel)%nat ->
  prime fuel (Fin q) = Some (check_prime_spec q).
Proof.
  intros Hq Hfuel. rewrite prime_from_two by assumption.
  unfold check_prime_spec.
  replace (Qle_bool 2 q) with true by (symmetry; apply Qle_bool_iff; exact Hq).
  pose proof (isqrt_pos q Hq).
  apply prime_loop_scan; try assumption; lia.
Qed.

(** A larger budget does not change a result. *)
Lemma prime_loop_fuel_mono (fuel : nat) :
  forall (num : number) (i : Z) (b : bool),
    prime_loop fuel num i = Some b -> prime_loop (S fuel) num i = Some b.
Proof.
  induction fuel as [|fuel IH]; intros num i b H; [discriminate|].
  cbn [prime_loop] in H. remember (S fuel) as fuel1. cbn [prime_loop]. subst fuel1.
  destruct (Num.le_sqrt i num); [|exact H].
  destruct (Num.strict_eq (Num.rem num (Num.of_Z i)) (Num.of_Z 0)); [exact H|].
  apply IH. exact H.
Qed.

Lemma prime_fuel_mono (fuel : nat) (num : number) (b : bool) :
  prime fuel num = Some b -> prime (S fuel) num = Some b.
Proof.
  unfold prime. destruct (Num.lt num (Num.of_Z 2)); [trivial|].
  apply prime_loop_fuel_mono.
Qed.

(** [prime] returns on every finite number, given a budget of the size of
    the integer square root. *)
Lemma prime_total (q : Q) (fuel : nat) :
  (Z.to_nat (isqrt q) <= fuel)%nat ->
  prime fuel (Fin q) = Some (check_prime_spec q).
Proof.
  intros Hfuel. destruct (Qle_bool 2 q) eqn:Hq.
  - apply prime_refines_spec; [apply Qle_bool_iff; exact Hq | exact Hfuel].
  - unfold check_prime_spec. rewrite Hq. apply prime_below_two.
    unfold Num.lt, Num.of_Z. change (inject_Z 2) with 2%Q. rewrite Hq. reflexivity.
Qed.

(** On the positive infinity the loop condition holds forever and no
    remainder is zero. *)
Lemma prime_loop_PInf (fuel : nat) : forall i, prime_loop fuel PInf i = None.
Proof. induction fuel as [|fuel IH]; intros i; cbn; [reflexivity | apply IH]. Qed.

Lemma fractional_no_divisor (q : Q) (i : Z) :
  Num.isInteger (Fin q) = false -> i <> 0 -> exact_divisor q i = false.
Proof.
  intros Hfrac Hi. apply not_true_is_false. intros Hd.
  unfold exact_divisor in Hd. apply Z.eqb_eq in Hd.
  apply Z.rem_divide in Hd; [| destruct q; cbn; lia].
  cbn in Hfrac. apply Z.eqb_neq in Hfrac. apply Hfrac.
  apply Z.mod_divide; [destruct q; cbn; lia|].
  destruct Hd as [k Hk]. exists (k * i). lia.
Qed.

Lemma existsb_none {A} (f : A -> bool) (l : list A) :
  (forall x, In x l -> f x = false) -> existsb f l = false.
Proof.
  induction l as [|a l IH]; intros H; cbn; [reflexivity|].
  rewrite (H a (or_introl eq_refl)). apply IH. intros x Hx. apply H. right. exact Hx.
Qed.

Lemma Zrange_In (lo : Z) (n : nat) (x : Z) :
  In x (Zrange lo n) -> lo <= x < lo + Z.of_nat n.
Proof.
  revert lo. induction n as [|n IH]; intros lo; cbn; [tauto|].
  intros [<- | H]; [lia|]. apply IH in H. lia.
Qed.

End PrimeFacts.

(* ================================================================== *)
(** * The primality check: claims *)
(* ================================================================== *)

Section PrimeClaims.

Local Open Scope Z_scope.

(** C3, amended.  [prime] returns false for every input below 2 (whatever
    the budget); for a finite input of at least 2 it returns the verdict of
    trial division by every integer from 2 up to and including the integer
    square root, and it returns false as soon as the first exact divisor is
    met; it returns true on 2, 3, 5, 7, 11, 13 and false on 4, 6, 8, 9,
    10, 12. *)
Theorem prime_trial_division :
  (forall (fuel : nat) (n : number),
      Num.lt n (Num.of_Z 2) = true -> prime fuel n = Some false) /\
  (forall (fuel : nat) (q : Q),
      (2 <= q)%Q -> (Z.to_nat (isqrt q) <= fuel)%nat ->
      prime fuel (Fin q) = Some (check_prime_spec q)) /\
  (forall (fuel : nat) (q : Q) (d : Z),
      (2 <= q)%Q -> 2 <= d <= isqrt q ->
      exact_divisor q d = true ->
      (forall i, 2 <= i < d -> exact_divisor q i = false) ->
      (Z.to_nat (d - 1) <= fuel)%nat ->
      prime fuel (Fin q) = Some false) /\
  (forall (fuel : nat) (n : Z),
      (3 <= fuel)%nat -> In n [2; 3; 5; 7; 11; 13] ->
      prime fuel (Num.of_Z n) = Some true) /\
  (forall (fuel : nat) (n : Z),
      (3 <= fuel)%nat -> In n [4; 6; 8; 9; 10; 12] ->
      prime fuel (Num.of_Z n) = Some false).
Proof.
  split; [exact prime_below_two|].
  split; [intros; apply prime_refines_spec; assumption|].
  split.
  { intros fuel q d Hq Hd Hdiv Hfirst Hfuel.
    rewrite prime_from_two by assumption.
    apply prime_loop_first_divisor with (n := Z.to_nat (d - 2)); try assumption; try lia.
    - apply existsb_none. intros x Hx. apply Hfirst.
      apply Zrange_In in Hx. lia.
    - replace (2 + Z.of_nat (Z.to_nat (d - 2))) with d by lia. exact Hdiv. }
  split.
  - intros fuel n Hfuel Hin.
    assert (Hspec : check_prime_spec (inject_Z n) = true /\ (2 <= inject_Z n)%Q /\
                    (Z.to_nat (isqrt (inject_Z n)) <= 3)%nat).
    { cbn in Hin. repeat (destruct Hin as [<- | Hin];
        [repeat split; try reflexivity; try (cbn; lia); try discriminate |]).
      destruct Hin. }
    destruct Hspec as (Hs & Hq & Hr). unfold Num.of_Z.
    rewrite prime_refines_spec by (assumption || lia). rewrite Hs. reflexivity.
  - intros fuel n Hfuel Hin.
    assert (Hspec : check_prime_spec (inject_Z n) = false /\ (2 <= inject_Z n)%Q /\
                    (Z.to_nat (isqrt (inject_Z n)) <= 3)%nat).
    { cbn in Hin. repeat (destruct Hin as [<- | Hin];
        [repeat split; try reflexivity; try (cbn; lia); try discriminate |]).
      destruct Hin. }
    destruct Hspec as (Hs & Hq & Hr). unfold Num.of_Z.
    rewrite prime_refines_spec by (assumption || lia). rewrite Hs. reflexivity.
Qed.

(** C3, applied: -3.5 and 1 are below 2; 35 = 5 * 7 is rejected at its
    first divisor 5 after four evaluations of the loop condition; 13 is
    accepted and 9 rejected. *)
Lemma prime_trial_division_witness :
  prime 0 (Fin (-7 # 2)) = Some false /\
  prime 0 (Num.of_Z 1) = Some false /\
  prime 5 (Fin 35) = Some (check_prime_spec 35) /\
  prime 4 (Fin 35) = Some false /\
  prime 3 (Num.of_Z 13) = Some true /\
  prime 3 (Num.of_Z 9) = Some false.
Proof.
  destruct prime_trial_division as (H1 & H2 & H3 & H4 & H5).
  split; [apply H1; reflexivity|].
  split; [apply H1; reflexivity|].
  split; [apply H2; [discriminate | vm_compute; lia]|].
  split.
  { apply (H3 4%nat 35%Q 5); [discriminate | vm_compute; split; discriminate | reflexivity | | vm_compute; lia].
    intros i Hi. assert (i = 2 \/ i = 3 \/ i = 4) as [-> | [-> | ->]] by lia; reflexivity. }
  split; [apply H4; [lia | cbn; tauto]|].
  apply H5; [lia | cbn; tauto].
Defined.

(** C3, as stated, fails on the positive infinity: it is a number, it is
    not below 2 but at least 2, and [prime] returns neither true nor false
    on it, whatever the budget: the loop condition [i <= Math.sqrt(num)]
    holds for ever and no remainder is zero. *)
Lemma prime_trial_division_counterexample :
  Num.lt PInf (Num.of_Z 2) = false /\
  Num.le (Num.of_Z 2) PInf = true /\
  (forall i : Z, Num.le_sqrt i PInf = true /\
                 Num.strict_eq (Num.rem PInf (Num.of_Z i)) (Num.of_Z 0) = false) /\
  forall fuel : nat, prime fuel PInf = None.
Proof.
  split; [reflexivity|]. split; [reflexivity|]. split; [intros i; split; reflexivity|].
  intros fuel. unfold prime. cbn [Num.lt Num.of_Z]. apply prime_loop_PInf.
Qed.

(** C10, as stated, fails on the positive infinity: it is a number, it is
    not an integer, it is at least 2, and [prime] never returns on it. *)
Lemma prime_fractional_counterexample :
  Num.isInteger PInf = false /\
  Num.le (Num.of_Z 2) PInf = true /\
  ~ (exists fuel : nat, prime fuel PInf = Some true).
Proof.
  split; [reflexivity|]. split; [reflexivity|].
  intros [fuel H]. unfold prime in H. cbn in H.
  rewrite prime_loop_PInf in H. discriminate.
Qed.

(** C10, amended: for every finite input that is not an integer and is at
    least 2, no trial divisor leaves a zero remainder and [prime] returns
    true. *)
Theorem prime_fractional (q : Q) (fuel : nat) :
  Num.isInteger (Fin q) = false ->
  Num.le (Num.of_Z 2) (Fin q) = true ->
  (Z.to_nat (isqrt q) <= fuel)%nat ->
  (forall i : Z, 2 <= i ->
     Num.strict_eq (Num.rem (Fin q) (Num.of_Z i)) (Num.of_Z 0) = false) /\
  prime fuel (Fin q) = Some true.
Proof.
  intros Hfrac Hge Hfuel.
  assert (Hq : (2 <= q)%Q) by (apply Qle_bool_iff; exact Hge).
  split.
  - intros i Hi. rewrite rem_zero_exact_divisor by lia.
    apply fractional_no_divisor; [assumption | lia].
  - rewrite prime_refines_spec by assumption.
    unfold check_prime_spec.
    replace (Qle_bool 2 q) with true by (symmetry; apply Qle_bool_iff; exact Hq).
    rewrite existsb_none; [reflexivity|].
    intros x Hx. apply fractional_no_divisor; [assumption|].
    apply Zrange_In in Hx. lia.
Qed.

(** C10, amended, applied to 25.5: no remainder is zero and [prime] returns
    true within five evaluations of the loop condition. *)
Lemma prime_fractional_witness :
  (forall i : Z, 2 <= i ->
     Num.strict_eq (Num.rem (Fin (51 # 2)) (Num.of_Z i)) (Num.of_Z 0) = false) /\
  prime 5 (Fin (51 # 2)) = Some true.
Proof.
  apply (prime_fractional (51 # 2) 5); [reflexivity | reflexivity | vm_compute; lia].
Defined.

End PrimeClaims.

(* ================================================================== *)
(** * Rounding to binary64 *)
(* ================================================================== *)

Section Rounding.

Local Open Scope Q_scope.

Lemma pow2_pos (e : Z) : 0 < Num.pow2 e.
Proof.
  unfold Num.pow2. destruct (0 <=? e)%Z eqn:He.
  - apply Z.leb_le in He. rewrite <- (Zlt_Qlt 0). apply Z.pow_pos_nonneg; lia.
  - reflexivity.
Qed.

Lemma pow2_shift (e k : Z) :
  (0 <= k)%Z -> Num.pow2 (e + k) == Num.pow2 e * inject_Z (2 ^ k).
Proof.
  intros Hk. unfold Num.pow2.
  destruct (0 <=? e)%Z eqn:He; destruct (0 <=? e + k)%Z eqn:Hek;
    try apply Z.leb_le in He; try apply Z.leb_le in Hek;
    try apply Z.leb_gt in He; try apply Z.leb_gt in Hek; try lia.
  - rewrite (Z.pow_add_r 2 e k) by lia. rewrite inject_Z_mult. reflexivity.
  - unfold Qeq, Qmult. cbn [Qnum Qden inject_Z].
    assert (Hp : (0 < 2 ^ (- e))%Z) by (apply Z.pow_pos_nonneg; lia).
    rewrite Pos.mul_1_r, Z2Pos.id by exact Hp.
    replace (2 ^ k)%Z with (2 ^ (e + k) * 2 ^ (- e))%Z; [lia|].
    rewrite <- Z.pow_add_r by lia. f_equal. lia.
  - unfold Qeq, Qmult. cbn [Qnum Qden inject_Z].
    assert (Hp : (0 < 2 ^ (- e))%Z) by (apply Z.pow_pos_nonneg; lia).
    assert (Hq : (0 < 2 ^ (- (e + k)))%Z) by (apply Z.pow_pos_nonneg; lia).
    rewrite Pos.mul_1_r, !Z2Pos.id by assumption.
    replace (2 ^ (- e))%Z with (2 ^ (- (e + k)) * 2 ^ k)%Z; [lia|].
    rewrite <- Z.pow_add_r by lia. f_equal. lia.
Qed.

Lemma pow2_le (e1 e2 : Z) : (e1 <= e2)%Z -> Num.pow2 e1 <= Num.pow2 e2.
Proof.
  intros H. replace e2 with (e1 + (e2 - e1))%Z by lia.
  rewrite pow2_shift by lia.
  assert (H1 : 1 <= inject_Z (2 ^ (e2 - e1))).
  { rewrite <- (Zle_Qle 1). assert (0 < 2 ^ (e2 - e1))%Z by (apply Z.pow_pos_nonneg; lia). lia. }
  pose proof (pow2_pos e1). nra.
Qed.

Lemma pow2_lt_inv (e1 e2 : Z) : Num.pow2 e1 < Num.pow2 e2 -> (e1 < e2)%Z.
Proof.
  intros H. destruct (Z.lt_ge_cases e1 e2) as [Hlt | Hge]; [exact Hlt|].
  apply pow2_le in Hge. lra.
Qed.

Lemma pow2_nonneg (e : Z) : (0 <= e)%Z -> Num.pow2 e = inject_Z (2 ^ e).
Proof. intros H. unfold Num.pow2. apply Z.leb_le in H. rewrite H. reflexivity. Qed.


(** ** Rounding to an integer *)

Lemma rhe_cases (x : Q) :
  Num.round_half_even x = Qfloor x \/ Num.round_half_even x = (Qfloor x + 1)%Z.
Proof.
  unfold Num.round_half_even.
  destruct (x - inject_Z (Qfloor x) ?= 1 # 2); [destruct (Z.even (Qfloor x))| |]; auto.
Qed.

Lemma floor_bounds (x : Q) :
  inject_Z (Qfloor x) <= x /\ x < inject_Z (Qfloor x) + 1.
Proof.
  split; [apply Qfloor_le|].
  pose proof (Qlt_floor x) as H. rewrite inject_Z_plus in H. exact H.
Qed.

Lemma integer_gap (k f : Z) :
  inject_Z k <= inject_Z f \/ inject_Z f + 1 <= inject_Z k.
Proof.
  destruct (Z.le_gt_cases k f) as [H | H].
  - left. rewrite <- Zle_Qle. exact H.
  - right. change 1 with (inject_Z 1). rewrite <- inject_Z_plus, <- Zle_Qle. lia.
Qed.

(** No integer is nearer to [x] than [round_half_even x]. *)
Lemma rhe_nearest (x : Q) (k : Z) :
  Qabs (inject_Z (Num.round_half_even x) - x) <= Qabs (inject_Z k - x).
Proof.
  destruct (floor_bounds x) as [Hlo Hhi].
  pose proof (integer_gap k (Qfloor x)) as Hk.
  unfold Num.round_half_even.
  destruct (x - inject_Z (Qfloor x) ?= 1 # 2) eqn:Hc.
  - apply Qeq_alt in Hc.
    destruct (Z.even (Qfloor x)); [|rewrite inject_Z_plus; change (inject_Z 1) with 1];
      apply Qabs_case; intros; apply Qabs_case; intros; destruct Hk; lra.
  - apply Qlt_alt in Hc.
    apply Qabs_case; intros; apply Qabs_case; intros; destruct Hk; lra.
  - apply Qgt_alt in Hc. rewrite inject_Z_plus. change (inject_Z 1) with 1.
    apply Qabs_case; intros; apply Qabs_case; intros; destruct Hk; lra.
Qed.

Lemma rhe_nonneg (x : Q) : 0 <= x -> (0 <= Num.round_half_even x)%Z.
Proof.
  intros Hx. destruct (floor_bounds x) as [_ Hhi].
  assert (H0 : (0 <= Qfloor x)%Z).
  { destruct (Z.le_gt_cases 0 (Qfloor x)) as [H | H]; [exact H|].
    exfalso. assert (Hf : inject_Z (Qfloor x) + 1 <= 0).
    { change 1 with (inject_Z 1). rewrite <- inject_Z_plus. rewrite <- (Zle_Qle _ 0). lia. }
    lra. }
  destruct (rhe_cases x) as [-> | ->]; lia.
Qed.

Lemma rhe_below (x : Q) (N : Z) : x < inject_Z N -> (Num.round_half_even x <= N)%Z.
Proof.
  intros Hx. destruct (floor_bounds x) as [Hlo _].
  assert (Hf : (Qfloor x < N)%Z) by (rewrite Zlt_Qlt; lra).
  destruct (rhe_cases x) as [-> | ->]; lia.
Qed.

Lemma rhe_below_half (x : Q) (N : Z) :
  x < inject_Z N - (1 # 2) -> (Num.round_half_even x <= N - 1)%Z.
Proof.
  intros Hx. destruct (floor_bounds x) as [Hlo Hhi].
  assert (Hf : (Qfloor x < N)%Z) by (rewrite Zlt_Qlt; lra).
  unfold Num.round_half_even.
  destruct (x - inject_Z (Qfloor x) ?= 1 # 2) eqn:Hc.
  - apply Qeq_alt in Hc.
    assert (Hf2 : (Qfloor x + 1 < N)%Z).
    { rewrite Zlt_Qlt, inject_Z_plus. change (inject_Z 1) with 1. lra. }
    destruct (Z.even (Qfloor x)); lia.
  - lia.
  - apply Qgt_alt in Hc.
    assert (Hf2 : (Qfloor x + 1 < N)%Z).
    { rewrite Zlt_Qlt, inject_Z_plus. change (inject_Z 1) with 1. lra. }
    lia.
Qed.

(** ** The binary exponent *)

Lemma Qmake_mult_den (n : Z) (d : positive) : (n # d) * inject_Z (Zpos d) == inject_Z n.
Proof. unfold Qeq, Qmult. cbn. lia. Qed.

Lemma floor_log2_spec (a : Q) :
  0 < a ->
  Num.pow2 (Num.floor_log2 a) <= a /\ a < Num.pow2 (Num.floor_log2 a + 1).
Proof.
  intros Ha. destruct a as [n d].
  assert (Hn : (0 < n)%Z) by (unfold Qlt in Ha; cbn in Ha; lia).
  unfold Num.floor_log2. cbn [Qnum Qden].
  set (ln := Z.log2 n). set (ld := Z.log2 (Zpos d)).
  destruct (Z.log2_spec n Hn) as [Hn1 Hn2].
  destruct (Z.log2_spec (Zpos d) eq_refl) as [Hd1 Hd2].
  fold ln in Hn1, Hn2. fold ld in Hd1, Hd2.
  assert (Hln : (0 <= ln)%Z) by apply Z.log2_nonneg.
  assert (Hld : (0 <= ld)%Z) by apply Z.log2_nonneg.
  pose proof (Qmake_mult_den n d) as Had.
  assert (Hdpos : 0 < inject_Z (Zpos d)) by reflexivity.
  rewrite Zle_Qle in Hn1, Hd1. rewrite Zlt_Qlt in Hn2, Hd2.
  assert (Hup : n # d < Num.pow2 (ln - ld + 1)).
  { pose proof (pow2_shift (ln - ld + 1) ld Hld) as Hs.
    replace (ln - ld + 1 + ld)%Z with (Z.succ ln) in Hs by lia.
    rewrite pow2_nonneg in Hs by lia.
    pose proof (pow2_pos (ln - ld + 1)) as Hp.
    assert (H1 : Num.pow2 (ln - ld + 1) * inject_Z (2 ^ ld)
                 <= Num.pow2 (ln - ld + 1) * inject_Z (Zpos d)) by nra.
    nra. }
  assert (Hlow : Num.pow2 (ln - ld - 1) <= n # d).
  { pose proof (pow2_shift (ln - ld - 1) (Z.succ ld) ltac:(lia)) as Hs.
    replace (ln - ld - 1 + Z.succ ld)%Z with ln in Hs by lia.
    rewrite pow2_nonneg in Hs by lia.
    pose proof (pow2_pos (ln - ld - 1)) as Hp.
    assert (H1 : Num.pow2 (ln - ld - 1) * inject_Z (Zpos d)
                 <= Num.pow2 (ln - ld - 1) * inject_Z (2 ^ Z.succ ld)) by nra.
    nra. }
  destruct (Qle_bool (Num.pow2 (ln - ld)) (n # d)) eqn:Hb.
  - apply Qle_bool_iff in Hb. split; assumption.
  - replace (ln - ld - 1 + 1)%Z with (ln - ld)%Z by lia.
    split; [exact Hlow|]. apply Qnot_le_lt. intros H.
    apply Qle_bool_iff in H. rewrite H in Hb. discriminate.
Qed.


(** ** The nearest binary64 value *)

Lemma binary64_opp (x : Q) : binary64 x -> binary64 (- x).
Proof.
  intros (m & e & Hm & He & Hx). exists (- m)%Z, e.
  split; [lia|]. split; [exact He|]. rewrite Hx, inject_Z_opp. ring.
Qed.

Lemma binary64_eq (x y : Q) : x == y -> binary64 x -> binary64 y.
Proof.
  intros Hxy (m & e & Hm & He & Hx). exists m, e.
  split; [exact Hm|]. split; [exact He|]. rewrite <- Hxy. exact Hx.
Qed.

Lemma nearest64_eq (q r r' : Q) : r == r' -> nearest64 q r -> nearest64 q r'.
Proof.
  intros Hr [Hb Hn]. split; [exact (binary64_eq r r' Hr Hb)|].
  intros d Hd. rewrite <- Hr. apply Hn. exact Hd.
Qed.

Lemma nearest64_opp (q r : Q) : nearest64 q r -> nearest64 (- q) (- r).
Proof.
  intros [Hb Hn]. split; [apply binary64_opp; exact Hb|].
  intros d Hd. specialize (Hn (- d) (binary64_opp d Hd)).
  assert (E1 : - r - - q == - (r - q)) by ring.
  assert (E2 : d - - q == - (- d - q)) by ring.
  rewrite E1, E2, !Qabs_opp. exact Hn.
Qed.

Lemma scale_abs (m k : Z) (x u a : Q) :
  0 < u -> x * u == a ->
  Qabs (inject_Z m - x) <= Qabs (inject_Z k - x) ->
  Qabs (inject_Z m * u - a) <= Qabs (inject_Z k * u - a).
Proof.
  intros Hu Hxu H.
  assert (E : forall z, inject_Z z * u - a == (inject_Z z - x) * u)
    by (intros z; rewrite <- Hxu; ring).
  rewrite !E, !Qabs_Qmult, (Qabs_pos u) by lra.
  apply Qmult_le_compat_r; [exact H | lra].
Qed.

Lemma threshold_below : Num.overflow_threshold < Num.pow2 1024.
Proof. vm_compute. reflexivity. Qed.

Lemma threshold_half :
  Num.overflow_threshold == (inject_Z (2 ^ 53) - (1 # 2)) * Num.pow2 971.
Proof. vm_compute. reflexivity. Qed.

(** Rounding a positive value within the range. *)
Lemma round_pos_nearest (a : Q) :
  0 < a -> a < Num.overflow_threshold ->
  nearest64 a (inject_Z (Num.round_half_even
                           (a / Num.pow2 (Z.max (Num.floor_log2 a - 52) (-1074))))
               * Num.pow2 (Z.max (Num.floor_log2 a - 52) (-1074))).
Proof.
  intros Ha Hmax.
  destruct (floor_log2_spec a Ha) as [HE1 HE2].
  set (E := Num.floor_log2 a) in *.
  assert (HE : (E <= 1023)%Z).
  { assert (H : (E < 1024)%Z); [|lia]. apply pow2_lt_inv.
    pose proof threshold_below. lra. }
  set (e := Z.max (E - 52) (-1074)).
  assert (He : (-1074 <= e <= 971)%Z) by (unfold e; lia).
  assert (HEe : (E - 52 <= e)%Z) by (unfold e; lia).
  set (u := Num.pow2 e).
  assert (Hu : 0 < u) by apply pow2_pos.
  set (x := a / u).
  assert (Hxu : x * u == a).
  { unfold x. field. lra. }
  assert (Hx0 : 0 < x) by nra.
  assert (Hx53 : x < inject_Z (2 ^ 53)).
  { pose proof (pow2_shift e 53 ltac:(lia)) as Hs. fold u in Hs.
    pose proof (pow2_le (E + 1) (e + 53) ltac:(lia)) as Hl. nra. }
  set (m := Num.round_half_even x).
  assert (Hm0 : (0 <= m)%Z) by (apply rhe_nonneg; lra).
  assert (Hm53 : (m <= 2 ^ 53)%Z) by (apply rhe_below; exact Hx53).
  assert (Hm971 : e = 971%Z -> (m < 2 ^ 53)%Z).
  { intros H971. assert (H : (m <= 2 ^ 53 - 1)%Z); [|lia].
    apply rhe_below_half.
    pose proof threshold_half as Ht. unfold u in *. rewrite H971 in *. nra. }
  split.
  - destruct (Z.eq_dec m (2 ^ 53)) as [Heq | Hne].
    + exists (2 ^ 52)%Z, (e + 1)%Z. split; [reflexivity|].
      split; [assert (e <> 971%Z) by (intros H; apply Hm971 in H; lia); lia|].
      rewrite Heq. rewrite (pow2_shift e 1) by lia. fold u.
      change (inject_Z (2 ^ 53)) with (inject_Z (2 ^ 52) * 2).
      change (inject_Z (2 ^ 1)) with 2. ring.
    + exists m, e. split; [lia|]. split; [exact He | reflexivity].
  - intros d (m' & e' & Hm' & He' & Hd).
    destruct (Z.le_gt_cases e e') as [Hle | Hgt].
    + (* [d] is a multiple of the unit in the last place *)
      pose proof (pow2_shift e (e' - e) ltac:(lia)) as Hs.
      replace (e + (e' - e))%Z with e' in Hs by lia. fold u in Hs.
      assert (Hdk : d == inject_Z (m' * 2 ^ (e' - e)) * u).
      { rewrite Hd, Hs, inject_Z_mult. ring. }
      rewrite Hdk. apply (scale_abs m _ x u a Hu Hxu). apply rhe_nearest.
    + (* [d] lies below the binade of [a] *)
      assert (HeE : e = (E - 52)%Z) by (unfold e in *; lia).
      pose proof (pow2_shift e 52 ltac:(lia)) as Hs. fold u in Hs.
      replace (e + 52)%Z with E in Hs by lia.
      pose proof (pow2_shift e' 53 ltac:(lia)) as Hs'.
      pose proof (pow2_le (e' + 53) E ltac:(lia)) as Hl.
      pose proof (pow2_pos e') as Hp'.
      assert (Hm'q : inject_Z m' < inject_Z (2 ^ 53)) by (rewrite <- Zlt_Qlt; lia).
      assert (Hdlt : d < Num.pow2 E) by (rewrite Hd; nra).
      pose proof (scale_abs m (2 ^ 52) x u a Hu Hxu (rhe_nearest x (2 ^ 52))) as Hn.
      assert (E52 : inject_Z (2 ^ 52) * u == Num.pow2 E) by (rewrite Hs; ring).
      rewrite E52 in Hn.
      eapply Qle_trans; [exact Hn|].
      apply Qabs_case; intros; apply Qabs_case; intros; lra.
Qed.


Lemma nearest64_of (q q' r : Q) : q == q' -> nearest64 q r -> nearest64 q' r.
Proof.
  intros Hq [Hb Hn]. split; [exact Hb|].
  intros d Hd. rewrite <- Hq. apply Hn. exact Hd.
Qed.

(** [round64] gives a binary64 value, and no binary64 value is nearer. *)
Lemma round64_nearest (q : Q) :
  - Num.overflow_threshold < q -> q < Num.overflow_threshold ->
  nearest64 q (Num.round64 q).
Proof.
  intros Hlo Hhi. destruct q as [[|p|p] d].
  - change (Num.round64 (0 # d)) with 0. split.
    + exists 0%Z, 0%Z. split; [reflexivity|]. split; [lia | reflexivity].
    + intros x _. assert (E : 0 - (0 # d) == 0) by reflexivity.
      rewrite E. apply Qabs_nonneg.
  - change (Num.round64 (Zpos p # d))
      with (Qred (inject_Z (Num.round_half_even
                              ((Zpos p # d) /
                               Num.pow2 (Z.max (Num.floor_log2 (Zpos p # d) - 52) (-1074))))
                  * Num.pow2 (Z.max (Num.floor_log2 (Zpos p # d) - 52) (-1074)))).
    eapply nearest64_eq; [symmetry; apply Qred_correct|].
    apply round_pos_nearest; [reflexivity | exact Hhi].
  - change (Num.round64 (Zneg p # d))
      with (Qred (- Qred (inject_Z (Num.round_half_even
                              ((Zpos p # d) /
                               Num.pow2 (Z.max (Num.floor_log2 (Zpos p # d) - 52) (-1074))))
                  * Num.pow2 (Z.max (Num.floor_log2 (Zpos p # d) - 52) (-1074))))).
    eapply nearest64_eq; [symmetry; apply Qred_correct|].
    change (Zneg p # d) with (- (Zpos p # d)).
    apply nearest64_opp.
    eapply nearest64_eq; [symmetry; apply Qred_correct|].
    apply round_pos_nearest; [reflexivity|].
    change (Zneg p # d) with (- (Zpos p # d)) in Hlo. lra.
Qed.

(** What [of_Q] produces is what the value rounds to. *)
Lemma of_Q_rounds (q : Q) : rounds_to q (Num.of_Q q).
Proof.
  unfold Num.of_Q.
  destruct (Qle_bool Num.overflow_threshold q) eqn:H1.
  { apply Qle_bool_iff in H1. exact H1. }
  destruct (Qle_bool q (- Num.overflow_threshold)) eqn:H2.
  { apply Qle_bool_iff in H2. exact H2. }
  apply round64_nearest; apply Qnot_le_lt; intros H; apply Qle_bool_iff in H; congruence.
Qed.

(** A sum of finite numbers is the exact sum, rounded. *)
Lemma add_rounds (x y : Q) : rounds_to (x + y) (Num.add (Fin x) (Fin y)).
Proof. apply of_Q_rounds. Qed.

(** A binary64 value rounds to itself. *)
Lemma round64_fixes (q : Q) : binary64 q -> Num.round64 q == q.
Proof.
  intros Hb.
  assert (Hrange : - Num.overflow_threshold < q /\ q < Num.overflow_threshold).
  { destruct Hb as (m & e & Hm & He & Hq).
    pose proof (pow2_le e 971 ltac:(lia)) as Hl. pose proof (pow2_pos e) as Hp.
    pose proof threshold_half as Ht.
    assert (H1 : inject_Z m <= inject_Z (2 ^ 53) - 1).
    { change 1 with (inject_Z 1). unfold Qminus. rewrite <- inject_Z_opp, <- inject_Z_plus.
      rewrite <- Zle_Qle. lia. }
    assert (H2 : - (inject_Z (2 ^ 53) - 1) <= inject_Z m).
    { change 1 with (inject_Z 1). unfold Qminus.
      rewrite <- inject_Z_opp, <- inject_Z_plus, <- inject_Z_opp.
      rewrite <- Zle_Qle. lia. }
    assert (H53 : 1 <= inject_Z (2 ^ 53)) by (vm_compute; discriminate).
    rewrite Hq, Ht. split; nra. }
  destruct Hrange as [Hlo Hhi].
  destruct (round64_nearest q Hlo Hhi) as [_ Hn].
  specialize (Hn q Hb).
  assert (E : q - q == 0) by ring. rewrite E in Hn. change (Qabs 0) with 0 in Hn.
  revert Hn. apply Qabs_case; intros; lra.
Qed.

End Rounding.

(** Numbers as the program reads, adds and prints them: [Number] of a
    decimal literal rounds, a sum rounds, and a number prints as the
    shortest decimal that reads back as the same value, in exponent
    notation from [1e21] on and below [1e-6]. *)
Remark number_samples (env : Env) :
  Number_of_string env "4.0000000000000001" = Num.of_Z 4 /\
  Number_of_string env "9007199254740993" = Num.of_Z 9007199254740992 /\
  Number_of_string env "0.1" = Fin (3602879701896397 # 36028797018963968) /\
  Num.add (Num.of_Z 9007199254740992) (Num.of_Z 1) = Num.of_Z 9007199254740992 /\
  Number_toString (Num.add (Number_of_string env "0.1") (Number_of_string env "0.2"))
    = "0.30000000000000004" /\
  Number_toString (Number_of_string env "0.1") = "0.1" /\
  Number_toString (Number_of_string env "1000000000000000000000") = "1e+21" /\
  Number_toString (Number_of_string env "123456789012345678901") = "123456789012345680000" /\
  Number_toString (Number_of_string env "0.0000001") = "1e-7" /\
  Number_toString (Number_of_string env "0.000001") = "0.000001" /\
  Number_toString (Number_of_string env "-12.50") = "-12.5" /\
  Number_toString (Number_of_string env "-0") = "0".
Proof. repeat split; vm_compute; reflexivity. Qed.

(* ================================================================== *)
(** * Facts about the matcher *)
(* ================================================================== *)

Section RegexFacts.

Lemma append_assoc (a b c : string) : (a ++ b) ++ c = a ++ (b ++ c).
Proof. induction a as [|x a IH]; cbn; [reflexivity | rewrite IH; reflexivity]. Qed.

Lemma append_nil_r (a : string) : a ++ "" = a.
Proof. induction a as [|x a IH]; cbn; [reflexivity | rewrite IH; reflexivity]. Qed.

Lemma star_match_complete (p : ascii -> bool) (w suf : string) (caps : captures) (k : cont) :
  all_chars p w = true -> accepts k suf -> star_match p (w ++ suf) caps k <> None.
Proof.
  intros Hw Hk. induction w as [|c w IH]; cbn.
  - destruct suf as [|c s']; cbn; [apply Hk|].
    destruct (p c); [|apply Hk].
    destruct (star_match p s' caps k); [discriminate | apply Hk].
  - cbn in Hw. apply andb_true_iff in Hw as [Hc Hw]. rewrite Hc.
    specialize (IH Hw). destruct (star_match p (w ++ suf) caps k); [discriminate | contradiction].
Qed.

(** Completeness of the backtracking matcher: when a word of the pattern
    stands at the start of the input and the continuation accepts what
    follows it, the matcher succeeds. *)
Lemma rmatch_complete (r : regex) :
  forall (w suf : string) (caps : captures) (k : cont),
    matches r w -> accepts k suf -> rmatch r (w ++ suf) caps k <> None.
Proof.
  induction r as [c | p | r1 IH1 r2 IH2 | r1 IH1 | p | p | n r1 IH1];
    intros w suf caps k Hw Hk; cbn in Hw |- *.
  - subst w. cbn. rewrite Ascii.eqb_refl. apply Hk.
  - destruct Hw as (c & -> & Hc). cbn. rewrite Hc. apply Hk.
  - destruct Hw as (w1 & w2 & -> & H1 & H2). rewrite append_assoc.
    apply IH1; [exact H1|]. intros caps'. apply IH2; assumption.
  - destruct Hw as [-> | Hw].
    + cbn. destruct (rmatch r1 suf caps k); [discriminate | apply Hk].
    + specialize (IH1 w suf caps k Hw Hk).
      destruct (rmatch r1 (w ++ suf) caps k); [discriminate | contradiction].
  - apply star_match_complete; assumption.
  - destruct Hw as [Hne Hw]. destruct w as [|c w]; [contradiction|].
    cbn in Hw |- *. apply andb_true_iff in Hw as [Hc Hw]. rewrite Hc.
    apply star_match_complete; assumption.
  - apply IH1; [exact Hw|]. intros caps'. apply Hk.
Qed.

Lemma search_complete (r : regex) (pre w suf : string) :
  matches r w -> search r (pre ++ w ++ suf) <> None.
Proof.
  intros Hw.
  assert (Hhere : forall s, s = w ++ suf -> search r s <> None).
  { intros s ->.
    pose proof (rmatch_complete r w suf [] (fun _ caps => Some caps) Hw) as H.
    assert (Hk : accepts (fun _ caps => Some caps) suf) by (intros caps; discriminate).
    specialize (H Hk).
    destruct (w ++ suf); cbn;
      (destruct (rmatch r _ [] (fun _ caps => Some caps)); [discriminate | contradiction]). }
  induction pre as [|c pre IH]; cbn [append].
  - apply Hhere. reflexivity.
  - cbn [search].
    destruct (rmatch r (String c (pre ++ w ++ suf)) [] (fun _ caps => Some caps));
      [discriminate | exact IH].
Qed.

Lemma number_token_matches (s : string) : number_token s -> matches re_number s.
Proof.
  intros (sign & ds & frac & -> & Hsign & [Hne Hds] & Hfrac).
  unfold re_number. cbn [matches].
  exists sign, (ds ++ frac). split; [reflexivity|]. split.
  - destruct Hsign as [-> | ->]; [left | right]; reflexivity.
  - exists ds, frac. split; [reflexivity|]. split; [split; assumption|].
    destruct Hfrac as [-> | (fs & -> & Hne' & Hfs)]; [left; reflexivity | right].
    exists ".", fs. repeat split; assumption.
Qed.

Lemma contains_sum_search (text : string) :
  contains_sum text -> search re_sum text <> None.
Proof.
  intros (pre & a & ws1 & ws2 & b & suf & -> & Ha & Hb & H1 & H2).
  replace (pre ++ a ++ ws1 ++ "+" ++ ws2 ++ b ++ suf)
    with (pre ++ (a ++ ws1 ++ "+" ++ ws2 ++ b) ++ suf)
    by (rewrite !append_assoc; reflexivity).
  apply search_complete. unfold re_sum. cbn [matches].
  exists a, (ws1 ++ "+" ++ ws2 ++ b). split; [reflexivity|].
  split; [apply number_token_matches; exact Ha|].
  exists ws1, ("+" ++ ws2 ++ b). split; [reflexivity|]. split; [exact H1|].
  exists "+", (ws2 ++ b). split; [reflexivity|]. split; [reflexivity|].
  exists ws2, b. split; [reflexivity|]. split; [exact H2|].
  apply number_token_matches; exact Hb.
Qed.

End RegexFacts.

(* ================================================================== *)
(** * Soundness of the matcher *)
(* ================================================================== *)

Section RegexSoundness.

Lemma length_append (a b : string) :
  String.length (a ++ b) = (String.length a + String.length b)%nat.
Proof. induction a as [|x a IH]; cbn; [reflexivity | rewrite IH; reflexivity]. Qed.

Lemma substring_prefix (w s : string) : substring 0 (String.length w) (w ++ s) = w.
Proof.
  induction w as [|x w IH]; cbn.
  - destruct s; reflexivity.
  - rewrite IH. reflexivity.
Qed.

Lemma consumed_append (w s : string) : consumed (w ++ s) s = w.
Proof.
  unfold consumed. rewrite length_append.
  replace (String.length w + String.length s - String.length s)%nat
    with (String.length w) by lia.
  apply substring_prefix.
Qed.

Lemma star_match_sound (p : ascii -> bool) (s : string) (caps : captures) (k : cont)
    (res : captures) :
  star_match p s caps k = Some res ->
  exists w s', s = w ++ s' /\ all_chars p w = true /\ k s' caps = Some res.
Proof.
  induction s as [|c s IH]; cbn; intros H.
  - exists "", "". repeat split. exact H.
  - destruct (p c) eqn:Hc.
    + destruct (star_match p s caps k) as [r|] eqn:Hs.
      * inversion H; subst r. destruct (IH eq_refl) as (w & s' & -> & Hw & Hk).
        exists (String c w), s'. cbn. rewrite Hc, Hw. repeat split. exact Hk.
      * exists "", (String c s). repeat split. exact H.
    + exists "", (String c s). repeat split. exact H.
Qed.

(** Whenever the matcher succeeds, it has split the input into a word of
    the pattern and a rest that the continuation accepted, and the captures
    handed on are those of that word. *)
Lemma rmatch_sound (r : regex) :
  forall (s : string) (caps : captures) (k : cont) (res : captures),
    rmatch r s caps k = Some res ->
    exists w s' caps',
      s = w ++ s' /\ matches_with r w caps caps' /\ k s' caps' = Some res.
Proof.
  induction r as [c | p | r1 IH1 r2 IH2 | r1 IH1 | p | p | n r1 IH1];
    intros s caps k res H; cbn in H.
  - destruct s as [|c' s]; [discriminate|].
    destruct (Ascii.eqb c c') eqn:Hc; [|discriminate].
    apply Ascii.eqb_eq in Hc. subst c'.
    exists (String c ""), s, caps. cbn. repeat split. exact H.
  - destruct s as [|c' s]; [discriminate|].
    destruct (p c') eqn:Hc; [|discriminate].
    exists (String c' ""), s, caps. cbn. repeat split; [|exact H].
    exists c'. split; [reflexivity | exact Hc].
  - apply IH1 in H. destruct H as (w1 & s1 & mid & -> & H1 & H).
    apply IH2 in H. destruct H as (w2 & s2 & caps' & -> & H2 & H).
    exists (w1 ++ w2), s2, caps'. split; [symmetry; apply append_assoc|].
    split; [|exact H]. cbn. exists w1, w2, mid. repeat split; assumption.
  - destruct (rmatch r1 s caps k) as [r|] eqn:Hr.
    + inversion H; subst r. apply IH1 in Hr. destruct Hr as (w & s' & caps' & -> & Hw & Hk).
      exists w, s', caps'. split; [reflexivity|]. split; [right; exact Hw | exact Hk].
    + exists "", s, caps. split; [reflexivity|]. split; [left; split; reflexivity | exact H].
  - apply star_match_sound in H. destruct H as (w & s' & -> & Hw & Hk).
    exists w, s', caps. repeat split; assumption.
  - destruct s as [|c' s]; [discriminate|].
    destruct (p c') eqn:Hc; [|discriminate].
    apply star_match_sound in H. destruct H as (w & s' & -> & Hw & Hk).
    exists (String c' w), s', caps. cbn. rewrite Hc, Hw.
    repeat split; [discriminate | exact Hk].
  - apply IH1 in H. destruct H as (w & s' & mid & -> & Hw & Hk).
    rewrite consumed_append in Hk.
    exists w, s', ((n, w) :: mid). split; [reflexivity|]. split; [|exact Hk].
    exists mid. split; [exact Hw | reflexivity].
Qed.

Lemma search_sound (r : regex) (s : string) (m : captures) :
  search r s = Some m ->
  exists pre w suf, s = pre ++ w ++ suf /\ matches_with r w [] m.
Proof.
  induction s as [|c s IH]; cbn [search]; intros H.
  - destruct (rmatch r "" [] (fun _ caps => Some caps)) as [res|] eqn:Hr; [|discriminate].
    inversion H; subst res. apply rmatch_sound in Hr.
    destruct Hr as (w & s' & caps' & Hs & Hw & Hk). inversion Hk; subst caps'.
    exists "", w, s'. split; [exact Hs | exact Hw].
  - destruct (rmatch r (String c s) [] (fun _ caps => Some caps)) as [res|] eqn:Hr.
    + inversion H; subst res. apply rmatch_sound in Hr.
      destruct Hr as (w & s' & caps' & Hs & Hw & Hk). inversion Hk; subst caps'.
      exists "", w, s'. split; [exact Hs | exact Hw].
    + destruct (IH H) as (pre & w & suf & -> & Hw).
      exists (String c pre), w, suf. split; [reflexivity | exact Hw].
Qed.

(** The pattern of a number captures nothing and matches number tokens
    only. *)
Lemma re_number_token (w : string) (caps caps' : captures) :
  matches_with re_number w caps caps' -> number_token w /\ caps' = caps.
Proof.
  unfold re_number. cbn [matches_with].
  intros (sign & w2 & mid & -> & Hsign & ds & frac & mid2 & -> & [Hds ->] & Hfrac).
  assert (Hs : (sign = "" \/ sign = "-") /\ mid = caps).
  { destruct Hsign as [[-> ->] | [-> ->]]; split; auto. }
  destruct Hs as [Hs ->].
  assert (Hf : (frac = "" \/ exists fs, frac = "." ++ fs /\ digits fs) /\ caps' = caps).
  { destruct Hfrac as [[-> ->] | (dot & fs & mid3 & -> & [-> ->] & [Hfs ->])];
      split; auto. right. exists fs. split; [reflexivity | exact Hfs]. }
  destruct Hf as [Hf ->].
  split; [|reflexivity]. exists sign, ds, frac. repeat split; try assumption; apply Hds.
Qed.

(** A successful search for the sum pattern has found two number tokens
    around a [+] in the text and captured them. *)
Lemma search_re_sum_sound (text : string) (m : captures) :
  search re_sum text = Some m ->
  exists pre a ws1 ws2 b suf,
    text = pre ++ a ++ ws1 ++ "+" ++ ws2 ++ b ++ suf /\
    number_token a /\ number_token b /\
    all_chars is_space ws1 = true /\ all_chars is_space ws2 = true /\
    capture 1 m = a /\ capture 2 m = b.
Proof.
  intros H. apply search_sound in H. destruct H as (pre & w & suf & -> & Hw).
  unfold re_sum in Hw. cbn [matches_with] in Hw.
  destruct Hw as (a & w2 & mid1 & -> & (mid0 & Ha & ->) &
                  ws1 & w3 & mid2 & -> & [Hws1 ->] &
                  plus & w4 & mid3 & -> & [-> ->] &
                  ws2 & b & mid4 & -> & [Hws2 ->] & mid5 & Hb & ->).
  apply re_number_token in Ha. destruct Ha as [Ha ->].
  apply re_number_token in Hb. destruct Hb as [Hb ->].
  exists pre, a, ws1, ws2, b, suf.
  split; [rewrite !append_assoc; reflexivity|].
  repeat split; assumption.
Qed.

Lemma digits_value_digits (s : string) :
  all_chars is_digit s = true -> forall acc, exists n, digits_value acc s = Some n.
Proof.
  induction s as [|c s IH]; cbn; intros H acc; [eexists; reflexivity|].
  apply andb_true_iff in H as [Hc Hs]. rewrite Hc. apply IH. exact Hs.
Qed.

Lemma digit_not_dot (c : ascii) : is_digit c = true -> Ascii.eqb c "." = false.
Proof.
  intros H. destruct (Ascii.eqb c ".") eqn:E; [|reflexivity].
  apply Ascii.eqb_eq in E. subst c. discriminate.
Qed.

Lemma split_dot_digits (ds rest : string) :
  all_chars is_digit ds = true ->
  split_dot (ds ++ rest) = (ds ++ fst (split_dot rest), snd (split_dot rest)).
Proof.
  induction ds as [|c ds IH]; cbn; intros H.
  - destruct (split_dot rest); reflexivity.
  - apply andb_true_iff in H as [Hc Hs]. rewrite (digit_not_dot c Hc), (IH Hs). reflexivity.
Qed.

Lemma unsigned_decimal_token (ds frac : string) :
  digits ds -> (frac = "" \/ exists fs, frac = "." ++ fs /\ digits fs) ->
  exists q, unsigned_decimal (ds ++ frac) = Some q.
Proof.
  intros [Hne Hds] Hfrac. unfold unsigned_decimal.
  rewrite split_dot_digits by exact Hds.
  destruct (digits_value_digits ds Hds 0) as [n Hn].
  destruct Hfrac as [-> | (fs & -> & Hnef & Hfs)].
  - change (split_dot "") with ("", @None string). cbn [fst snd].
    rewrite append_nil_r. destruct ds as [|c ds]; [contradiction|].
    rewrite Hn. eexists; reflexivity.
  - change (split_dot ("." ++ fs)) with ("", Some fs). cbn [fst snd].
    rewrite append_nil_r. destruct ds as [|c ds]; [contradiction|].
    rewrite Hn. destruct fs as [|d fs]; [contradiction|].
    destruct (digits_value_digits (String d fs) Hfs 0) as [k Hk]. rewrite Hk.
    eexists; reflexivity.
Qed.

(** [Number] of a number token is decided by the text of the token alone:
    the engine's conversion of other strings is not consulted. *)
Lemma decimal_literal_token (s : string) :
  number_token s -> exists q, decimal_literal s = Some q.
Proof.
  intros (sign & ds & frac & -> & Hsign & Hds & Hfrac).
  destruct (unsigned_decimal_token ds frac Hds Hfrac) as [q Hq].
  destruct Hsign as [-> | ->]; cbn [append].
  - unfold decimal_literal. rewrite Hq.
    destruct Hds as [Hne Hall]. destruct ds as [|c ds]; [contradiction|].
    cbn [append]. cbn in Hall. apply andb_true_iff in Hall as [Hc _].
    destruct c as [[] [] [] [] [] [] [] []]; try discriminate Hc;
      try (exists q; reflexivity).
  - unfold decimal_literal. rewrite Hq. eexists; reflexivity.
Qed.

End RegexSoundness.


(* ================================================================== *)
(** * The first match of a pattern *)
(* ================================================================== *)

Section FirstMatch.

(** [search] answers at the first place where the matcher succeeds. *)
Lemma search_first (r : regex) (s : string) (m : captures) :
  search r s = Some m ->
  exists pre rest,
    s = pre ++ rest /\
    rmatch r rest [] (fun _ caps => Some caps) = Some m /\
    forall pre' rest',
      s = pre' ++ rest' -> (String.length pre' < String.length pre)%nat ->
      rmatch r rest' [] (fun _ caps => Some caps) = None.
Proof.
  induction s as [|c s IH]; cbn [search]; intros H.
  - destruct (rmatch r "" [] (fun _ caps => Some caps)) as [res|] eqn:Hr; [|discriminate].
    inversion H; subst res. exists "", "". split; [reflexivity|]. split; [exact Hr|].
    intros pre' rest' _ Hlen. cbn in Hlen. lia.
  - destruct (rmatch r (String c s) [] (fun _ caps => Some caps)) as [res|] eqn:Hr.
    + inversion H; subst res. exists "", (String c s).
      split; [reflexivity|]. split; [exact Hr|].
      intros pre' rest' _ Hlen. cbn in Hlen. lia.
    + destruct (IH H) as (pre & rest & -> & Hm & Hleft).
      exists (String c pre), rest. split; [reflexivity|]. split; [exact Hm|].
      intros pre' rest' Heq Hlen. destruct pre' as [|c' pre'].
      * cbn in Heq. subst rest'. exact Hr.
      * cbn in Heq. injection Heq as Hc' Hs'.
        apply (Hleft pre' rest' Hs'). cbn in Hlen. lia.
Qed.

Lemma starts_with_sum_rmatch (s : string) :
  starts_with_sum s -> rmatch re_sum s [] (fun _ caps => Some caps) <> None.
Proof.
  intros (a & ws1 & ws2 & b & suf & -> & Ha & Hb & H1 & H2).
  replace (a ++ ws1 ++ "+" ++ ws2 ++ b ++ suf)
    with ((a ++ ws1 ++ "+" ++ ws2 ++ b) ++ suf)
    by (rewrite !append_assoc; reflexivity).
  apply rmatch_complete; [|intros caps; discriminate].
  unfold re_sum. cbn [matches].
  exists a, (ws1 ++ "+" ++ ws2 ++ b). split; [reflexivity|].
  split; [apply number_token_matches; exact Ha|].
  exists ws1, ("+" ++ ws2 ++ b). split; [reflexivity|]. split; [exact H1|].
  exists "+", (ws2 ++ b). split; [reflexivity|]. split; [reflexivity|].
  exists ws2, b. split; [reflexivity|]. split; [exact H2|].
  apply number_token_matches; exact Hb.
Qed.

Lemma starts_with_number_rmatch (s : string) :
  starts_with_number s -> rmatch re_prime s [] (fun _ caps => Some caps) <> None.
Proof.
  intros (a & suf & -> & Ha).
  apply rmatch_complete; [|intros caps; discriminate].
  unfold re_prime. cbn [matches]. apply number_token_matches. exact Ha.
Qed.

(** ** Runs of a character class *)

Lemma all_chars_app (p : ascii -> bool) (a b : string) :
  all_chars p (a ++ b) = all_chars p a && all_chars p b.
Proof.
  induction a as [|c a IH]; cbn; [reflexivity|]. rewrite IH. apply andb_assoc.
Qed.

(** In front of a continuation that accepts what follows the longest run,
    the greedy iteration takes the longest run. *)
Lemma star_match_greedy (p : ascii -> bool) (w s' : string) (caps : captures) (k : cont) :
  all_chars p w = true -> not_starts p s' -> k s' caps <> None ->
  star_match p (w ++ s') caps k = k s' caps.
Proof.
  intros Hw Hs' Hk. induction w as [|c w IH]; cbn.
  - destruct s' as [|c s']; cbn; [reflexivity|]. cbn in Hs'. rewrite Hs'. reflexivity.
  - cbn in Hw. apply andb_true_iff in Hw as [Hc Hw]. rewrite Hc, (IH Hw).
    destruct (k s' caps) eqn:Hks; [reflexivity | contradiction].
Qed.

Lemma max_run (p : ascii -> bool) (s : string) :
  exists w s', s = w ++ s' /\ all_chars p w = true /\ not_starts p s'.
Proof.
  induction s as [|c s IH].
  - exists "", "". repeat split.
  - destruct (p c) eqn:Hc.
    + destruct IH as (w & s' & -> & Hw & Hs').
      exists (String c w), s'. cbn. rewrite Hc, Hw. repeat split. exact Hs'.
    + exists "", (String c s). repeat split. exact Hc.
Qed.

(** A run that cannot be continued holds every run at the same place. *)
Lemma run_prefix (p : ascii -> bool) (w1 r1 w2 r2 : string) :
  w1 ++ r1 = w2 ++ r2 ->
  all_chars p w1 = true -> all_chars p w2 = true -> not_starts p r1 ->
  exists t, w1 = w2 ++ t /\ r2 = t ++ r1.
Proof.
  revert w1. induction w2 as [|c w2 IH]; intros w1 Heq H1 H2 Hr1.
  - exists w1. split; [reflexivity|]. cbn in Heq. symmetry. exact Heq.
  - cbn in H2. apply andb_true_iff in H2 as [Hc H2].
    destruct w1 as [|c1 w1].
    + cbn in Heq. subst r1. cbn in Hr1. rewrite Hc in Hr1. discriminate.
    + cbn in Heq. injection Heq as Hc1 Hw. subst c1.
      cbn in H1. apply andb_true_iff in H1 as [_ H1].
      destruct (IH w1 Hw H1 H2 Hr1) as (t & -> & ->).
      exists t. split; reflexivity.
Qed.

Lemma run_unique (p : ascii -> bool) (w1 r1 w2 r2 : string) :
  w1 ++ r1 = w2 ++ r2 ->
  all_chars p w1 = true -> all_chars p w2 = true ->
  not_starts p r1 -> not_starts p r2 ->
  w1 = w2 /\ r1 = r2.
Proof.
  intros Heq H1 H2 Hr1 Hr2.
  destruct (run_prefix p w1 r1 w2 r2 Heq H1 H2 Hr1) as (t & -> & ->).
  destruct t as [|c t].
  - rewrite append_nil_r. split; reflexivity.
  - exfalso. rewrite all_chars_app in H1. apply andb_true_iff in H1 as [_ Ht].
    cbn in Ht. apply andb_true_iff in Ht as [Hc _].
    cbn in Hr2. rewrite Hc in Hr2. discriminate.
Qed.

(** ** Number tokens *)

Lemma token_first_char (a : string) :
  number_token a ->
  exists c r, a = String c r /\ (c = "-"%char \/ is_digit c = true).
Proof.
  intros (sign & ds & frac & -> & Hsign & [Hne Hds] & _).
  destruct Hsign as [-> | ->].
  - destruct ds as [|c ds]; [contradiction|].
    cbn in Hds. apply andb_true_iff in Hds as [Hc _].
    exists c, (ds ++ frac). split; [reflexivity | right; exact Hc].
  - exists "-"%char, (ds ++ frac). split; [reflexivity | left; reflexivity].
Qed.

Lemma space_not_digit (c : ascii) : is_space c = true -> is_digit c = false.
Proof.
  destruct c as [[] [] [] [] [] [] [] []]; intros H; try reflexivity; discriminate H.
Qed.

Lemma token_not_space (a r : string) :
  number_token a -> not_starts is_space (a ++ r).
Proof.
  intros Ha. destruct (token_first_char a Ha) as (c & a' & -> & [-> | Hc]); cbn.
  - reflexivity.
  - destruct (is_space c) eqn:Hs; [|reflexivity].
    rewrite (space_not_digit c Hs) in Hc. discriminate.
Qed.

(** Two numbers at the same place carry the same sign. *)
Lemma token_sign (sign1 ds1 x1 sign2 ds2 x2 : string) :
  sign1 ++ ds1 ++ x1 = sign2 ++ ds2 ++ x2 ->
  (sign1 = "" \/ sign1 = "-") -> (sign2 = "" \/ sign2 = "-") ->
  digits ds1 -> digits ds2 ->
  sign1 = sign2 /\ ds1 ++ x1 = ds2 ++ x2.
Proof.
  intros Heq H1 H2 [Hne1 Hd1] [Hne2 Hd2].
  destruct ds1 as [|c1 ds1]; [contradiction|].
  destruct ds2 as [|c2 ds2]; [contradiction|].
  cbn in Hd1, Hd2.
  apply andb_true_iff in Hd1 as [Hc1 _]. apply andb_true_iff in Hd2 as [Hc2 _].
  destruct H1 as [-> | ->]; destruct H2 as [-> | ->]; cbn in Heq.
  - split; [reflexivity | exact Heq].
  - inversion Heq. subst c1. discriminate Hc1.
  - inversion Heq. subst c2. discriminate Hc2.
  - injection Heq as Hc Hr. subst c2. split; [reflexivity|]. cbn. rewrite Hr. reflexivity.
Qed.

(** ** The matcher on the pattern of a number *)

(** The optional fraction in front of a continuation that accepts
    everything: the fraction is taken whenever one stands there, with all
    its digits. *)
Lemma fraction_greedy (s : string) (caps : captures) (k : cont) :
  (forall s' caps', k s' caps' <> None) ->
  exists frac s',
    s = frac ++ s' /\
    (frac = "" \/ exists fs, frac = "." ++ fs /\ digits fs) /\
    rmatch (Opt (Cat (Lit ".") (Plus is_digit))) s caps k = k s' caps /\
    (frac = "" -> forall c r, s' = String "." (String c r) -> is_digit c = false) /\
    (frac <> "" -> not_starts is_digit s').
Proof.
  intros Hk.
  assert (Hnone : rmatch (Cat (Lit ".") (Plus is_digit)) s caps k = None ->
                  (forall c r, s = String "." (String c r) -> is_digit c = false) ->
                  exists frac s',
                    s = frac ++ s' /\
                    (frac = "" \/ exists fs, frac = "." ++ fs /\ digits fs) /\
                    rmatch (Opt (Cat (Lit ".") (Plus is_digit))) s caps k = k s' caps /\
                    (frac = "" -> forall c r, s' = String "." (String c r) -> is_digit c = false) /\
                    (frac <> "" -> not_starts is_digit s')).
  { intros Hn Hdot. exists "", s. split; [reflexivity|]. split; [left; reflexivity|].
    split; [cbn [rmatch] in *; rewrite Hn; reflexivity|].
    split; [intros _; exact Hdot | intros H; contradiction]. }
  destruct s as [|c0 s1]; [apply Hnone; [reflexivity | intros c r H; discriminate]|].
  destruct (Ascii.eqb "." c0) eqn:Hc0.
  - apply Ascii.eqb_eq in Hc0. subst c0.
    destruct s1 as [|c1 s2].
    { apply Hnone; [reflexivity | intros c r H; discriminate]. }
    destruct (is_digit c1) eqn:Hc1.
    + destruct (max_run is_digit s2) as (w & s' & -> & Hw & Hs').
      exists ("." ++ String c1 w), s'. split; [reflexivity|].
      split; [right; exists (String c1 w); split; [reflexivity|];
              split; [discriminate | cbn; rewrite Hc1, Hw; reflexivity]|].
      split.
      * cbn [rmatch]. cbn [Ascii.eqb Bool.eqb]. rewrite Hc1.
        rewrite (star_match_greedy is_digit w s' caps k Hw Hs' (Hk s' caps)).
        destruct (k s' caps) eqn:Hks; [reflexivity|]. exfalso. exact (Hk s' caps Hks).
      * split; [intros H; discriminate | intros _; exact Hs'].
    + apply Hnone.
      * cbn [rmatch]. cbn [Ascii.eqb Bool.eqb]. rewrite Hc1. reflexivity.
      * intros c r H. inversion H. subst c. exact Hc1.
  - apply Hnone.
    + cbn [rmatch]. rewrite Hc0. reflexivity.
    + intros c r H. inversion H. subst c0. cbn in Hc0. discriminate.
Qed.

(** One or more digits in front of a continuation that accepts
    everything: all the digits that stand there are taken. *)
Lemma digits_greedy (s : string) (caps : captures) (k : cont) (res : captures) :
  (forall s' caps', k s' caps' <> None) ->
  rmatch (Plus is_digit) s caps k = Some res ->
  exists ds s', s = ds ++ s' /\ digits ds /\ not_starts is_digit s' /\ k s' caps = Some res.
Proof.
  intros Hk H. cbn [rmatch] in H.
  destruct s as [|c s1]; [discriminate|].
  destruct (is_digit c) eqn:Hc; [|discriminate].
  destruct (max_run is_digit s1) as (w & s' & -> & Hw & Hs').
  rewrite (star_match_greedy is_digit w s' caps k Hw Hs' (Hk s' caps)) in H.
  exists (String c w), s'. split; [reflexivity|].
  split; [split; [discriminate | cbn; rewrite Hc, Hw; reflexivity]|].
  split; assumption.
Qed.

(** The longest number at a place, from its parts. *)
Lemma greedy_is_longest (sign ds frac s' : string) :
  (sign = "" \/ sign = "-") -> digits ds ->
  (frac = "" \/ exists fs, frac = "." ++ fs /\ digits fs) ->
  not_starts is_digit (frac ++ s') ->
  (frac = "" -> forall c r, s' = String "." (String c r) -> is_digit c = false) ->
  (frac <> "" -> not_starts is_digit s') ->
  longest_number (sign ++ ds ++ frac) s'.
Proof.
  intros Hsign Hds Hfrac Hmax Hnofrac Hfmax b' suf' Heq Hb'.
  destruct Hb' as (sign2 & ds2 & frac2 & -> & Hsign2 & Hds2 & Hfrac2).
  rewrite !append_assoc in Heq.
  destruct (token_sign sign ds (frac ++ s') sign2 ds2 (frac2 ++ suf') Heq
              Hsign Hsign2 Hds Hds2) as [<- Hrest].
  destruct (run_prefix is_digit ds (frac ++ s') ds2 (frac2 ++ suf') Hrest
              (proj2 Hds) (proj2 Hds2) Hmax) as (t & -> & Ht).
  rewrite !length_append.
  destruct t as [|c t].
  - cbn [append] in Ht. rewrite append_nil_r in *.
    destruct Hfrac2 as [-> | (fs2 & -> & Hne2 & Hfs2)]; [cbn; lia|].
    destruct Hfrac as [-> | (fs & -> & Hne & Hfs)].
    + exfalso. destruct fs2 as [|c2 fs2]; [contradiction|].
      cbn in Hfs2. apply andb_true_iff in Hfs2 as [Hc2 _].
      cbn in Ht. rewrite (Hnofrac eq_refl c2 (fs2 ++ suf')) in Hc2; [discriminate|].
      symmetry. exact Ht.
    + cbn in Ht. inversion Ht as [Hfs'].
      assert (Hs' : not_starts is_digit s') by (apply Hfmax; discriminate).
      destruct (run_prefix is_digit fs s' fs2 suf' (eq_sym Hfs') Hfs Hfs2 Hs')
        as (t2 & -> & _).
      cbn. rewrite !length_append. lia.
  - assert (Hc : is_digit c = true).
    { destruct Hds as [_ Hall]. rewrite all_chars_app in Hall.
      apply andb_true_iff in Hall as [_ Hall]. cbn in Hall.
      apply andb_true_iff in Hall as [Hc _]. exact Hc. }
    destruct Hfrac2 as [-> | (fs2 & -> & _)]; [cbn; lia|].
    cbn in Ht. inversion Ht. subst c. discriminate Hc.
Qed.

(** The pattern of a number in front of a continuation that accepts
    everything takes the longest number that stands there. *)
Lemma rmatch_last_number (s : string) (caps : captures) (k : cont) (res : captures) :
  (forall s' caps', k s' caps' <> None) ->
  rmatch re_number s caps k = Some res ->
  exists b suf,
    s = b ++ suf /\ number_token b /\ k suf caps = Some res /\ longest_number b suf.
Proof.
  intros Hk H.
  change (rmatch re_number s caps k)
    with (rmatch (Opt (Lit "-")) s caps
            (fun s1 caps1 =>
               rmatch (Plus is_digit) s1 caps1
                 (fun s2 caps2 =>
                    rmatch (Opt (Cat (Lit ".") (Plus is_digit))) s2 caps2 k))) in H.
  apply rmatch_sound in H. destruct H as (sign & s1 & caps1 & -> & Hsign & H).
  assert (Hs : (sign = "" \/ sign = "-") /\ caps1 = caps).
  { cbn [matches_with] in Hsign. destruct Hsign as [[-> ->] | [-> ->]]; split; auto. }
  destruct Hs as [Hs ->].
  assert (Hk2 : forall s' caps',
             rmatch (Opt (Cat (Lit ".") (Plus is_digit))) s' caps' k <> None).
  { intros s' caps'. destruct (fraction_greedy s' caps' k Hk) as (f & r & _ & _ & -> & _).
    apply Hk. }
  apply (digits_greedy s1 caps _ res Hk2) in H.
  destruct H as (ds & s2 & -> & Hds & Hs2 & H).
  destruct (fraction_greedy s2 caps k Hk) as (frac & s' & -> & Hfrac & Hrun & Hnofrac & Hfmax).
  rewrite Hrun in H.
  exists (sign ++ ds ++ frac), s'.
  split; [rewrite !append_assoc; reflexivity|].
  split; [exists sign, ds, frac; repeat split; try assumption; apply Hds|].
  split; [exact H|].
  apply greedy_is_longest; assumption.
Qed.

(** ** The two number patterns of the program *)

(** A successful match of the sum pattern at the start of a text: the two
    captures are numbers around a [+], and the second is the longest
    number at its place. *)
Lemma rmatch_re_sum_exact (s : string) (m : captures) :
  rmatch re_sum s [] (fun _ caps => Some caps) = Some m ->
  exists a ws1 ws2 b suf,
    s = a ++ ws1 ++ "+" ++ ws2 ++ b ++ suf /\
    number_token a /\ number_token b /\
    all_chars is_space ws1 = true /\ all_chars is_space ws2 = true /\
    capture 1 m = a /\ capture 2 m = b /\
    longest_number b suf.
Proof.
  intros H.
  change (rmatch re_sum s [] (fun _ caps => Some caps))
    with (rmatch (Group 1 re_number) s []
            (fun s1 c1 =>
               star_match is_space s1 c1
                 (fun s2 c2 =>
                    rmatch (Lit "+") s2 c2
                      (fun s3 c3 =>
                         star_match is_space s3 c3
                           (fun s4 c4 =>
                              rmatch re_number s4 c4
                                (fun s5 c5 => Some ((2%nat, consumed s4 s5) :: c5))))))) in H.
  apply rmatch_sound in H. destruct H as (a & s1 & caps1 & -> & Ha & H).
  cbn [matches_with] in Ha. destruct Ha as (mid & Ha & ->).
  apply re_number_token in Ha. destruct Ha as [Ha ->].
  apply star_match_sound in H. destruct H as (ws1 & s2 & -> & Hws1 & H).
  apply rmatch_sound in H. destruct H as (plus & s3 & caps3 & -> & Hplus & H).
  cbn [matches_with] in Hplus. destruct Hplus as [-> ->].
  apply star_match_sound in H. destruct H as (ws2 & s4 & -> & Hws2 & H).
  apply rmatch_last_number in H; [|intros s' caps'; discriminate].
  destruct H as (b & suf & -> & Hb & H & Hlong).
  rewrite consumed_append in H. inversion H; subst m.
  exists a, ws1, ws2, b, suf.
  split; [reflexivity|]. repeat split; assumption.
Qed.

(** What [text.match] finds for the sum pattern: the first sum expression
    of the text, with the longest second number. *)
Lemma search_re_sum_exact (text : string) (m : captures) :
  search re_sum text = Some m ->
  exists pre a ws1 ws2 b suf,
    text = pre ++ a ++ ws1 ++ "+" ++ ws2 ++ b ++ suf /\
    number_token a /\ number_token b /\
    all_chars is_space ws1 = true /\ all_chars is_space ws2 = true /\
    capture 1 m = a /\ capture 2 m = b /\
    first_place starts_with_sum text pre /\
    longest_number b suf.
Proof.
  intros H. apply search_first in H. destruct H as (pre & rest & -> & Hm & Hleft).
  destruct (rmatch_re_sum_exact rest m Hm)
    as (a & ws1 & ws2 & b & suf & -> & Ha & Hb & H1 & H2 & Hc1 & Hc2 & Hlong).
  exists pre, a, ws1, ws2, b, suf. split; [reflexivity|].
  repeat (split; [assumption|]). split; [|exact Hlong].
  intros pre' rest' Heq Hlen Hsum.
  apply (starts_with_sum_rmatch rest' Hsum). apply (Hleft pre' rest' Heq Hlen).
Qed.

(** What [text.match] finds for the pattern of a number: the first number
    of the text, as long as it can be. *)
Lemma search_re_prime_exact (text : string) (m : captures) :
  search re_prime text = Some m ->
  exists pre a suf,
    text = pre ++ a ++ suf /\ number_token a /\ capture 1 m = a /\
    first_place starts_with_number text pre /\
    longest_number a suf.
Proof.
  intros H. apply search_first in H. destruct H as (pre & rest & -> & Hm & Hleft).
  change (rmatch re_prime rest [] (fun _ caps => Some caps))
    with (rmatch re_number rest []
            (fun s5 c5 => Some ((1%nat, consumed rest s5) :: c5))) in Hm.
  apply rmatch_last_number in Hm; [|intros s' caps'; discriminate].
  destruct Hm as (a & suf & -> & Ha & Hm & Hlong).
  rewrite consumed_append in Hm. inversion Hm; subst m.
  exists pre, a, suf. split; [reflexivity|]. split; [exact Ha|]. split; [reflexivity|].
  split; [|exact Hlong].
  intros pre' rest' Heq Hlen Hnum.
  apply (starts_with_number_rmatch rest' Hnum). apply (Hleft pre' rest' Heq Hlen).
Qed.

(** ** A sum expression is read in one way *)

(** What follows the first number of a sum expression starts with white
    space or [+]: neither a digit nor a dot. *)
Lemma after_first_number (ws rest : string) :
  all_chars is_space ws = true ->
  exists c r, ws ++ "+" ++ rest = String c r /\ is_digit c = false /\ c <> "."%char.
Proof.
  intros Hws. destruct ws as [|c ws].
  - exists "+"%char, rest. repeat split. discriminate.
  - cbn in Hws. apply andb_true_iff in Hws as [Hc _].
    exists c, (ws ++ "+" ++ rest). split; [reflexivity|].
    split; [apply space_not_digit; exact Hc|].
    intros ->. discriminate Hc.
Qed.

(** A number followed by neither a digit nor a dot is the only number at
    its place that is so followed. *)
Lemma token_forced (a1 r1 a2 r2 : string) :
  a1 ++ r1 = a2 ++ r2 ->
  number_token a1 -> number_token a2 ->
  (exists c r, r1 = String c r /\ is_digit c = false /\ c <> "."%char) ->
  (exists c r, r2 = String c r /\ is_digit c = false /\ c <> "."%char) ->
  a1 = a2 /\ r1 = r2.
Proof.
  intros Heq (sign1 & ds1 & frac1 & -> & Hsign1 & Hds1 & Hfrac1)
         (sign2 & ds2 & frac2 & -> & Hsign2 & Hds2 & Hfrac2)
         (c1 & t1 & -> & Hc1 & Hdot1) (c2 & t2 & -> & Hc2 & Hdot2).
  rewrite !append_assoc in Heq.
  destruct (token_sign _ _ _ _ _ _ Heq Hsign1 Hsign2 Hds1 Hds2) as [<- Hrest].
  assert (Hn1 : not_starts is_digit (frac1 ++ String c1 t1)).
  { destruct Hfrac1 as [-> | (fs & -> & _)]; [exact Hc1 | reflexivity]. }
  assert (Hn2 : not_starts is_digit (frac2 ++ String c2 t2)).
  { destruct Hfrac2 as [-> | (fs & -> & _)]; [exact Hc2 | reflexivity]. }
  destruct (run_unique is_digit _ _ _ _ Hrest (proj2 Hds1) (proj2 Hds2) Hn1 Hn2)
    as [<- Hfr].
  destruct Hfrac1 as [-> | (fs1 & -> & Hfs1)];
    destruct Hfrac2 as [-> | (fs2 & -> & Hfs2)]; cbn in Hfr.
  - split; [reflexivity | exact Hfr].
  - inversion Hfr. subst c1. contradiction Hdot1. reflexivity.
  - inversion Hfr. subst c2. contradiction Hdot2. reflexivity.
  - inversion Hfr as [Hfs].
    destruct (run_unique is_digit fs1 (String c1 t1) fs2 (String c2 t2) Hfs
                (proj2 Hfs1) (proj2 Hfs2) Hc1 Hc2) as [<- Ht].
    split; [reflexivity | exact Ht].
Qed.

(** Two sum expressions at the same place have the same first number, the
    same white space, and second numbers that start at the same place. *)
Lemma sum_expression_forced (a ws1 ws2 b suf a' ws1' ws2' b' suf' : string) :
  a ++ ws1 ++ "+" ++ ws2 ++ b ++ suf = a' ++ ws1' ++ "+" ++ ws2' ++ b' ++ suf' ->
  number_token a -> number_token b ->
  all_chars is_space ws1 = true -> all_chars is_space ws2 = true ->
  number_token a' -> number_token b' ->
  all_chars is_space ws1' = true -> all_chars is_space ws2' = true ->
  a' = a /\ ws1' = ws1 /\ ws2' = ws2 /\ b' ++ suf' = b ++ suf.
Proof.
  intros Heq Ha Hb H1 H2 Ha' Hb' H1' H2'.
  destruct (token_forced _ _ _ _ Heq Ha Ha'
              (after_first_number ws1 _ H1) (after_first_number ws1' _ H1')) as [<- Hr].
  destruct (run_unique is_space ws1 _ ws1' _ Hr H1 H1' eq_refl eq_refl) as [<- Hr2].
  cbn in Hr2. inversion Hr2 as [Hr3].
  destruct (run_unique is_space ws2 _ ws2' _ Hr3 H2 H2'
              (token_not_space b suf Hb) (token_not_space b' suf' Hb')) as [<- Hr4].
  repeat split. symmetry. exact Hr4.
Qed.

End FirstMatch.

(* ================================================================== *)
(** * The offline responder: claims *)
(* ================================================================== *)

Section OfflineClaims.

Variable fuel : nat.
Variable env : Env.

Lemma sum_numbers (a b : number) :
  sum env (Some (JNum a)) (Some (JNum b)) = JNum (Num.add a b).
Proof. reflexivity. Qed.

(** C7. The offline responder answers "Calculate 1234 + 5678" with the
    text "Result: 1234 + 5678 = 6912", and touches neither the transcript
    nor any collaborator. *)
Theorem offline_sum_example (st : State) :
  runOfflineDemo fuel env "Calculate 1234 + 5678" st =
  (Return (mkDemo "Result: 1234 + 5678 = 6912"
             (Some (mkToolCallInfo "sum"
                      (JObj [("num1", JNum (Num.of_Z 1234));
                             ("num2", JNum (Num.of_Z 5678))])))),
   st).
Proof. reflexivity. Qed.

Lemma runOfflineDemo_sum (text : string) (num1 num2 : number) (st : State) :
  parseTwoNumbersForSum env text = Some (num1, num2) ->
  runOfflineDemo fuel env text st =
  (Return (mkDemo ("Result: " ++ Number_toString num1 ++ " + " ++ Number_toString num2 ++
                   " = " ++ Number_toString (Num.add num1 num2))
             (Some (mkToolCallInfo "sum" (JObj [("num1", JNum num1); ("num2", JNum num2)])))),
   st).
Proof. intros H. unfold runOfflineDemo. rewrite H. reflexivity. Qed.

Lemma runOfflineDemo_no_sum (text : string) (st : State) :
  parseTwoNumbersForSum env text = None ->
  runOfflineDemo fuel env text st = offline_prime fuel env text (toLowerCase text) st.
Proof. intros H. unfold runOfflineDemo. rewrite H. reflexivity. Qed.

(** What [parseTwoNumbersForSum] reads: the first sum expression of the
    text, with its second number as long as it can be; each number is
    converted to the binary64 value nearest to its decimal value. *)
Lemma parseTwoNumbersForSum_reads (text : string) (num1 num2 : number) :
  parseTwoNumbersForSum env text = Some (num1, num2) ->
  exists (pre a ws1 ws2 b suf : string) (qa qb : Q),
    text = pre ++ a ++ ws1 ++ "+" ++ ws2 ++ b ++ suf /\
    number_token a /\ number_token b /\
    all_chars is_space ws1 = true /\ all_chars is_space ws2 = true /\
    first_place starts_with_sum text pre /\
    longest_number b suf /\
    decimal_literal a = Some qa /\ decimal_literal b = Some qb /\
    num1 = Num.of_Q qa /\ num2 = Num.of_Q qb.
Proof.
  unfold parseTwoNumbersForSum.
  destruct (search re_sum text) as [m|] eqn:Hm; [|discriminate].
  destruct (search_re_sum_exact text m Hm)
    as (pre & a & ws1 & ws2 & b & suf & Htext & Ha & Hb & Hws1 & Hws2 & Hc1 & Hc2 &
        Hfirst & Hlong).
  destruct (decimal_literal_token a Ha) as [qa Hqa].
  destruct (decimal_literal_token b Hb) as [qb Hqb].
  unfold Number_of_string. rewrite Hc1, Hc2, Hqa, Hqb. intros H. inversion H.
  exists pre, a, ws1, ws2, b, suf, qa, qb. repeat split; assumption.
Qed.

(** What [parseNumberForPrime] reads: the first number of the text, as
    long as it can be, converted to the binary64 value nearest to its
    decimal value. *)
Lemma parseNumberForPrime_reads (text : string) (n : number) :
  parseNumberForPrime env text = Some n ->
  exists pre a suf q,
    text = pre ++ a ++ suf /\ number_token a /\
    first_place starts_with_number text pre /\
    longest_number a suf /\
    decimal_literal a = Some q /\ n = Num.of_Q q.
Proof.
  unfold parseNumberForPrime.
  destruct (search re_prime text) as [m|] eqn:Hm; [|discriminate].
  destruct (search_re_prime_exact text m Hm)
    as (pre & a & suf & Ht & Ha & Hc & Hfirst & Hlong).
  destruct (decimal_literal_token a Ha) as [q Hq].
  unfold Number_of_string. rewrite Hc, Hq. intros H. inversion H.
  exists pre, a, suf, q. repeat split; assumption.
Qed.

(** C6. Classification is first match wins in the order sum, prime,
    price.  A text that contains a number, [+] and a second number gets the
    sum reply, whatever else it contains.  The reply is computed from the
    first sum expression of the text, read in the only way it can be up to
    the length of its second number, which is taken as long as possible;
    it shows the two numbers, each converted to the binary64 value nearest
    to its decimal value, and their sum, which is the binary64 value
    nearest to the exact sum when the two are finite.  A text without
    such a match that contains "prime" and a finite number gets the
    primality reply with the verdict of trial division, whatever price
    keywords it contains; the number is the first number of the text, as
    long as it can be, converted to the nearest binary64 value.  So
    "0.1 + 0.2" is answered with 0.30000000000000004 and
    4.0000000000000001 is read as 4. *)
Theorem offline_first_match_wins :
  (forall (text : string) (st : State),
      contains_sum text ->
      exists (pre a ws1 ws2 b suf : string) (qa qb : Q),
        text = pre ++ a ++ ws1 ++ "+" ++ ws2 ++ b ++ suf /\
        number_token a /\ number_token b /\
        all_chars is_space ws1 = true /\ all_chars is_space ws2 = true /\
        first_place starts_with_sum text pre /\
        longest_number b suf /\
        (forall a' ws1' ws2' b' suf',
            a ++ ws1 ++ "+" ++ ws2 ++ b ++ suf =
              a' ++ ws1' ++ "+" ++ ws2' ++ b' ++ suf' ->
            number_token a' -> number_token b' ->
            all_chars is_space ws1' = true -> all_chars is_space ws2' = true ->
            a' = a /\ ws1' = ws1 /\ ws2' = ws2 /\ b' ++ suf' = b ++ suf) /\
        decimal_literal a = Some qa /\ decimal_literal b = Some qb /\
        let num1 := Num.of_Q qa in
        let num2 := Num.of_Q qb in
        rounds_to qa num1 /\ rounds_to qb num2 /\
        (forall x y, num1 = Fin x -> num2 = Fin y ->
                     rounds_to (x + y) (Num.add num1 num2)) /\
        parseTwoNumbersForSum env text = Some (num1, num2) /\
        runOfflineDemo fuel env text st =
        (Return (mkDemo ("Result: " ++ Number_toString num1 ++ " + " ++
                         Number_toString num2 ++ " = " ++
                         Number_toString (Num.add num1 num2))
                   (Some (mkToolCallInfo "sum"
                            (JObj [("num1", JNum num1); ("num2", JNum num2)])))),
         st)) /\
  (forall (text : string) (st : State) (q : Q),
      parseTwoNumbersForSum env text = None ->
      includes (toLowerCase text) "prime" = true ->
      parseNumberForPrime env text = Some (Fin q) ->
      (Z.to_nat (isqrt q) <= fuel)%nat ->
      runOfflineDemo fuel env text st =
      (Return (mkDemo (Number_toString (Fin q) ++ " is " ++
                       (if check_prime_spec q then "" else "not ") ++ "a prime number.")
                 (Some (mkToolCallInfo "check_prime_number"
                          (JObj [("number", JNum (Fin q))])))),
       st)) /\
  (forall (text : string) (n : number),
      parseNumberForPrime env text = Some n ->
      exists pre a suf q,
        text = pre ++ a ++ suf /\ number_token a /\
        first_place starts_with_number text pre /\
        longest_number a suf /\
        decimal_literal a = Some q /\ n = Num.of_Q q /\ rounds_to q n) /\
  (forall st : State,
      (exists info,
          runOfflineDemo fuel env "Is 0.1 + 0.2 prime? bitcoin price" st =
          (Return (mkDemo "Result: 0.1 + 0.2 = 0.30000000000000004" info), st)) /\
      (exists info,
          runOfflineDemo fuel env "9007199254740992 + 1" st =
          (Return (mkDemo "Result: 9007199254740992 + 1 = 9007199254740992" info), st)) /\
      ((2 <= fuel)%nat ->
       exists info,
         runOfflineDemo fuel env "PRIME 4.0000000000000001, bitcoin" st =
         (Return (mkDemo "4 is not a prime number." info), st))).
Proof.
  split; [|split; [|split]].
  - intros text st Hsum. apply contains_sum_search in Hsum.
    assert (Hex : exists num1 num2, parseTwoNumbersForSum env text = Some (num1, num2)).
    { unfold parseTwoNumbersForSum.
      destruct (search re_sum text); [eexists; eexists; reflexivity | contradiction]. }
    destruct Hex as (num1 & num2 & Hp).
    destruct (parseTwoNumbersForSum_reads text num1 num2 Hp)
      as (pre & a & ws1 & ws2 & b & suf & qa & qb & Htext & Ha & Hb & Hws1 & Hws2 &
          Hfirst & Hlong & Hqa & Hqb & -> & ->).
    exists pre, a, ws1, ws2, b, suf, qa, qb.
    split; [exact Htext|]. split; [exact Ha|]. split; [exact Hb|].
    split; [exact Hws1|]. split; [exact Hws2|]. split; [exact Hfirst|].
    split; [exact Hlong|].
    split.
    { intros a' ws1' ws2' b' suf' Heq Ha' Hb' H1' H2'.
      exact (sum_expression_forced a ws1 ws2 b suf a' ws1' ws2' b' suf'
               Heq Ha Hb Hws1 Hws2 Ha' Hb' H1' H2'). }
    split; [exact Hqa|]. split; [exact Hqb|]. cbv zeta.
    split; [apply of_Q_rounds|]. split; [apply of_Q_rounds|].
    split; [intros x y -> ->; apply add_rounds|].
    split; [exact Hp | apply runOfflineDemo_sum; exact Hp].
  - intros text st q Hnosum Hprime Hnum Hfuel.
    rewrite runOfflineDemo_no_sum by assumption.
    unfold offline_prime. rewrite Hprime, Hnum, (prime_total q fuel Hfuel). reflexivity.
  - intros text n Hn.
    destruct (parseNumberForPrime_reads text n Hn)
      as (pre & a & suf & q & Ht & Ha & Hfirst & Hlong & Hq & ->).
    exists pre, a, suf, q. repeat (split; [assumption|]).
    split; [reflexivity | apply of_Q_rounds].
  - intros st. split; [eexists; vm_compute; reflexivity|].
    split; [eexists; vm_compute; reflexivity|].
    intros Hfuel.
    eexists. rewrite runOfflineDemo_no_sum by (vm_compute; reflexivity).
    unfold offline_prime.
    replace (includes (toLowerCase "PRIME 4.0000000000000001, bitcoin") "prime") with true
      by (vm_compute; reflexivity).
    replace (parseNumberForPrime env "PRIME 4.0000000000000001, bitcoin")
      with (Some (Fin 4)) by (vm_compute; reflexivity).
    rewrite (prime_total 4 fuel) by (vm_compute; lia).
    reflexivity.
Qed.

End OfflineClaims.

(** C6, applied to a text that holds a sum, the word "prime" and a price
    keyword, and to a text that holds "prime", a number and a price
    keyword. *)
Lemma offline_first_match_wins_witness :
  (exists info,
      runOfflineDemo 5 (offline_env price_index_up) "Is 2 + 3 prime? bitcoin price" initial_state =
      (Return (mkDemo "Result: 2 + 3 = 5" info), initial_state)) /\
  runOfflineDemo 5 (offline_env price_index_up) "is 7 prime or a bitcoin price" initial_state =
  (Return (mkDemo "7 is a prime number."
             (Some (mkToolCallInfo "check_prime_number"
                      (JObj [("number", JNum (Num.of_Z 7))])))),
   initial_state) /\
  (exists info,
      runOfflineDemo 5 (offline_env price_index_up) "PRIME 4.0000000000000001, bitcoin"
        initial_state =
      (Return (mkDemo "4 is not a prime number." info), initial_state)).
Proof.
  destruct (offline_first_match_wins 5 (offline_env price_index_up))
    as (Hsum & Hprime & _ & Hsamples).
  split; [|split].
  - assert (Hc : contains_sum "Is 2 + 3 prime? bitcoin price").
    { exists "Is ", "2", " ", " ", "3", " prime? bitcoin price".
      split; [reflexivity|].
      split; [exists "", "2", ""; repeat split; try (left; reflexivity); discriminate|].
      split; [exists "", "3", ""; repeat split; try (left; reflexivity); discriminate|].
      split; reflexivity. }
    destruct (Hsum "Is 2 + 3 prime? bitcoin price" initial_state Hc)
      as (pre & a & ws1 & ws2 & b & suf & qa & qb & _ & _ & _ & _ & _ & _ & _ & _ & _ & _ &
          _ & _ & _ & Hp & Hrun).
    cbv zeta in Hp, Hrun. eexists. rewrite Hrun.
    assert (Hv : Some (Num.of_Q qa, Num.of_Q qb) = Some (Fin 2, Fin 3))
      by (rewrite <- Hp; vm_compute; reflexivity).
    inversion Hv as [[H1 H2]]. rewrite H1, H2. reflexivity.
  - apply (Hprime "is 7 prime or a bitcoin price" initial_state 7%Q);
      try reflexivity. vm_compute. lia.
  - destruct (Hsamples initial_state) as (_ & _ & H4). apply H4. lia.
Defined.

Section PriceClaims.

Variable fuel : nat.
Variable env : Env.

(** What a price lookup does: one request to the price index, logged, and
    an exception unless the index answers with a success status and a body
    that parses. *)
Lemma getcryptoprice_run (coin : string) (st : State) :
  getcryptoprice env coin st =
  let st' := mkState (History st) (groqClient st) (log st ++ [EvFetch (price_url coin)])%list in
  match fetch env (log st) (price_url coin) with
  | Err e => (Throw e, st')
  | Ok r =>
      if ok r
      then match json r with
           | Ok v => (Return v, st')
           | Err e => (Throw e, st')
           end
      else (Throw (Error ("Failed to fetch price for " ++ coin)), st')
  end.
Proof.
  unfold getcryptoprice, bind, get_log, record, of_result, price_url. cbn.
  destruct (fetch env (log st) _) as [r | e]; cbn; [|reflexivity].
  destruct (ok r); cbn; [|reflexivity].
  destruct (json r); reflexivity.
Qed.

Lemma getcryptoprice_log (coin : string) (st : State) :
  log (snd (getcryptoprice env coin st)) = (log st ++ [EvFetch (price_url coin)])%list /\
  History (snd (getcryptoprice env coin st)) = History st.
Proof.
  rewrite getcryptoprice_run. cbn zeta.
  destruct (fetch env (log st) (price_url coin)) as [r | e]; [|split; reflexivity].
  destruct (ok r); [|split; reflexivity].
  destruct (json r); split; reflexivity.
Qed.

(** C5, amended.  A text that matches neither the sum nor the prime intent,
    contains "eth", contains one of the keywords "price", "crypto" or
    "ethereum", and contains neither "bitcoin" nor "btc", makes the offline
    responder look up the price of ethereum.  A text that contains none of
    "price", "crypto", "bitcoin", "ethereum" gets the help text without any
    lookup, also when it contains "eth". *)
Theorem offline_eth_lookup (text : string) (st : State) :
  parseTwoNumbersForSum env text = None ->
  prime_intent env text = false ->
  (includes (toLowerCase text) "eth" = true ->
   includes (toLowerCase text) "price" || includes (toLowerCase text) "crypto" ||
     includes (toLowerCase text) "ethereum" = true ->
   includes (toLowerCase text) "bitcoin" = false ->
   includes (toLowerCase text) "btc" = false ->
   parseCoinForPrice text = Some "ethereum" /\
   runOfflineDemo fuel env text st = price_lookup env "ethereum" st /\
   log (snd (runOfflineDemo fuel env text st)) = (log st ++ [EvFetch (price_url "ethereum")])%list) /\
  (includes (toLowerCase text) "price" || includes (toLowerCase text) "crypto" ||
     includes (toLowerCase text) "bitcoin" || includes (toLowerCase text) "ethereum" = false ->
   runOfflineDemo fuel env text st = (Return (mkDemo help_text None), st)).
Proof.
  intros Hsum Hprime.
  assert (Hrun : runOfflineDemo fuel env text st =
                 offline_price env text (toLowerCase text) st).
  { rewrite runOfflineDemo_no_sum by assumption. unfold offline_prime.
    unfold prime_intent in Hprime.
    destruct (includes (toLowerCase text) "prime"); [|reflexivity].
    destruct (parseNumberForPrime env text); [discriminate | reflexivity]. }
  split.
  - intros Heth Hgate Hbit Hbtc.
    assert (Hcoin : parseCoinForPrice text = Some "ethereum").
    { unfold parseCoinForPrice. cbv zeta. rewrite Hbit, Hbtc, Heth.
      cbn [orb]. rewrite orb_true_r. reflexivity. }
    assert (Hlook : runOfflineDemo fuel env text st = price_lookup env "ethereum" st).
    { rewrite Hrun. unfold offline_price. rewrite Hbit.
      rewrite orb_false_r in *.
      replace (includes (toLowerCase text) "price" || includes (toLowerCase text) "crypto" ||
               includes (toLowerCase text) "ethereum") with true.
      rewrite Hcoin. reflexivity. }
    split; [exact Hcoin|]. split; [exact Hlook|].
    rewrite Hlook. unfold price_lookup, bind.
    pose proof (getcryptoprice_log "ethereum" st) as [Hlog _].
    destruct (getcryptoprice env "ethereum" st) as [[v | e |] st']; exact Hlog.
  - intros Hgate. rewrite Hrun. unfold offline_price. rewrite Hgate. reflexivity.
Qed.

End PriceClaims.

(** C5, as stated, fails on the text "eth": it matches neither the sum nor
    the prime intent and contains "eth", yet the offline responder returns
    the help text and looks nothing up. *)
Lemma offline_eth_counterexample :
  includes (toLowerCase "eth") "eth" = true /\
  (forall env, parseTwoNumbersForSum env "eth" = None) /\
  (forall env, prime_intent env "eth" = false) /\
  (forall fuel env st,
      runOfflineDemo fuel env "eth" st = (Return (mkDemo help_text None), st)).
Proof. repeat split. Qed.

(** C5, amended, applied to the text "ETH price?". *)
Lemma offline_eth_lookup_witness :
  parseCoinForPrice "ETH price?" = Some "ethereum" /\
  runOfflineDemo 0 (offline_env price_index_up) "ETH price?" initial_state =
    price_lookup (offline_env price_index_up) "ethereum" initial_state /\
  log (snd (runOfflineDemo 0 (offline_env price_index_up) "ETH price?" initial_state)) =
    (log initial_state ++ [EvFetch (price_url "ethereum")])%list.
Proof.
  destruct (offline_eth_lookup 0 (offline_env price_index_up) "ETH price?" initial_state)
    as [H _]; [reflexivity | reflexivity |].
  apply H; reflexivity.
Defined.

(** The positive infinity reaches [prime] from a text: a number token
    beyond the binary64 range converts to it, and the offline responder
    then never answers. *)
Remark offline_prime_overflow (fuel : nat) (env : Env) (st : State) :
  parseNumberForPrime env prime_of_huge = Some PInf /\
  runOfflineDemo fuel env prime_of_huge st = (Diverge, st).
Proof.
  assert (Hnum : parseNumberForPrime env prime_of_huge = Some PInf) by (vm_compute; reflexivity).
  split; [exact Hnum|].
  assert (Hsum : parseTwoNumbersForSum env prime_of_huge = None) by (vm_compute; reflexivity).
  rewrite runOfflineDemo_no_sum by exact Hsum.
  unfold offline_prime.
  replace (includes (toLowerCase prime_of_huge) "prime") with true by (vm_compute; reflexivity).
  rewrite Hnum. unfold prime. cbn [Num.lt Num.of_Z]. rewrite prime_loop_PInf. reflexivity.
Qed.

(* ================================================================== *)
(** * The request handler without a provider: claims *)
(* ================================================================== *)

Section OfflineHandlerClaims.

Variable fuel : nat.
Variable env : Env.

Lemma parseCoinForPrice_bitcoin : parseCoinForPrice "Bitcoin price" = Some "bitcoin".
Proof. reflexivity. Qed.


(** Without a provider key the handler answers from the offline responder
    alone. *)
Lemma chatHandler_no_key (c : ascii) (rest : string) (st : State) :
  truthy_string (GROQ_API_KEY env) = false ->
  chatHandler fuel env (chat_request (String c rest)) st =
  match runOfflineDemo fuel env (String c rest) st with
  | (Return demo, st') =>
      (Return (res_json (ChatBody (Some (demo_text demo)) (demo_toolCall demo))), st')
  | (Throw _, st') => (Return offline_failed, st')
  | (Diverge, st') => (Diverge, st')
  end.
Proof.
  intros Hkey. unfold chatHandler.
  change (body_message (chat_request (String c rest))) with (Some (JStr (String c rest))).
  cbv beta iota. rewrite Hkey. cbn [negb]. unfold try_catch, bind.
  destruct (runOfflineDemo fuel env (String c rest) st) as [[d | e |] st']; reflexivity.
Qed.


(** C9. A [POST] to [/chat] or [/api/chat] whose body has no [message]
    field, or one that is not a string, is answered with status 400 and an
    error object, and leaves the transcript and the rest of the state as
    they were. *)
Theorem chat_missing_message (path : string) (req : HttpRequest) (st : State) :
  In path ["/chat"; "/api/chat"] ->
  (forall s : string, body_message req <> Some (JStr s)) ->
  exists handler : M HttpResponse,
    POST fuel env path req = Some handler /\
    handler st = (Return missing_message, st) /\
    status missing_message = 400%nat /\
    History (snd (handler st)) = History st.
Proof.
  intros Hpath Hmsg. exists (chatHandler fuel env req).
  assert (Hrun : chatHandler fuel env req st = (Return missing_message, st)).
  { unfold chatHandler.
    destruct (body_message req) as [[| | | s | |]|] eqn:Hb; try reflexivity.
    destruct s; [reflexivity|]. exfalso. eapply Hmsg. reflexivity. }
  split.
  - cbn in Hpath. destruct Hpath as [<- | [<- | []]]; reflexivity.
  - split; [exact Hrun|]. split; [reflexivity|]. rewrite Hrun. reflexivity.
Qed.

End OfflineHandlerClaims.



(** C9, applied to the empty body [{}] on [/chat]. *)
Lemma chat_missing_message_witness :
  exists handler : M HttpResponse,
    POST 0 (offline_env price_index_up) "/chat" (mkHttpRequest (Some (JObj []))) = Some handler /\
    handler initial_state = (Return missing_message, initial_state) /\
    status missing_message = 400%nat /\
    History (snd (handler initial_state)) = History initial_state.
Proof.
  apply (chat_missing_message 0 (offline_env price_index_up) "/chat"
           (mkHttpRequest (Some (JObj []))) initial_state).
  - left. reflexivity.
  - intros s. discriminate.
Defined.

(* ================================================================== *)
(** * Facts about the orchestrator *)
(* ================================================================== *)

Section AgentFacts.

Variable fuel : nat.
Variable env : Env.

Lemma state_eta (st : State) : mkState (History st) (groqClient st) (log st) = st.
Proof. destruct st; reflexivity. Qed.

Lemma getGroqClient_configured (st : State) :
  provider_configured env st = true ->
  getGroqClient env st = (Return true, mkState (History st) true (log st)).
Proof.
  unfold provider_configured, getGroqClient. intros H.
  destruct (groqClient st) eqn:Hc.
  - rewrite <- Hc, state_eta. rewrite Hc. reflexivity.
  - cbn in H. rewrite H. reflexivity.
Qed.

(** [runAgent] up to the first answer: the user message is appended, one
    request is sent, and a failure of that request is thrown as it is. *)
Lemma runAgent_first_round (userMessage : string) (st : State) :
  provider_configured env st = true ->
  runAgent fuel env userMessage st =
  match completions_create env (log st) (first_request env st userMessage) with
  | Err e => (Throw e, after_first_request env st userMessage)
  | Ok response => after_first_answer fuel env response (after_first_request env st userMessage)
  end.
Proof.
  intros Hc. unfold runAgent. unfold bind at 1.
  rewrite getGroqClient_configured by exact Hc. cbn [negb].
  unfold bind at 1. unfold push at 1. cbn [History groqClient log].
  unfold bind at 1. unfold get_History at 1. cbn [History groqClient log].
  unfold bind at 1. unfold create at 1. unfold bind at 1. unfold get_log at 1.
  cbn [History groqClient log]. unfold bind at 1. unfold record at 1.
  cbn [History groqClient log].
  fold (first_request env st userMessage). fold (after_first_request env st userMessage).
  destruct (completions_create env (log st) (first_request env st userMessage)) as [response | e];
    reflexivity.
Qed.


Lemma after_first_answer_tool (response : ChatResponse) (c : Choice) (cs : list Choice)
    (m : Message) (tc : ToolCall) (rest : list ToolCall) (st : State) :
  choices response = c :: cs -> choice_message c = Some m ->
  tool_calls m = Some (tc :: rest) ->
  after_first_answer fuel env response st = tool_round fuel env m tc st.
Proof.
  intros Hc Hm Ht. unfold after_first_answer, first_message, bind.
  rewrite Hc. cbn [ret]. rewrite Hm, Ht. reflexivity.
Qed.

(** A tool invocation is logged, may query the price index, and touches
    neither the transcript nor the cached client. *)
Lemma call_tool_frame (tool : string) (args : JValue) (st : State) :
  History (snd (call_tool fuel env tool args st)) = History st /\
  groqClient (snd (call_tool fuel env tool args st)) = groqClient st /\
  exists fetches : list Event,
    log (snd (call_tool fuel env tool args st)) = (log st ++ EvTool tool args :: fetches)%list /\
    forallb is_fetch fetches = true.
Proof.
  unfold call_tool. unfold bind at 1. unfold record at 1. cbn [History groqClient log].
  set (st1 := mkState (History st) (groqClient st) (log st ++ [EvTool tool args])).
  assert (Hquiet : forall (r : outcome JSValue),
             History (snd (r, st1)) = History st /\
             groqClient (snd (r, st1)) = groqClient st /\
             exists fetches : list Event,
               log (snd (r, st1)) = (log st ++ EvTool tool args :: fetches)%list /\
               forallb is_fetch fetches = true).
  { intros r. repeat split. exists []. split; reflexivity. }
  unfold availableTools, own_property.
  destruct (String.eqb tool "sum").
  { unfold bind, destructure, TypeError, throw, ret. destruct args; apply Hquiet. }
  destruct (String.eqb tool "check_prime_number").
  { unfold bind, destructure, TypeError, throw, ret.
    destruct args; try apply Hquiet;
      match goal with
      | |- context [prime fuel ?n] => destruct (prime fuel n); apply Hquiet
      end. }
  destruct (String.eqb tool "get_crypto_price").
  { assert (Hfetch : forall coin,
               History (snd (bind (getcryptoprice env coin) (fun price => ret (Some price)) st1))
               = History st /\
               groqClient (snd (bind (getcryptoprice env coin) (fun price => ret (Some price)) st1))
               = groqClient st /\
               exists fetches : list Event,
                 log (snd (bind (getcryptoprice env coin) (fun price => ret (Some price)) st1))
                 = (log st ++ EvTool tool args :: fetches)%list /\
                 forallb is_fetch fetches = true).
    { intros coin. unfold bind at 1 2 3. rewrite getcryptoprice_run. cbv zeta.
      assert (Hst : forall (r : outcome JSValue),
                 let st2 := mkState (History st1) (groqClient st1)
                                    (log st1 ++ [EvFetch (price_url coin)]) in
                 History (snd (r, st2)) = History st /\
                 groqClient (snd (r, st2)) = groqClient st /\
                 exists fetches : list Event,
                   log (snd (r, st2)) = (log st ++ EvTool tool args :: fetches)%list /\
                   forallb is_fetch fetches = true).
      { intros r. repeat split. exists [EvFetch (price_url coin)]. split; [|reflexivity].
        cbn. rewrite <- app_assoc. reflexivity. }
      destruct (fetch env (log st1) (price_url coin)) as [r | e]; [|apply Hst].
      destruct (ok r); [|apply Hst].
      destruct (json r); apply Hst. }
    unfold bind at 1. unfold destructure, TypeError, throw, ret.
    destruct args; try apply Hquiet; apply Hfetch. }
  unfold of_result. destruct (inherited_call env tool args); apply Hquiet.
Qed.

(** [tool_round], step by step. *)
Lemma tool_round_run (m : Message) (tc : ToolCall) (st : State) :
  tool_round fuel env m tc st =
  match JSON_parse env (arguments (function tc)) with
  | Err e => (Throw e, st)
  | Ok args =>
      match call_tool fuel env (name (function tc)) args st with
      | (Return result, st') => after_tool env m tc args result st'
      | (Throw e, st') => (Throw e, st')
      | (Diverge, st') => (Diverge, st')
      end
  end.
Proof.
  unfold tool_round. unfold bind at 1.
  destruct (JSON_parse env (arguments (function tc))) as [args | e]; [|reflexivity].
  cbn [of_result ret]. unfold bind at 1. reflexivity.
Qed.

(** [after_tool]: the transcript grows by the request and the result of the
    tool, the second request carries that transcript, and at most the final
    answer is appended after it. *)
Lemma after_tool_run (m : Message) (tc : ToolCall) (args : JValue) (result : JSValue)
    (st : State) :
  let T := (History st ++ [m; tool_message (id tc) (JSON_stringify env result)])%list in
  exists (out : outcome Reply) (final : list Message),
    after_tool env m tc args result st =
    (out, mkState (T ++ final) (groqClient st) (log st ++ [EvCompletion (second_request env T)])) /\
    (final = [] \/ exists text, final = [assistant_message text]) /\
    (forall e, completions_create env (log st) (second_request env T) = Err e ->
               out = Throw e /\ final = []).
Proof.
  intros T. unfold after_tool.
  unfold bind at 1. unfold push at 1. cbn [History groqClient log].
  unfold bind at 1. unfold push at 1. cbn [History groqClient log].
  unfold bind at 1. unfold get_History at 1. cbn [History groqClient log].
  unfold bind at 1. unfold create at 1. unfold bind at 1. unfold get_log at 1.
  cbn [History groqClient log]. unfold bind at 1. unfold record at 1.
  cbn [History groqClient log].
  replace ((History st ++ [m]) ++ [tool_message (id tc) (JSON_stringify env result)])%list
    with T by (unfold T; rewrite <- app_assoc; reflexivity).
  fold (second_request env T).
  destruct (completions_create env (log st) (second_request env T)) as [resp | e].
  - cbn [of_result ret]. unfold bind at 1. unfold first_message.
    destruct (choices resp) as [|c cs].
    + eexists; exists (@nil Message); rewrite app_nil_r. split; [reflexivity|].
      split; [left; reflexivity | intros e He; discriminate].
    + cbn [ret]. unfold bind at 1.
      destruct (choice_message c) as [fm|].
      * unfold push_content. destruct (content fm) as [text|].
        -- destruct (String.eqb text "").
           ++ eexists; exists (@nil Message); rewrite app_nil_r. split; [reflexivity|].
              split; [left; reflexivity | intros e He; discriminate].
           ++ eexists; exists [assistant_message text]. split; [reflexivity|].
              split; [right; eexists; reflexivity | intros e He; discriminate].
        -- eexists; exists (@nil Message); rewrite app_nil_r. split; [reflexivity|].
           split; [left; reflexivity | intros e He; discriminate].
      * eexists; exists (@nil Message); rewrite app_nil_r. split; [reflexivity|].
        split; [left; reflexivity | intros e He; discriminate].
  - eexists; exists (@nil Message); rewrite app_nil_r. split; [reflexivity|].
    split; [left; reflexivity|]. intros e' He. inversion He. split; reflexivity.
Qed.

End AgentFacts.

(* ================================================================== *)
(** * The orchestrator: claims *)
(* ================================================================== *)

Section AgentClaims.

Variable fuel : nat.
Variable env : Env.

Lemma invocations_app (l1 l2 : list Event) :
  invocations (l1 ++ l2) = (invocations l1 ++ invocations l2)%list.
Proof. apply filter_app. Qed.

Lemma completions_app (l1 l2 : list Event) :
  completions (l1 ++ l2) = (completions l1 ++ completions l2)%list.
Proof. apply filter_app. Qed.

Lemma fetches_no_invocation (l : list Event) :
  forallb is_fetch l = true -> invocations l = [] /\ completions l = [].
Proof.
  induction l as [|ev l IH]; cbn; [split; reflexivity|].
  intros H. apply andb_true_iff in H as [Hev Hl]. destruct ev; try discriminate.
  cbn. apply IH. exact Hl.
Qed.

Lemma invocations_round (r1 r2 : ChatRequest) (tool : string) (args : JValue)
    (fetches : list Event) :
  forallb is_fetch fetches = true ->
  invocations (EvCompletion r1 :: EvTool tool args :: fetches ++ [EvCompletion r2])
  = [EvTool tool args].
Proof.
  intros H. unfold invocations. cbn [filter is_tool]. rewrite filter_app.
  fold (invocations fetches). destruct (fetches_no_invocation fetches H) as [-> _].
  reflexivity.
Qed.

(** C1. When the provider is configured and its first answer carries tool
    invocation requests [tc :: rest], [runAgent] invokes the tool of [tc]
    and no other.  If the arguments of [tc] do not parse, or the tool
    throws, nothing is appended after the user message and no second
    request is sent.  If the tool returns, then the second request is sent
    with the transcript extended by exactly the provider's request message
    followed by one tool message whose [tool_call_id] is the [id] of [tc],
    and the only tool invocation in the log is that of [tc]. *)
Theorem first_invocation_only (userMessage : string) (st : State)
    (response : ChatResponse) (c : Choice) (cs : list Choice)
    (m : Message) (tc : ToolCall) (rest : list ToolCall) :
  provider_configured env st = true ->
  completions_create env (log st) (first_request env st userMessage) = Ok response ->
  choices response = c :: cs ->
  choice_message c = Some m ->
  tool_calls m = Some (tc :: rest) ->
  let s1 := after_first_request env st userMessage in
  let run := runAgent fuel env userMessage st in
  match JSON_parse env (arguments (function tc)) with
  | Err e => run = (Throw e, s1)
  | Ok args =>
      exists fetches : list Event,
        forallb is_fetch fetches = true /\
        let tool_log := (log s1 ++ EvTool (name (function tc)) args :: fetches)%list in
        match fst (call_tool fuel env (name (function tc)) args s1) with
        | Return result =>
            let reply := tool_message (id tc) (JSON_stringify env result) in
            let T := (History st ++ [user_message userMessage; m; reply])%list in
            role reply = "tool" /\
            tool_call_id reply = Some (id tc) /\
            log (snd run) = (tool_log ++ [EvCompletion (second_request env T)])%list /\
            invocations (log (snd run)) =
              (invocations (log st) ++ [EvTool (name (function tc)) args])%list /\
            (History (snd run) = T \/
             exists text, History (snd run) = (T ++ [assistant_message text])%list)
        | Throw e =>
            fst run = Throw e /\ History (snd run) = History s1 /\ log (snd run) = tool_log
        | Diverge =>
            fst run = Diverge /\ History (snd run) = History s1 /\ log (snd run) = tool_log
        end
  end.
Proof.
  intros Hconf Hresp Hc Hm Ht s1 run. unfold run.
  rewrite runAgent_first_round by exact Hconf. rewrite Hresp.
  rewrite (after_first_answer_tool fuel env response c cs m tc rest) by assumption.
  rewrite tool_round_run. fold s1.
  destruct (JSON_parse env (arguments (function tc))) as [args | e]; [|reflexivity].
  destruct (call_tool_frame fuel env (name (function tc)) args s1)
    as (Hhist & Hclient & fetches & Hlog & Hfetches).
  exists fetches. split; [exact Hfetches|]. cbv zeta.
  destruct (call_tool fuel env (name (function tc)) args s1) as [[result | e |] s2];
    cbn [fst snd] in *.
  - destruct (after_tool_run env m tc args result s2) as (out & final & Hrun & Hfinal & _).
    rewrite Hrun. cbn [fst snd History log].
    rewrite Hhist, Hlog. unfold s1, after_first_request. cbn [History log].
    rewrite <- !app_assoc. cbn [app].
    split; [reflexivity|]. split; [reflexivity|]. split; [reflexivity|].
    split.
    + rewrite invocations_app. f_equal. apply invocations_round. exact Hfetches.
    + destruct Hfinal as [-> | [text ->]]; [left | right; exists text];
        try rewrite app_nil_r; try rewrite <- app_assoc; reflexivity.
  - repeat split; assumption.
  - repeat split; assumption.
Qed.

End AgentClaims.

Section FallbackClaims.

Variable fuel : nat.
Variable env : Env.

(** The offline responder touches neither the transcript nor the cached
    client, and sends nothing but requests to the price index. *)
Lemma runOfflineDemo_frame (text : string) (st : State) :
  History (snd (runOfflineDemo fuel env text st)) = History st /\
  groqClient (snd (runOfflineDemo fuel env text st)) = groqClient st /\
  exists fetches : list Event,
    log (snd (runOfflineDemo fuel env text st)) = (log st ++ fetches)%list /\
    forallb is_fetch fetches = true.
Proof.
  assert (Hquiet : forall (r : outcome Demo),
             History (snd (r, st)) = History st /\
             groqClient (snd (r, st)) = groqClient st /\
             exists fetches : list Event,
               log (snd (r, st)) = (log st ++ fetches)%list /\
               forallb is_fetch fetches = true).
  { intros r. repeat split. exists []. rewrite app_nil_r. split; reflexivity. }
  assert (Hprice : forall lower,
             History (snd (offline_price env text lower st)) = History st /\
             groqClient (snd (offline_price env text lower st)) = groqClient st /\
             exists fetches : list Event,
               log (snd (offline_price env text lower st)) = (log st ++ fetches)%list /\
               forallb is_fetch fetches = true).
  { intros lower. unfold offline_price.
    destruct (includes lower "price" || includes lower "crypto" ||
              includes lower "bitcoin" || includes lower "ethereum"); [|apply Hquiet].
    destruct (parseCoinForPrice text) as [coin|]; [|apply Hquiet].
    unfold bind. rewrite getcryptoprice_run. cbv zeta.
    assert (Hst : forall (r : outcome Demo),
               let st' := mkState (History st) (groqClient st)
                                  (log st ++ [EvFetch (price_url coin)]) in
               History (snd (r, st')) = History st /\
               groqClient (snd (r, st')) = groqClient st /\
               exists fetches : list Event,
                 log (snd (r, st')) = (log st ++ fetches)%list /\
                 forallb is_fetch fetches = true).
    { intros r. repeat split. exists [EvFetch (price_url coin)]. split; reflexivity. }
    destruct (fetch env (log st) (price_url coin)) as [r | e]; [|apply Hst].
    destruct (ok r); [|apply Hst].
    destruct (json r); apply Hst. }
  unfold runOfflineDemo.
  destruct (parseTwoNumbersForSum env text) as [[num1 num2]|]; [apply Hquiet|].
  unfold offline_prime.
  destruct (includes (toLowerCase text) "prime"); [|apply Hprice].
  destruct (parseNumberForPrime env text) as [number|]; [|apply Hprice].
  destruct (prime fuel number); apply Hquiet.
Qed.

(** With a provider key the handler runs the orchestrator, and the offline
    responder when the orchestrator throws. *)
Lemma chatHandler_key (c : ascii) (rest : string) (st : State) :
  truthy_string (GROQ_API_KEY env) = true ->
  chatHandler fuel env (chat_request (String c rest)) st =
  match runAgent fuel env (String c rest) st with
  | (Return result, st1) =>
      (Return (res_json (ChatBody (reply_text result) (reply_toolCall result))), st1)
  | (Throw err, st1) => fallback_reply err (runOfflineDemo fuel env (String c rest) st1)
  | (Diverge, st1) => (Diverge, st1)
  end.
Proof.
  intros Hkey. unfold chatHandler.
  change (body_message (chat_request (String c rest))) with (Some (JStr (String c rest))).
  cbv beta iota. rewrite Hkey. cbn [negb]. unfold try_catch at 1. unfold bind at 1.
  destruct (runAgent fuel env (String c rest) st) as [[result | err |] st1];
    try reflexivity.
  unfold fallback_reply, try_catch, bind.
  destruct (runOfflineDemo fuel env (String c rest) st1) as [[demo | e |] st2]; reflexivity.
Qed.

Lemma key_configures (st : State) :
  truthy_string (GROQ_API_KEY env) = true -> provider_configured env st = true.
Proof. intros H. unfold provider_configured. rewrite H. apply orb_true_r. Qed.

Lemma fallback_reply_log (err : Thrown) (r : outcome Demo * State) :
  log (snd (fallback_reply err r)) = log (snd r) /\
  History (snd (fallback_reply err r)) = History (snd r).
Proof. destruct r as [[demo | e |] st']; split; reflexivity. Qed.

Lemma chatHandler_fallback (c : ascii) (rest : string) (st : State)
    (err : Thrown) (st1 : State) :
  truthy_string (GROQ_API_KEY env) = true ->
  runAgent fuel env (String c rest) st = (Throw err, st1) ->
  chatHandler fuel env (chat_request (String c rest)) st =
  fallback_reply err (runOfflineDemo fuel env (String c rest) st1).
Proof. intros Hkey Hrun. rewrite chatHandler_key by exact Hkey. rewrite Hrun. reflexivity. Qed.

(** The fallback sends the provider nothing. *)
Lemma chatHandler_fallback_completions (c : ascii) (rest : string) (st : State)
    (err : Thrown) (st1 : State) :
  truthy_string (GROQ_API_KEY env) = true ->
  runAgent fuel env (String c rest) st = (Throw err, st1) ->
  completions (log (snd (chatHandler fuel env (chat_request (String c rest)) st))) =
  completions (log st1) /\
  History (snd (chatHandler fuel env (chat_request (String c rest)) st)) = History st1.
Proof.
  intros Hkey Hrun. rewrite (chatHandler_fallback c rest st err st1 Hkey Hrun).
  destruct (fallback_reply_log err (runOfflineDemo fuel env (String c rest) st1)) as [-> ->].
  destruct (runOfflineDemo_frame (String c rest) st1) as (-> & _ & fetches & -> & Hf).
  split; [|reflexivity].
  rewrite completions_app. destruct (fetches_no_invocation fetches Hf) as [_ ->].
  apply app_nil_r.
Qed.

(** A failure of the first request is thrown as it is. *)
Lemma runAgent_first_failure (userMessage : string) (st : State) (e : Thrown) :
  provider_configured env st = true ->
  completions_create env (log st) (first_request env st userMessage) = Err e ->
  runAgent fuel env userMessage st = (Throw e, after_first_request env st userMessage).
Proof.
  intros Hconf He. rewrite runAgent_first_round by exact Hconf. rewrite He. reflexivity.
Qed.

(** A failure of the second request is thrown as it is. *)
Lemma runAgent_second_failure (userMessage : string) (st : State)
    (response : ChatResponse) (ch : Choice) (chs : list Choice) (m : Message)
    (tc : ToolCall) (tcs : list ToolCall) (args : JValue) (result : JSValue)
    (s2 : State) (e : Thrown) :
  provider_configured env st = true ->
  completions_create env (log st) (first_request env st userMessage) = Ok response ->
  choices response = ch :: chs ->
  choice_message ch = Some m ->
  tool_calls m = Some (tc :: tcs) ->
  JSON_parse env (arguments (function tc)) = Ok args ->
  call_tool fuel env (name (function tc)) args (after_first_request env st userMessage)
    = (Return result, s2) ->
  let T := (History st ++ [user_message userMessage; m;
                           tool_message (id tc) (JSON_stringify env result)])%list in
  completions_create env (log s2) (second_request env T) = Err e ->
  runAgent fuel env userMessage st =
    (Throw e, mkState T true (log s2 ++ [EvCompletion (second_request env T)])) /\
  completions (log s2) =
    (completions (log st) ++ [EvCompletion (first_request env st userMessage)])%list.
Proof.
  intros Hconf Hresp Hch Hm Htc Hargs Hcall T He.
  set (s1 := after_first_request env st userMessage) in *.
  destruct (call_tool_frame fuel env (name (function tc)) args s1)
    as (Hhist & Hclient & fetches & Hlog & Hfetches).
  rewrite Hcall in Hhist, Hclient, Hlog. cbn [snd] in Hhist, Hclient, Hlog.
  assert (HT : (History s2 ++ [m; tool_message (id tc) (JSON_stringify env result)])%list = T).
  { rewrite Hhist. unfold s1, after_first_request, T. cbn [History].
    rewrite <- app_assoc. reflexivity. }
  split.
  - rewrite runAgent_first_round by exact Hconf.
    rewrite Hresp. fold s1.
    rewrite (after_first_answer_tool fuel env response ch chs m tc tcs) by assumption.
    rewrite tool_round_run, Hargs, Hcall.
    destruct (after_tool_run env m tc args result s2) as (out & final & Hrun & _ & Herr).
    rewrite HT in Hrun, Herr. destruct (Herr e He) as [-> ->].
    rewrite Hrun, app_nil_r, Hclient. reflexivity.
  - rewrite Hlog. unfold s1, after_first_request. cbn [log].
    rewrite !completions_app. cbn [completions filter is_completion].
    fold (completions fetches). destruct (fetches_no_invocation fetches Hfetches) as [_ ->].
    rewrite app_nil_r. reflexivity.
Qed.

(** C8, amended.  With a provider key and a message:
    - whenever [runAgent] throws, [chatHandler] runs the offline responder
      on the same message; if that returns, the reply has status 200 and
      the offline text followed by the fallback note; if that throws, the
      reply has status 500 and the message of the error [runAgent] threw;
    - a failure of the first request to the provider is thrown by
      [runAgent] as it is, and the whole request sends the provider no
      other request;
    - a failure of the second request is thrown as it is, after the two
      requests and no other. *)
Theorem remote_failure_fallback (c : ascii) (rest : string) (st : State) :
  truthy_string (GROQ_API_KEY env) = true ->
  let message := String c rest in
  let s1 := after_first_request env st message in
  (forall err st1,
      runAgent fuel env message st = (Throw err, st1) ->
      chatHandler fuel env (chat_request message) st =
      fallback_reply err (runOfflineDemo fuel env message st1)) /\
  (forall err st1 demo st2,
      runAgent fuel env message st = (Throw err, st1) ->
      runOfflineDemo fuel env message st1 = (Return demo, st2) ->
      chatHandler fuel env (chat_request message) st =
      (Return (mkHttpResponse 200
                 (ChatBody (Some (demo_text demo ++ fallback_note)) (demo_toolCall demo))),
       st2)) /\
  (forall e,
      completions_create env (log st) (first_request env st message) = Err e ->
      runAgent fuel env message st = (Throw e, s1) /\
      completions (log (snd (chatHandler fuel env (chat_request message) st))) =
        (completions (log st) ++ [EvCompletion (first_request env st message)])%list) /\
  (forall response ch chs m tc tcs args result s2 e,
      completions_create env (log st) (first_request env st message) = Ok response ->
      choices response = ch :: chs ->
      choice_message ch = Some m ->
      tool_calls m = Some (tc :: tcs) ->
      JSON_parse env (arguments (function tc)) = Ok args ->
      call_tool fuel env (name (function tc)) args s1 = (Return result, s2) ->
      let T := (History st ++ [user_message message; m;
                               tool_message (id tc) (JSON_stringify env result)])%list in
      completions_create env (log s2) (second_request env T) = Err e ->
      runAgent fuel env message st =
        (Throw e, mkState T true (log s2 ++ [EvCompletion (second_request env T)])) /\
      completions (log (snd (chatHandler fuel env (chat_request message) st))) =
        (completions (log st) ++ [EvCompletion (first_request env st message);
                                  EvCompletion (second_request env T)])%list).
Proof.
  intros Hkey message s1. subst s1 message.
  pose proof (key_configures st Hkey) as Hconf.
  split; [intros err st1 Hrun; apply chatHandler_fallback; assumption|]. split.
  { intros err st1 demo st2 Hrun Hdemo.
    rewrite (chatHandler_fallback c rest st err st1 Hkey Hrun), Hdemo. reflexivity. }
  split.
  - intros e He.
    pose proof (runAgent_first_failure (String c rest) st e Hconf He) as Hrun.
    split; [exact Hrun|].
    destruct (chatHandler_fallback_completions c rest st e _ Hkey Hrun) as [-> _].
    unfold after_first_request. cbn [log]. rewrite completions_app. reflexivity.
  - intros response ch chs m tc tcs args result s2 e Hresp Hch Hm Htc Hargs Hcall T He.
    destruct (runAgent_second_failure (String c rest) st response ch chs m tc tcs
                args result s2 e Hconf Hresp Hch Hm Htc Hargs Hcall He) as [Hrun Hcompl].
    split; [exact Hrun|].
    destruct (chatHandler_fallback_completions c rest st e _ Hkey Hrun) as [-> _].
    cbn [log]. rewrite completions_app, Hcompl. cbn [completions filter is_completion].
    rewrite <- app_assoc. reflexivity.
Qed.

End FallbackClaims.

(** C8, as stated, fails when the offline responder fails too: with a
    provider that fails and a price index that is down, the message
    "Bitcoin price" is answered with status 500 and the provider's error,
    not with an offline text. *)
Lemma remote_failure_counterexample :
  truthy_string (GROQ_API_KEY failing_env) = true /\
  completions_create failing_env (log initial_state)
    (first_request failing_env initial_state "Bitcoin price") = Err (Error "Connection error.") /\
  fst (chatHandler 0 failing_env (chat_request "Bitcoin price") initial_state)
  = Return (mkHttpResponse 500 (ErrorBody "Connection error.")).
Proof. repeat split. Qed.

(* ================================================================== *)
(** * The transcript only grows *)
(* ================================================================== *)

Section TranscriptClaims.

Variable fuel : nat.
Variable env : Env.

Lemma silent_appending {A} (m : M A) : silent m -> appending m.
Proof. intros H st. exists []. rewrite app_nil_r. apply H. Qed.



Lemma appending_push (msg : Message) : appending (push msg).
Proof. intros st. exists [msg]. reflexivity. Qed.

Lemma appending_ret {A} (a : A) : appending (ret a).
Proof. apply silent_appending. intros st. reflexivity. Qed.

Lemma appending_throw {A} (e : Thrown) : appending (@throw A e).
Proof. apply silent_appending. intros st. reflexivity. Qed.

Lemma appending_of_result {A} (r : result A) : appending (of_result r).
Proof. destruct r; [apply appending_ret | apply appending_throw]. Qed.

Lemma appending_create (req : ChatRequest) : appending (create env req).
Proof.
  apply silent_appending. intros st. unfold create, bind, get_log, record. cbn.
  destruct (completions_create env (log st) req); reflexivity.
Qed.

Lemma appending_first_message (response : ChatResponse) :
  appending (first_message env response).
Proof.
  unfold first_message. destruct (choices response);
    [apply appending_throw | apply appending_ret].
Qed.

Lemma appending_push_content (m : option Message) : appending (push_content m).
Proof.
  unfold push_content. destruct m as [msg|]; [|apply appending_ret].
  destruct (content msg) as [text|]; [|apply appending_ret].
  destruct (String.eqb text ""); [apply appending_ret | apply appending_push].
Qed.

Lemma appending_call_tool (tool : string) (args : JValue) :
  appending (call_tool fuel env tool args).
Proof. apply silent_appending. intros st. apply call_tool_frame. Qed.

Lemma appending_runOfflineDemo (text : string) : appending (runOfflineDemo fuel env text).
Proof. apply silent_appending. intros st. apply runOfflineDemo_frame. Qed.

Lemma appending_getGroqClient : appending (getGroqClient env).
Proof.
  apply silent_appending. intros st. unfold getGroqClient.
  destruct (groqClient st); [reflexivity|].
  destruct (truthy_string (GROQ_API_KEY env)); reflexivity.
Qed.

Lemma appending_get_History : appending get_History.
Proof. apply silent_appending. intros st. reflexivity. Qed.

Create HintDb appending_db.
#[local] Hint Resolve appending_push appending_ret appending_throw appending_of_result
  appending_create appending_first_message appending_push_content appending_call_tool
  appending_runOfflineDemo appending_getGroqClient appending_get_History : appending_db.






End TranscriptClaims.

(* ================================================================== *)
(** * The claims on sample runs *)
(* ================================================================== *)

(** C1, applied to a provider that asks for [sum] and for
    [check_prime_number] in one answer: only [sum] is invoked, and the
    second request carries the transcript with the provider's message and
    one tool message for [call_1]. *)
Lemma first_invocation_only_witness :
  exists fetches : list Event,
    forallb is_fetch fetches = true /\
    let args := JObj [("num1", JNum (Num.of_Z 2)); ("num2", JNum (Num.of_Z 3))] in
    let run := runAgent 5 tool_env "add 2 and 3" initial_state in
    let reply := tool_message "call_1" (Some "5") in
    let T := [system_message; user_message "add 2 and 3"; two_calls; reply] in
    role reply = "tool" /\
    tool_call_id reply = Some "call_1" /\
    log (snd run) =
      ((log (after_first_request tool_env initial_state "add 2 and 3") ++
        EvTool "sum" args :: fetches) ++ [EvCompletion (second_request tool_env T)])%list /\
    invocations (log (snd run)) = [EvTool "sum" args] /\
    (History (snd run) = T \/
     exists text, History (snd run) = (T ++ [assistant_message text])%list).
Proof.
  exact (first_invocation_only 5 tool_env "add 2 and 3" initial_state
           (mkChatResponse [mkChoice (Some two_calls)]) (mkChoice (Some two_calls)) []
           two_calls (mkToolCall "call_1" (mkToolFunction "sum" sum_arguments))
           [mkToolCall "call_2" (mkToolFunction "check_prime_number" prime_arguments)]
           eq_refl eq_refl eq_refl eq_refl eq_refl).
Defined.

(** C8, applied to a provider that fails and the message "hello": the
    reply is the help text of the offline responder followed by the
    fallback note, and the provider has been sent one request. *)
Lemma remote_failure_fallback_witness :
  chatHandler 0 failing_env (chat_request "hello") initial_state =
  (Return (mkHttpResponse 200 (ChatBody (Some (help_text ++ fallback_note)) None)),
   after_first_request failing_env initial_state "hello") /\
  completions (log (snd (chatHandler 0 failing_env (chat_request "hello") initial_state))) =
  [EvCompletion (first_request failing_env initial_state "hello")].
Proof.
  destruct (remote_failure_fallback 0 failing_env "h" "ello" initial_state eq_refl)
    as (_ & Hreply & Hfirst & _).
  destruct (Hfirst (Error "Connection error.") eq_refl) as [Hrun Hcompl].
  split; [|exact Hcompl].
  apply (Hreply _ _ (mkDemo help_text None) _ Hrun). reflexivity.
Defined.

(* ================================================================== *)
(** * More about [prime] *)
(* ================================================================== *)

Section PrimeNumbers.

Local Open Scope Z_scope.

Lemma Zrange_In_iff (lo : Z) (n : nat) (x : Z) :
  In x (Zrange lo n) <-> lo <= x < lo + Z.of_nat n.
Proof.
  split; [apply Zrange_In|].
  revert lo. induction n as [|n IH]; intros lo H; cbn; [lia|].
  destruct (Z.eq_dec lo x) as [-> | Hne]; [left; reflexivity | right].
  apply IH. lia.
Qed.

Lemma exact_divisor_integer (n i : Z) :
  i <> 0 -> (exact_divisor (inject_Z n) i = true <-> (i | n)).
Proof.
  intros Hi. unfold exact_divisor. cbn [Qnum Qden inject_Z].
  rewrite Z.mul_1_r, Z.eqb_eq. apply Z.rem_divide. exact Hi.
Qed.

Lemma isqrt_integer (n : Z) : isqrt (inject_Z n) = Z.sqrt n.
Proof. unfold isqrt. cbn. rewrite Z.div_1_r. reflexivity. Qed.

(** Trial division up to the square root decides primality. *)
Lemma check_prime_spec_prime (n : Z) :
  check_prime_spec (inject_Z n) = true <-> Z.prime n.
Proof.
  unfold check_prime_spec.
  destruct (Qle_bool 2 (inject_Z n)) eqn:Hle.
  - assert (Hn : 2 <= n).
    { apply Qle_bool_iff in Hle. unfold Qle in Hle. cbn in Hle. lia. }
    pose proof (Z.sqrt_spec n ltac:(lia)) as Hs. cbv zeta in Hs.
    assert (Hs1 : 1 <= Z.sqrt n) by (apply Z.sqrt_le_square; lia).
    rewrite negb_true_iff. split.
    + intros Hnone. split; [lia|]. intros d Hd [k Hk].
      assert (Hk1 : 1 < k < n) by nia.
      assert (Hcase : d <= Z.sqrt n \/ k <= Z.sqrt n).
      { destruct (Z.le_gt_cases d (Z.sqrt n)) as [H | H]; [left; exact H | right].
        destruct (Z.le_gt_cases k (Z.sqrt n)) as [H' | H']; [exact H'|]. nia. }
      assert (Hex : exists e, 2 <= e <= Z.sqrt n /\ (e | n)).
      { destruct Hcase; [exists d | exists k]; (split; [lia|]);
          [exists k; exact Hk | exists d; lia]. }
      destruct Hex as (e & He & Hdiv).
      assert (Hin : In e (trial_divisors (inject_Z n))).
      { unfold trial_divisors. rewrite isqrt_integer. apply Zrange_In_iff. lia. }
      assert (Hb : exact_divisor (inject_Z n) e = true)
        by (apply exact_divisor_integer; [lia | exact Hdiv]).
      assert (Htrue : existsb (exact_divisor (inject_Z n)) (trial_divisors (inject_Z n)) = true).
      { apply existsb_exists. exists e. split; assumption. }
      rewrite Htrue in Hnone. discriminate.
    + intros [_ Hp]. apply existsb_none. intros x Hx.
      unfold trial_divisors in Hx. rewrite isqrt_integer in Hx.
      apply Zrange_In_iff in Hx.
      apply not_true_is_false. intros Hb.
      apply exact_divisor_integer in Hb; [|lia].
      apply (Hp x); [nia | exact Hb].
  - split; [discriminate|]. intros [Hn _].
    assert (Hq : Qle_bool 2 (inject_Z n) = true).
    { apply Qle_bool_iff. unfold Qle. cbn. lia. }
    rewrite Hq in Hle. discriminate.
Qed.

(** X1. On every integer [prime] returns, and it returns true exactly on
    the prime numbers. *)
Theorem prime_decides_primality (n : Z) (fuel : nat) :
  (Z.to_nat (Z.sqrt n) <= fuel)%nat ->
  (exists b : bool, prime fuel (Num.of_Z n) = Some b) /\
  (prime fuel (Num.of_Z n) = Some true <-> Z.prime n).
Proof.
  intros Hfuel. unfold Num.of_Z.
  rewrite prime_total by (rewrite isqrt_integer; exact Hfuel).
  split; [eexists; reflexivity|].
  rewrite <- check_prime_spec_prime. split; [intros H; inversion H; reflexivity | intros ->; reflexivity].
Qed.

(** X1, applied to 97, which is prime, with a budget of nine. *)
Lemma prime_decides_primality_witness :
  (exists b : bool, prime 9 (Num.of_Z 97) = Some b) /\
  (prime 9 (Num.of_Z 97) = Some true <-> Z.prime 97).
Proof. apply (prime_decides_primality 97 9). vm_compute. lia. Defined.

End PrimeNumbers.

(* ================================================================== *)
(** * Runs of the offline responder and of the tools *)
(* ================================================================== *)

Section RunShapes.

Variable fuel : nat.
Variable env : Env.

Lemma logged_nil (st : State) : logged st [] = st.
Proof. unfold logged. rewrite app_nil_r. apply state_eta. Qed.

Lemma getcryptoprice_logged (coin : string) (st : State) :
  snd (getcryptoprice env coin st) = logged st [EvFetch (price_url coin)].
Proof.
  rewrite getcryptoprice_run. cbv zeta. unfold logged.
  destruct (fetch env (log st) (price_url coin)) as [r | e]; [|reflexivity].
  destruct (ok r); [|reflexivity]. destruct (json r); reflexivity.
Qed.

(** The price branch: no gate keyword or no coin, the help text and no
    call; otherwise one request for the coin that [parseCoinForPrice]
    resolved. *)
Lemma offline_price_run (text : string) (st : State) :
  let lower := toLowerCase text in
  let r := offline_price env text lower st in
  (includes lower "price" || includes lower "crypto" ||
   includes lower "bitcoin" || includes lower "ethereum" = false ->
   r = (Return (mkDemo help_text None), st)) /\
  (parseCoinForPrice text = None -> r = (Return (mkDemo help_text None), st)) /\
  (forall coin,
      includes lower "price" || includes lower "crypto" ||
      includes lower "bitcoin" || includes lower "ethereum" = true ->
      parseCoinForPrice text = Some coin ->
      snd r = logged st [EvFetch (price_url coin)]).
Proof.
  cbv zeta. unfold offline_price.
  destruct (includes (toLowerCase text) "price" || includes (toLowerCase text) "crypto" ||
            includes (toLowerCase text) "bitcoin" || includes (toLowerCase text) "ethereum").
  - split; [discriminate|].
    destruct (parseCoinForPrice text) as [coin|].
    + split; [discriminate|]. intros coin' _ Hc. inversion Hc; subst coin'.
      unfold bind. pose proof (getcryptoprice_logged coin st) as H.
      destruct (getcryptoprice env coin st) as [[v | e |] st']; exact H.
    + split; [reflexivity | intros coin _ Hc; discriminate].
  - split; [reflexivity|]. split; [intros _; reflexivity | intros coin Hg; discriminate].
Qed.

(** [runOfflineDemo] either leaves the state as it is or has sent the
    price index one request, for the coin that [parseCoinForPrice]
    resolved; it throws only after such a request. *)
Lemma runOfflineDemo_run (text : string) (st : State) :
  (snd (runOfflineDemo fuel env text st) = st /\
   forall e, fst (runOfflineDemo fuel env text st) <> Throw e) \/
  (exists coin, parseCoinForPrice text = Some coin /\
                snd (runOfflineDemo fuel env text st) = logged st [EvFetch (price_url coin)] /\
                includes (toLowerCase text) "price" || includes (toLowerCase text) "crypto" ||
                includes (toLowerCase text) "bitcoin" ||
                includes (toLowerCase text) "ethereum" = true).
Proof.
  unfold runOfflineDemo.
  destruct (parseTwoNumbersForSum env text) as [[num1 num2]|];
    [left; split; [reflexivity | discriminate]|].
  assert (Hprice :
    (snd (offline_price env text (toLowerCase text) st) = st /\
     forall e, fst (offline_price env text (toLowerCase text) st) <> Throw e) \/
    (exists coin, parseCoinForPrice text = Some coin /\
                  snd (offline_price env text (toLowerCase text) st)
                  = logged st [EvFetch (price_url coin)] /\
                  includes (toLowerCase text) "price" || includes (toLowerCase text) "crypto" ||
                  includes (toLowerCase text) "bitcoin" ||
                  includes (toLowerCase text) "ethereum" = true)).
  { destruct (offline_price_run text st) as (Hgate & Hnone & Hstate). cbv zeta in *.
    destruct (includes (toLowerCase text) "price" || includes (toLowerCase text) "crypto" ||
              includes (toLowerCase text) "bitcoin" || includes (toLowerCase text) "ethereum")
      eqn:Hg.
    - destruct (parseCoinForPrice text) as [coin|] eqn:Hcoin.
      + right. exists coin. split; [reflexivity|]. split; [|reflexivity].
        apply Hstate; reflexivity.
      + left. rewrite (Hnone eq_refl). split; [reflexivity | discriminate].
    - left. rewrite (Hgate eq_refl). split; [reflexivity | discriminate]. }
  unfold offline_prime.
  destruct (includes (toLowerCase text) "prime"); [|exact Hprice].
  destruct (parseNumberForPrime env text) as [number|]; [|exact Hprice].
  destruct (prime fuel number); left; (split; [reflexivity | discriminate]).
Qed.

(** A tool invocation is logged and sends the price index at most one
    request; it touches nothing else. *)
Lemma call_tool_run (tool : string) (args : JValue) (st : State) :
  exists fetches : list Event,
    at_most_one_fetch fetches /\
    snd (call_tool fuel env tool args st) = logged st (EvTool tool args :: fetches).
Proof.
  unfold call_tool. unfold bind at 1. unfold record at 1. cbn [History groqClient log].
  set (st1 := mkState (History st) (groqClient st) (log st ++ [EvTool tool args])).
  assert (Hquiet : forall (r : outcome JSValue),
             exists fetches : list Event,
               at_most_one_fetch fetches /\
               snd (r, st1) = logged st (EvTool tool args :: fetches)).
  { intros r. exists []. split; [left; reflexivity | reflexivity]. }
  unfold availableTools, own_property.
  destruct (String.eqb tool "sum").
  { unfold bind, destructure, TypeError, throw, ret. destruct args; apply Hquiet. }
  destruct (String.eqb tool "check_prime_number").
  { unfold bind, destructure, TypeError, throw, ret.
    destruct args; try apply Hquiet;
      match goal with
      | |- context [prime fuel ?n] => destruct (prime fuel n); apply Hquiet
      end. }
  destruct (String.eqb tool "get_crypto_price").
  { assert (Hfetch : forall coin,
               exists fetches : list Event,
                 at_most_one_fetch fetches /\
                 snd (bind (getcryptoprice env coin) (fun price => ret (Some price)) st1)
                 = logged st (EvTool tool args :: fetches)).
    { intros coin. exists [EvFetch (price_url coin)].
      split; [right; eexists; reflexivity|].
      unfold bind. pose proof (getcryptoprice_logged coin st1) as H.
      assert (Hl : logged st1 [EvFetch (price_url coin)]
                   = logged st [EvTool tool args; EvFetch (price_url coin)]).
      { unfold logged, st1. cbn [History groqClient log]. rewrite <- app_assoc. reflexivity. }
      rewrite Hl in H.
      destruct (getcryptoprice env coin st1) as [[v | e |] st']; exact H. }
    unfold bind at 1. unfold destructure, TypeError, throw, ret.
    destruct args; try apply Hquiet; apply Hfetch. }
  unfold of_result. destruct (inherited_call env tool args); apply Hquiet.
Qed.

End RunShapes.

(* ================================================================== *)
(** * Runs of the orchestrator and of the handler *)
(* ================================================================== *)

Section HandlerRuns.

Variable fuel : nat.
Variable env : Env.

Lemma bind_ret {A B} (a : A) (f : A -> M B) (st : State) : bind (ret a) f st = f a st.
Proof. reflexivity. Qed.

(** [runAgent] after the first answer: what it appends and what it calls. *)
Lemma after_first_answer_run (text : string) (response : ChatResponse) (st : State) :
  exists (appended : list Message) (calls : list Event),
    History (snd (after_first_answer fuel env response st)) = (History st ++ appended)%list /\
    groqClient (snd (after_first_answer fuel env response st)) = groqClient st /\
    log (snd (after_first_answer fuel env response st)) = (log st ++ calls)%list /\
    agent_calls env calls /\
    request_appends text (user_message text :: appended).
Proof.
  assert (Hquiet : forall (r : outcome Reply),
             exists (appended : list Message) (calls : list Event),
               History (snd (r, st)) = (History st ++ appended)%list /\
               groqClient (snd (r, st)) = groqClient st /\
               log (snd (r, st)) = (log st ++ calls)%list /\
               agent_calls env calls /\
               request_appends text (user_message text :: appended)).
  { intros r. exists [], []. rewrite !app_nil_r.
    repeat split; constructor. }
  assert (Hplain : forall (msg : Message),
             exists (appended : list Message) (calls : list Event),
               History (snd (bind (push_content (Some msg))
                               (fun _ => ret (mkReply (content msg) None)) st))
               = (History st ++ appended)%list /\
               groqClient (snd (bind (push_content (Some msg))
                               (fun _ => ret (mkReply (content msg) None)) st))
               = groqClient st /\
               log (snd (bind (push_content (Some msg))
                               (fun _ => ret (mkReply (content msg) None)) st))
               = (log st ++ calls)%list /\
               agent_calls env calls /\
               request_appends text (user_message text :: appended)).
  { intros msg. unfold push_content, bind.
    destruct (content msg) as [answer|]; [|apply Hquiet].
    destruct (String.eqb answer ""); [apply Hquiet|].
    exists [assistant_message answer], []. cbn. rewrite app_nil_r.
    repeat split; constructor. }
  unfold after_first_answer, first_message.
  destruct (choices response) as [|c cs]; [apply Hquiet|].
  rewrite bind_ret. destruct (choice_message c) as [msg|]; [|apply Hquiet].
  destruct (tool_calls msg) as [[|tc rest]|] eqn:Htc; [apply Hplain | | apply Hplain].
  rewrite tool_round_run.
  destruct (JSON_parse env (arguments (function tc))) as [args | e]; [|apply Hquiet].
  destruct (call_tool_run fuel env (name (function tc)) args st) as (fetches & Hone & Hst).
  destruct (call_tool fuel env (name (function tc)) args st) as [[result | e |] s2];
    cbn [snd] in Hst; subst s2.
  - destruct (after_tool_run env msg tc args result
                (logged st (EvTool (name (function tc)) args :: fetches)))
      as (out & final & Hrun & Hfinal & _).
    rewrite Hrun. cbn [snd History groqClient log logged].
    exists ([msg; tool_message (id tc) (JSON_stringify env result)] ++ final)%list.
    eexists. split; [rewrite app_assoc; reflexivity|]. split; [reflexivity|].
    split; [rewrite <- app_assoc; reflexivity|].
    split; [cbn [app]; apply calls_tool_second; exact Hone|].
    destruct Hfinal as [-> | [answer ->]]; cbn [app];
      [eapply appends_tool | eapply appends_tool_answer]; exact Htc.
  - exists [], (EvTool (name (function tc)) args :: fetches). rewrite app_nil_r.
    repeat split; constructor; exact Hone.
  - exists [], (EvTool (name (function tc)) args :: fetches). rewrite app_nil_r.
    repeat split; constructor; exact Hone.
Qed.

(** One run of [runAgent] with a configured provider: the user message is
    appended first, the first request is sent first. *)
Lemma runAgent_run (text : string) (st : State) :
  provider_configured env st = true ->
  exists (appended : list Message) (calls : list Event),
    History (snd (runAgent fuel env text st)) =
      (History st ++ user_message text :: appended)%list /\
    groqClient (snd (runAgent fuel env text st)) = true /\
    log (snd (runAgent fuel env text st)) =
      (log st ++ EvCompletion (first_request env st text) :: calls)%list /\
    agent_calls env calls /\
    request_appends text (user_message text :: appended).
Proof.
  intros Hconf. rewrite runAgent_first_round by exact Hconf.
  destruct (completions_create env (log st) (first_request env st text)) as [response | e].
  - destruct (after_first_answer_run text response (after_first_request env st text))
      as (appended & calls & Hh & Hc & Hl & Hcalls & Happ).
    exists appended, calls. rewrite Hh, Hc, Hl. unfold after_first_request.
    cbn [History groqClient log]. rewrite <- !app_assoc.
    repeat split; assumption.
  - exists [], []. unfold after_first_request. cbn [snd History groqClient log].
    repeat split; constructor.
Qed.

(** Without a configured provider [runAgent] throws at once. *)
Lemma runAgent_unconfigured (text : string) (st : State) :
  provider_configured env st = false ->
  runAgent fuel env text st =
  (Throw (Error "GROQ_API_KEY is not configured on the server."), st).
Proof.
  unfold provider_configured, runAgent, getGroqClient, bind. intros H.
  apply orb_false_iff in H as [Hc Hk]. rewrite Hc, Hk. reflexivity.
Qed.

End HandlerRuns.

(* ================================================================== *)
(** * The transcript is never rolled back *)
(* ================================================================== *)

Section TranscriptNoRollback.

Variable fuel : nat.
Variable env : Env.



End TranscriptNoRollback.



(* ================================================================== *)
(** * Further properties of the handler *)
(* ================================================================== *)

Section HandlerProperties.

Variable fuel : nat.
Variable env : Env.

(** The handler reads nothing of the request but the message. *)
Lemma chatHandler_message (req : HttpRequest) (c : ascii) (rest : string) (st : State) :
  body_message req = Some (JStr (String c rest)) ->
  chatHandler fuel env req st = chatHandler fuel env (chat_request (String c rest)) st.
Proof.
  intros H. unfold chatHandler. rewrite H.
  change (body_message (chat_request (String c rest))) with (Some (JStr (String c rest))).
  reflexivity.
Qed.

Lemma chatHandler_rejects (req : HttpRequest) (st : State) :
  (forall c rest, body_message req <> Some (JStr (String c rest))) ->
  chatHandler fuel env req st = (Return missing_message, st).
Proof.
  intros H. unfold chatHandler.
  destruct (body_message req) as [[| | | s | |]|]; try reflexivity.
  destruct s as [|c rest]; [reflexivity|]. exfalso. apply (H c rest). reflexivity.
Qed.

(** The three ways a request is handled. *)
Lemma chatHandler_cases (req : HttpRequest) :
  (forall c rest, body_message req <> Some (JStr (String c rest))) \/
  (exists c rest, body_message req = Some (JStr (String c rest))).
Proof.
  destruct (body_message req) as [[| | | s | |]|];
    try (left; intros c rest; discriminate).
  destruct s as [|c rest]; [left; intros c rest; discriminate|].
  right. exists c, rest. reflexivity.
Qed.

Lemma key_cases : truthy_string (GROQ_API_KEY env) = true \/
                  truthy_string (GROQ_API_KEY env) = false.
Proof. destruct (truthy_string (GROQ_API_KEY env)); auto. Qed.

(** X2. [chatHandler] catches every exception: it never throws, and the
    status of its reply is 200, 400 or 500. *)
Theorem chatHandler_never_throws (req : HttpRequest) (st : State) :
  match fst (chatHandler fuel env req st) with
  | Return resp => status resp = 200%nat \/ status resp = 400%nat \/ status resp = 500%nat
  | Throw _ => False
  | Diverge => True
  end.
Proof.
  destruct (chatHandler_cases req) as [Hbad | (c & rest & Hmsg)].
  - rewrite chatHandler_rejects by exact Hbad. cbn. auto.
  - rewrite (chatHandler_message req c rest st Hmsg).
    destruct key_cases as [Hkey | Hkey].
    + rewrite chatHandler_key by exact Hkey.
      destruct (runAgent fuel env (String c rest) st) as [[result | err |] st1];
        cbn; auto.
      destruct (runOfflineDemo fuel env (String c rest) st1) as [[demo | e |] st2];
        cbn; auto.
    + rewrite chatHandler_no_key by exact Hkey.
      destruct (runOfflineDemo fuel env (String c rest) st) as [[demo | e |] st1];
        cbn; auto.
Qed.

(** X3. Without a provider key no request reaches the provider or a tool
    of the registry: the transcript and the cached client stay as they are
    and at most one request goes to the price index.  [runAgent] itself,
    called without a configured provider, throws before it appends the
    user message. *)
Theorem offline_mode_is_isolated (req : HttpRequest) (text : string) (st : State) :
  truthy_string (GROQ_API_KEY env) = false ->
  (exists fetches : list Event,
      at_most_one_fetch fetches /\
      snd (chatHandler fuel env req st) = logged st fetches) /\
  (groqClient st = false ->
   runAgent fuel env text st =
   (Throw (Error "GROQ_API_KEY is not configured on the server."), st)).
Proof.
  intros Hkey. split.
  - destruct (chatHandler_cases req) as [Hbad | (c & rest & Hmsg)].
    + rewrite chatHandler_rejects by exact Hbad. exists []. rewrite logged_nil.
      split; [left; reflexivity | reflexivity].
    + rewrite (chatHandler_message req c rest st Hmsg).
      rewrite chatHandler_no_key by exact Hkey.
      destruct (runOfflineDemo_run fuel env (String c rest) st)
        as [[Hst _] | (coin & _ & Hst & _)].
      * exists []. rewrite logged_nil. split; [left; reflexivity|].
        destruct (runOfflineDemo fuel env (String c rest) st) as [[demo | e |] st1];
          exact Hst.
      * exists [EvFetch (price_url coin)]. split; [right; eexists; reflexivity|].
        destruct (runOfflineDemo fuel env (String c rest) st) as [[demo | e |] st1];
          exact Hst.
  - intros Hclient. apply runAgent_unconfigured.
    unfold provider_configured. rewrite Hclient, Hkey. reflexivity.
Qed.

(** X4. A message without any of the keywords "price", "crypto",
    "bitcoin", "ethereum" is never answered with an error status: the
    reply, if there is one, has status 200, whatever the provider and the
    price index do. *)
Theorem no_price_keyword_no_error (c : ascii) (rest : string) (st : State) :
  includes (toLowerCase (String c rest)) "price" ||
  includes (toLowerCase (String c rest)) "crypto" ||
  includes (toLowerCase (String c rest)) "bitcoin" ||
  includes (toLowerCase (String c rest)) "ethereum" = false ->
  match fst (chatHandler fuel env (chat_request (String c rest)) st) with
  | Return resp => status resp = 200%nat
  | Throw _ => False
  | Diverge => True
  end.
Proof.
  intros Hgate.
  assert (Hoff : forall st1,
             match fst (runOfflineDemo fuel env (String c rest) st1) with
             | Throw _ => False
             | _ => True
             end).
  { intros st1.
    destruct (runOfflineDemo_run fuel env (String c rest) st1)
      as [[_ Hno] | (coin & _ & _ & Hg)].
    - destruct (fst (runOfflineDemo fuel env (String c rest) st1)) as [demo | e |];
        try exact I. apply (Hno e). reflexivity.
    - rewrite Hgate in Hg. discriminate. }
  destruct key_cases as [Hkey | Hkey].
  - rewrite chatHandler_key by exact Hkey.
    destruct (runAgent fuel env (String c rest) st) as [[result | err |] st1];
      cbn; auto.
    specialize (Hoff st1).
    destruct (runOfflineDemo fuel env (String c rest) st1) as [[demo | e |] st2];
      cbn in *; auto; contradiction.
  - rewrite chatHandler_no_key by exact Hkey.
    specialize (Hoff st).
    destruct (runOfflineDemo fuel env (String c rest) st) as [[demo | e |] st1];
      cbn in *; auto; contradiction.
Qed.

End HandlerProperties.

(** X3, applied to a request for the price of bitcoin without a key. *)
Lemma offline_mode_is_isolated_witness :
  (exists fetches : list Event,
      at_most_one_fetch fetches /\
      snd (chatHandler 0 (offline_env price_index_up) (chat_request "Bitcoin price") initial_state)
      = logged initial_state fetches) /\
  (groqClient initial_state = false ->
   runAgent 0 (offline_env price_index_up) "Bitcoin price" initial_state =
   (Throw (Error "GROQ_API_KEY is not configured on the server."), initial_state)).
Proof.
  apply (offline_mode_is_isolated 0 (offline_env price_index_up)
           (chat_request "Bitcoin price") "Bitcoin price" initial_state).
  reflexivity.
Defined.

(** X4, applied to the message "hello" and a provider that fails. *)
Lemma no_price_keyword_no_error_witness :
  match fst (chatHandler 0 failing_env (chat_request "hello") initial_state) with
  | Return resp => status resp = 200%nat
  | Throw _ => False
  | Diverge => True
  end.
Proof.
  apply (no_price_keyword_no_error 0 failing_env "h"%char "ello" initial_state).
  reflexivity.
Defined.

(* ================================================================== *)
(** * Further properties of the transcript and of the calls *)
(* ================================================================== *)

Section TranscriptProperties.

Variable fuel : nat.
Variable env : Env.

(** Without a provider key the handler changes nothing but the log of
    requests to the price index. *)
Lemma offline_mode_frame (req : HttpRequest) (st : State) :
  truthy_string (GROQ_API_KEY env) = false ->
  exists fetches : list Event,
    at_most_one_fetch fetches /\
    snd (chatHandler fuel env req st) = logged st fetches.
Proof.
  intros Hkey.
  destruct (chatHandler_cases req) as [Hbad | (c & rest & Hmsg)].
  - rewrite chatHandler_rejects by exact Hbad. exists []. rewrite logged_nil.
    split; [left; reflexivity | reflexivity].
  - rewrite (chatHandler_message fuel env req c rest st Hmsg).
    rewrite chatHandler_no_key by exact Hkey.
    destruct (runOfflineDemo_run fuel env (String c rest) st)
      as [[Hst _] | (coin & _ & Hst & _)].
    + exists []. rewrite logged_nil. split; [left; reflexivity|].
      destruct (runOfflineDemo fuel env (String c rest) st) as [[demo | e |] st1];
        exact Hst.
    + exists [EvFetch (price_url coin)]. split; [right; eexists; reflexivity|].
      destruct (runOfflineDemo fuel env (String c rest) st) as [[demo | e |] st1];
        exact Hst.
Qed.

(** What the handler leaves behind with a provider key and a message. *)
Lemma chatHandler_key_run (c : ascii) (rest : string) (st : State) :
  truthy_string (GROQ_API_KEY env) = true ->
  exists (appended : list Message) (calls fetches : list Event),
    History (snd (chatHandler fuel env (chat_request (String c rest)) st)) =
      (History st ++ user_message (String c rest) :: appended)%list /\
    log (snd (chatHandler fuel env (chat_request (String c rest)) st)) =
      (log st ++ EvCompletion (first_request env st (String c rest)) :: calls ++ fetches)%list /\
    agent_calls env calls /\
    at_most_one_fetch fetches /\
    request_appends (String c rest) (user_message (String c rest) :: appended).
Proof.
  intros Hkey. rewrite chatHandler_key by exact Hkey.
  destruct (runAgent_run fuel env (String c rest) st (key_configures env st Hkey))
    as (appended & calls & Hh & _ & Hl & Hcalls & Happ).
  exists appended, calls.
  destruct (runAgent fuel env (String c rest) st) as [[result | err |] st1];
    cbn [snd] in *.
  - exists []. rewrite app_nil_r. repeat split; try assumption. left; reflexivity.
  - destruct (fallback_reply_log err (runOfflineDemo fuel env (String c rest) st1))
      as [-> ->].
    destruct (runOfflineDemo_run fuel env (String c rest) st1)
      as [[-> _] | (coin & _ & -> & _)].
    + exists []. rewrite app_nil_r. repeat split; try assumption. left; reflexivity.
    + exists [EvFetch (price_url coin)]. unfold logged. cbn [History log].
      rewrite Hh, Hl. rewrite <- app_assoc. cbn [app].
      repeat split; try assumption. right; eexists; reflexivity.
  - exists []. rewrite app_nil_r. repeat split; try assumption. left; reflexivity.
Qed.

(** What a request appends, for every request. *)
Lemma chatHandler_appends (req : HttpRequest) (st : State) :
  exists (text : string) (appended : list Message),
    History (snd (chatHandler fuel env req st)) = (History st ++ appended)%list /\
    request_appends text appended.
Proof.
  destruct (chatHandler_cases req) as [Hbad | (c & rest & Hmsg)].
  - rewrite chatHandler_rejects by exact Hbad. exists "", [].
    rewrite app_nil_r. split; [reflexivity | constructor].
  - destruct (key_cases env) as [Hkey | Hkey].
    + rewrite (chatHandler_message fuel env req c rest st Hmsg).
      destruct (chatHandler_key_run c rest st Hkey) as (appended & _ & _ & Hh & _ & _ & _ & Happ).
      exists (String c rest), (user_message (String c rest) :: appended).
      split; assumption.
    + destruct (offline_mode_frame req st Hkey) as (fetches & _ & Hst).
      rewrite Hst. exists "", []. rewrite app_nil_r. split; [reflexivity | constructor].
Qed.

(** X5. One request appends to the transcript either nothing, or the user
    message alone, or the user message followed by the answer, or the user
    message followed by the provider's tool request and the tool message
    for its first entry, or these three followed by the final answer.  With
    a provider key and a message the user message is always appended. *)
Theorem request_appends_one_of_five (req : HttpRequest) (st : State) :
  (exists (text : string) (appended : list Message),
      History (snd (chatHandler fuel env req st)) = (History st ++ appended)%list /\
      request_appends text appended) /\
  (forall c rest,
      truthy_string (GROQ_API_KEY env) = true ->
      body_message req = Some (JStr (String c rest)) ->
      exists appended,
        History (snd (chatHandler fuel env req st)) =
          (History st ++ user_message (String c rest) :: appended)%list /\
        request_appends (String c rest) (user_message (String c rest) :: appended)).
Proof.
  assert (Hkeyed : forall c rest,
             truthy_string (GROQ_API_KEY env) = true ->
             body_message req = Some (JStr (String c rest)) ->
             exists appended,
               History (snd (chatHandler fuel env req st)) =
                 (History st ++ user_message (String c rest) :: appended)%list /\
               request_appends (String c rest) (user_message (String c rest) :: appended)).
  { intros c rest Hkey Hmsg. rewrite (chatHandler_message fuel env req c rest st Hmsg).
    destruct (chatHandler_key_run c rest st Hkey) as (appended & _ & _ & Hh & _ & _ & _ & Happ).
    exists appended. split; assumption. }
  split; [apply chatHandler_appends | exact Hkeyed].
Qed.

Lemma paired_from_app (l1 l2 : list Message) :
  forall prev,
    paired_from prev (l1 ++ l2) =
    paired_from prev l1 && paired_from (fold_left (fun _ t => Some t) l1 prev) l2.
Proof.
  induction l1 as [|t l1 IH]; intros prev; [reflexivity|].
  cbn [app paired_from fold_left]. rewrite IH, andb_assoc. reflexivity.
Qed.

Lemma request_appends_paired (text : string) (appended : list Message) :
  request_appends text appended -> forall prev, paired_from prev appended = true.
Proof.
  intros H prev. destruct H as [| | answer | m tc rest result Htc | m tc rest result answer Htc];
    try reflexivity.
  - cbn. unfold is_tool_result, requests_tools, answers. rewrite Htc. cbn.
    rewrite String.eqb_refl. rewrite andb_false_r. reflexivity.
  - cbn. unfold is_tool_result, requests_tools, answers. rewrite Htc. cbn.
    rewrite String.eqb_refl. rewrite andb_false_r. reflexivity.
Qed.

Lemma last_entry (l : list Message) (m : Message) :
  fold_left (fun _ t => Some t) l None = Some m -> exists l', l = (l' ++ [m])%list.
Proof.
  destruct l as [|x l] using rev_ind; [discriminate|].
  rewrite fold_left_app. cbn. intros H. inversion H. exists l. reflexivity.
Qed.

(** What [tool_paired] says of each entry. *)
Lemma tool_paired_at (H pre post : list Message) (t : Message) :
  tool_paired H = true -> H = (pre ++ t :: post)%list ->
  String.eqb (role t) "tool" = true ->
  requests_tools t = true \/
  exists pre' m, pre = (pre' ++ [m])%list /\ answers m t = true.
Proof.
  intros Hp -> Hrole. unfold tool_paired in Hp. rewrite paired_from_app in Hp.
  apply andb_true_iff in Hp as [_ Hp]. cbn [paired_from] in Hp.
  apply andb_true_iff in Hp as [Hp _].
  unfold is_tool_result in Hp. rewrite Hrole in Hp. cbn [andb] in Hp.
  destruct (requests_tools t); [left; reflexivity | right]. cbn [negb] in Hp.
  destruct (fold_left (fun _ t0 => Some t0) pre None) as [m|] eqn:Hlast; [|discriminate].
  destruct (last_entry pre m Hlast) as [pre' ->]. exists pre', m. split; [reflexivity | exact Hp].
Qed.

(** X6. Every message with role "tool" in the transcript either requests
    tool invocations itself, and then is a message of the provider that
    was appended as it came, or stands right after the message whose first
    requested invocation it answers: its [tool_call_id] is the [id] of that
    invocation.  The handler keeps this, and so it holds after any
    sequence of requests served from the initial state. *)
Theorem tool_messages_are_paired :
  (forall (req : HttpRequest) (st : State),
      tool_paired (History st) = true ->
      tool_paired (History (snd (chatHandler fuel env req st))) = true) /\
  (forall reqs : list (string * HttpRequest),
      tool_paired (History (serve fuel env reqs initial_state)) = true) /\
  (forall (reqs : list (string * HttpRequest)) (pre post : list Message) (t : Message),
      History (serve fuel env reqs initial_state) = (pre ++ t :: post)%list ->
      role t = "tool" ->
      requests_tools t = true \/
      exists pre' m tc tcs,
        pre = (pre' ++ [m])%list /\
        tool_calls m = Some (tc :: tcs) /\ tool_call_id t = Some (id tc)).
Proof.
  assert (Hstep : forall (req : HttpRequest) (st : State),
             tool_paired (History st) = true ->
             tool_paired (History (snd (chatHandler fuel env req st))) = true).
  { intros req st Hinv.
    destruct (chatHandler_appends req st) as (text & appended & Hh & Happ).
    rewrite Hh. unfold tool_paired in *. rewrite paired_from_app, Hinv.
    apply (request_appends_paired text appended Happ). }
  assert (Hserve : forall reqs st,
             tool_paired (History st) = true ->
             tool_paired (History (serve fuel env reqs st)) = true).
  { induction reqs as [|[path req] reqs IH]; intros st Hinv; cbn [serve]; [exact Hinv|].
    unfold POST, post_routes, own_property.
    destruct (String.eqb path "/chat");
      [|destruct (String.eqb path "/api/chat"); [|apply IH; exact Hinv]];
      apply IH; apply Hstep; exact Hinv. }
  split; [exact Hstep|]. split; [intros reqs; apply Hserve; reflexivity|].
  intros reqs pre post t Hh Hrole.
  assert (Hr : String.eqb (role t) "tool" = true) by (rewrite Hrole; reflexivity).
  destruct (tool_paired_at _ pre post t (Hserve reqs initial_state eq_refl) Hh Hr)
    as [Hreq | (pre' & m & Hpre & Hans)]; [left; exact Hreq | right].
  unfold answers in Hans.
  destruct (tool_calls m) as [[|tc tcs]|] eqn:Htc; try discriminate.
  destruct (tool_call_id t) as [call_id|] eqn:Hid; [|discriminate].
  apply String.eqb_eq in Hans. subst call_id.
  exists pre', m, tc, tcs. repeat split; assumption.
Qed.

End TranscriptProperties.

Section CallProperties.

Variable fuel : nat.
Variable env : Env.

Lemma one_fetch_counts (l : list Event) :
  at_most_one_fetch l ->
  completions l = [] /\ invocations l = [] /\ (List.length (fetches_of l) <= 1)%nat.
Proof. intros [-> | [url ->]]; cbn; repeat split; lia. Qed.

Lemma no_completion_among_fetches (l : list Event) (r : ChatRequest) :
  at_most_one_fetch l -> ~ In (EvCompletion r) l.
Proof.
  intros [-> | [url ->]] H; cbn in H; [exact H|]. destruct H as [H | []]. discriminate.
Qed.

Lemma agent_calls_counts (calls : list Event) :
  agent_calls env calls ->
  (List.length (completions calls) <= 1)%nat /\
  (List.length (invocations calls) <= 1)%nat /\
  (List.length (fetches_of calls) <= 1)%nat /\
  (forall r, In (EvCompletion r) calls -> model r = MODEL env /\ req_tools r = None).
Proof.
  intros [| tool args fetches Hone | tool args fetches T Hone].
  - cbn. split; [lia|]. split; [lia|]. split; [lia|]. intros r [].
  - destruct (one_fetch_counts fetches Hone) as (Hc & Hi & Hf).
    unfold completions, invocations, fetches_of in *. cbn [filter is_completion is_tool is_fetch].
    rewrite Hc, Hi. cbn [List.length].
    split; [lia|]. split; [lia|]. split; [lia|].
    intros r [Hr | Hr]; [discriminate|].
    exfalso. exact (no_completion_among_fetches fetches r Hone Hr).
  - destruct (one_fetch_counts fetches Hone) as (Hc & Hi & Hf).
    unfold completions, invocations, fetches_of in *. cbn [filter is_completion is_tool is_fetch].
    rewrite !filter_app, Hc, Hi. cbn [filter is_completion is_tool is_fetch app List.length].
    rewrite length_app. cbn [List.length].
    split; [lia|]. split; [lia|]. split; [lia|].
    intros r [Hr | Hr]; [discriminate|].
    apply in_app_or in Hr. destruct Hr as [Hr | [Hr | []]].
    + exfalso. exact (no_completion_among_fetches fetches r Hone Hr).
    + inversion Hr. split; reflexivity.
Qed.

Lemma fetches_are_neither (l : list Event) :
  at_most_one_fetch l -> provider_and_tool_calls l = [].
Proof. intros [-> | [url ->]]; reflexivity. Qed.

(** X7. One request costs at most two requests to the provider, one tool
    invocation and two requests to the price index, in this order: the
    first request to the provider comes before the tool invocation, a
    second request comes only after it.  The requests to the provider name
    the same model; the first offers the tool catalogue with automatic
    choice, the second offers no tool. *)
Theorem request_budget (req : HttpRequest) (st : State) :
  exists new : list Event,
    log (snd (chatHandler fuel env req st)) = (log st ++ new)%list /\
    (List.length (completions new) <= 2)%nat /\
    (List.length (invocations new) <= 1)%nat /\
    (List.length (fetches_of new) <= 2)%nat /\
    match provider_and_tool_calls new with
    | [] => True
    | [EvCompletion r1] => offers_tools env r1
    | [EvCompletion r1; EvTool _ _] => offers_tools env r1
    | [EvCompletion r1; EvTool _ _; EvCompletion r2] =>
        offers_tools env r1 /\ offers_no_tool env r2
    | _ => False
    end.
Proof.
  destruct (chatHandler_cases req) as [Hbad | (c & rest & Hmsg)].
  { rewrite chatHandler_rejects by exact Hbad. exists []. rewrite app_nil_r.
    cbn. split; [reflexivity|]. split; [lia|]. split; [lia|]. split; [lia | exact I]. }
  rewrite (chatHandler_message fuel env req c rest st Hmsg).
  destruct (key_cases env) as [Hkey | Hkey].
  - destruct (chatHandler_key_run fuel env c rest st Hkey)
      as (appended & calls & fetches & _ & Hl & Hcalls & Hone & _).
    exists (EvCompletion (first_request env st (String c rest)) :: calls ++ fetches).
    split; [exact Hl|].
    destruct (agent_calls_counts calls Hcalls) as (Hc & Hi & Hf & Hm).
    destruct (one_fetch_counts fetches Hone) as (Hc' & Hi' & Hf').
    split; [|split; [|split]].
    + unfold completions in *. cbn [filter is_completion]. rewrite filter_app, Hc'.
      rewrite app_nil_r. cbn [List.length]. lia.
    + unfold invocations in *. cbn [filter is_tool]. rewrite filter_app, Hi'.
      rewrite app_nil_r. lia.
    + unfold fetches_of in *. cbn [filter is_fetch]. rewrite filter_app, length_app. lia.
    + unfold provider_and_tool_calls. cbn [filter is_fetch negb]. rewrite filter_app.
      fold (provider_and_tool_calls fetches). rewrite (fetches_are_neither fetches Hone).
      rewrite app_nil_r.
      assert (Hfirst : offers_tools env (first_request env st (String c rest)))
        by (repeat split).
      destruct Hcalls as [| tool args fs Hfs | tool args fs T Hfs].
      * exact Hfirst.
      * cbn [filter is_fetch negb]. fold (provider_and_tool_calls fs).
        rewrite (fetches_are_neither fs Hfs). exact Hfirst.
      * cbn [filter is_fetch negb]. rewrite filter_app.
        fold (provider_and_tool_calls fs). rewrite (fetches_are_neither fs Hfs).
        cbn. split; [exact Hfirst | repeat split].
  - destruct (offline_mode_frame fuel env (chat_request (String c rest)) st Hkey)
      as (fetches & Hone & Hst).
    rewrite Hst. exists fetches. split; [reflexivity|].
    destruct (one_fetch_counts fetches Hone) as (Hc & Hi & Hf).
    rewrite Hc, Hi, (fetches_are_neither fetches Hone). cbn [List.length].
    split; [lia|]. split; [lia|]. split; [lia | exact I].
Qed.

(** X8. When the first answer of a configured provider requests no tool,
    [runAgent] sends no second request and invokes no tool: it returns the
    content of the answer with no tool call, after appending the user
    message and, unless the content is missing or empty, the answer. *)
Theorem plain_answer (text : string) (st : State) (response : ChatResponse)
    (c : Choice) (cs : list Choice) (msg : Message) :
  provider_configured env st = true ->
  completions_create env (log st) (first_request env st text) = Ok response ->
  choices response = c :: cs ->
  choice_message c = Some msg ->
  tool_calls msg = None \/ tool_calls msg = Some [] ->
  runAgent fuel env text st =
  (Return (mkReply (content msg) None),
   mkState (History st ++ user_message text ::
              match content msg with
              | Some answer => if String.eqb answer "" then [] else [assistant_message answer]
              | None => []
              end)
           true
           (log st ++ [EvCompletion (first_request env st text)])).
Proof.
  intros Hconf Hresp Hc Hm Htc.
  rewrite runAgent_first_round by exact Hconf. rewrite Hresp.
  unfold after_first_answer, first_message. rewrite Hc, bind_ret, Hm.
  assert (Hplain : bind (push_content (Some msg))
                        (fun _ => ret (mkReply (content msg) None))
                        (after_first_request env st text) =
                   (Return (mkReply (content msg) None),
                    mkState (History st ++ user_message text ::
                               match content msg with
                               | Some answer =>
                                   if String.eqb answer "" then [] else [assistant_message answer]
                               | None => []
                               end)
                            true
                            (log st ++ [EvCompletion (first_request env st text)]))).
  { unfold push_content, bind, after_first_request.
    destruct (content msg) as [answer|]; [|reflexivity].
    destruct (String.eqb answer ""); [reflexivity|].
    cbn. rewrite <- app_assoc. reflexivity. }
  destruct Htc as [-> | ->]; exact Hplain.
Qed.

(** X9. When the first answer requests a tool, its arguments parse, the
    tool returns and the second answer carries a message, the handler
    replies with status 200, the content of the second answer and the name
    and arguments of the tool; the transcript has grown by the user
    message, the provider's request, the tool message and, unless the
    content is missing or empty, the final answer. *)
Theorem tool_answer (c : ascii) (rest : string) (st : State)
    (response : ChatResponse) (ch : Choice) (chs : list Choice) (m : Message)
    (tc : ToolCall) (tcs : list ToolCall) (args : JValue) (result : JSValue) (s2 : State)
    (response2 : ChatResponse) (ch2 : Choice) (chs2 : list Choice) (fm : Message) :
  truthy_string (GROQ_API_KEY env) = true ->
  let text := String c rest in
  completions_create env (log st) (first_request env st text) = Ok response ->
  choices response = ch :: chs ->
  choice_message ch = Some m ->
  tool_calls m = Some (tc :: tcs) ->
  JSON_parse env (arguments (function tc)) = Ok args ->
  call_tool fuel env (name (function tc)) args (after_first_request env st text)
    = (Return result, s2) ->
  let T := (History st ++ [user_message text; m;
                           tool_message (id tc) (JSON_stringify env result)])%list in
  completions_create env (log s2) (second_request env T) = Ok response2 ->
  choices response2 = ch2 :: chs2 ->
  choice_message ch2 = Some fm ->
  chatHandler fuel env (chat_request text) st =
  (Return (mkHttpResponse 200
             (ChatBody (content fm)
                       (Some (mkToolCallInfo (name (function tc)) args)))),
   mkState (T ++ match content fm with
                 | Some answer => if String.eqb answer "" then [] else [assistant_message answer]
                 | None => []
                 end)
           true
           (log s2 ++ [EvCompletion (second_request env T)])).
Proof.
  intros Hkey text Hresp Hch Hm Htc Hargs Hcall T Hresp2 Hch2 Hfm. subst text.
  rewrite chatHandler_key by exact Hkey.
  rewrite runAgent_first_round by (apply key_configures; exact Hkey).
  rewrite Hresp.
  rewrite (after_first_answer_tool fuel env response ch chs m tc tcs) by assumption.
  rewrite tool_round_run, Hargs, Hcall.
  destruct (call_tool_frame fuel env (name (function tc)) args
              (after_first_request env st (String c rest)))
    as (Hhist & Hclient & _).
  rewrite Hcall in Hhist, Hclient. cbn [snd] in Hhist, Hclient.
  assert (HT : (History s2 ++ [m; tool_message (id tc) (JSON_stringify env result)])%list = T).
  { rewrite Hhist. unfold after_first_request, T. cbn [History].
    rewrite <- app_assoc. reflexivity. }
  unfold after_tool.
  unfold bind at 1. unfold push at 1. cbn [History groqClient log].
  unfold bind at 1. unfold push at 1. cbn [History groqClient log].
  unfold bind at 1. unfold get_History at 1. cbn [History groqClient log].
  unfold bind at 1. unfold create at 1. unfold bind at 1. unfold get_log at 1.
  cbn [History groqClient log]. unfold bind at 1. unfold record at 1.
  cbn [History groqClient log].
  replace ((History s2 ++ [m]) ++ [tool_message (id tc) (JSON_stringify env result)])%list
    with T by (rewrite <- HT, <- app_assoc; reflexivity).
  fold (second_request env T). rewrite Hresp2. cbn [of_result ret].
  unfold bind at 1. unfold first_message. rewrite Hch2. cbn [ret].
  unfold bind at 1. rewrite Hfm. rewrite Hclient.
  unfold push_content, after_first_request. cbn [groqClient].
  destruct (content fm) as [answer|]; [|rewrite app_nil_r; reflexivity].
  destruct (String.eqb answer ""); [rewrite app_nil_r; reflexivity | reflexivity].
Qed.

End CallProperties.

(* ================================================================== *)
(** * Further properties of the parsers *)
(* ================================================================== *)

Section ParserProperties.

Lemma includes_here (sub suf : string) : includes (sub ++ suf) sub = true.
Proof.
  assert (Hp : prefix sub (sub ++ suf) = true).
  { apply prefix_correct. apply substring_prefix. }
  destruct (sub ++ suf); cbn [includes]; rewrite Hp; reflexivity.
Qed.

Lemma includes_middle (pre sub suf : string) : includes (pre ++ sub ++ suf) sub = true.
Proof.
  induction pre as [|c pre IH]; cbn [append]; [apply includes_here|].
  cbn [includes]. rewrite IH. destruct (prefix sub (String c (pre ++ sub ++ suf))); reflexivity.
Qed.

Lemma no_digit_split (text : string) :
  no_digit text = false ->
  exists pre d suf, text = pre ++ String d suf /\ is_digit d = true.
Proof.
  unfold no_digit. induction text as [|c text IH]; cbn; [discriminate|].
  destruct (is_digit c) eqn:Hc; cbn.
  - intros _. exists "", c, text. split; [reflexivity | exact Hc].
  - intros H. destruct (IH H) as (pre & d & suf & -> & Hd).
    exists (String c pre), d, suf. split; [reflexivity | exact Hd].
Qed.

Lemma number_token_has_digit (a : string) : number_token a -> no_digit a = false.
Proof.
  intros (sign & ds & frac & -> & _ & [Hne Hds] & _). unfold no_digit.
  rewrite !all_chars_app. destruct ds as [|d ds]; [contradiction|].
  cbn in Hds |- *. apply andb_true_iff in Hds as [Hd _]. rewrite Hd. cbn.
  rewrite andb_false_r. reflexivity.
Qed.

Lemma single_digit_token (d : ascii) : is_digit d = true -> number_token (String d "").
Proof.
  intros Hd. exists "", (String d ""), "". split; [reflexivity|].
  split; [left; reflexivity|]. split; [|left; reflexivity].
  split; [discriminate|]. cbn. rewrite Hd. reflexivity.
Qed.

(** X10. [parseTwoNumbersForSum] answers exactly on the texts that hold a
    number, optional white space, [+], optional white space and a number.
    Its answer is read from the first sum expression of the text, with the
    second number as long as it can be: each of the two numbers is the
    binary64 value nearest to the decimal value of its token, an infinity
    beyond the range.  No conversion of another string is consulted. *)
Theorem parseTwoNumbersForSum_exact (env : Env) (text : string) :
  ((exists pair, parseTwoNumbersForSum env text = Some pair) <-> contains_sum text) /\
  (forall num1 num2,
      parseTwoNumbersForSum env text = Some (num1, num2) ->
      exists pre a ws1 ws2 b suf qa qb,
        text = pre ++ a ++ ws1 ++ "+" ++ ws2 ++ b ++ suf /\
        number_token a /\ number_token b /\
        all_chars is_space ws1 = true /\ all_chars is_space ws2 = true /\
        first_place starts_with_sum text pre /\
        longest_number b suf /\
        decimal_literal a = Some qa /\ decimal_literal b = Some qb /\
        num1 = Num.of_Q qa /\ num2 = Num.of_Q qb /\
        rounds_to qa num1 /\ rounds_to qb num2).
Proof.
  split.
  - split.
    + intros [[num1 num2] H].
      destruct (parseTwoNumbersForSum_reads env text num1 num2 H)
        as (pre & a & ws1 & ws2 & b & suf & qa & qb & Ht & Ha & Hb & H1 & H2 & _).
      exists pre, a, ws1, ws2, b, suf. repeat split; assumption.
    + intros H. apply contains_sum_search in H. unfold parseTwoNumbersForSum.
      destruct (search re_sum text); [eexists; reflexivity | contradiction].
  - intros num1 num2 H.
    destruct (parseTwoNumbersForSum_reads env text num1 num2 H)
      as (pre & a & ws1 & ws2 & b & suf & qa & qb & Ht & Ha & Hb & H1 & H2 &
          Hfirst & Hlong & Hqa & Hqb & Hn1 & Hn2).
    exists pre, a, ws1, ws2, b, suf, qa, qb.
    repeat (split; [assumption|]).
    split; [rewrite Hn1 | rewrite Hn2]; apply of_Q_rounds.
Qed.

(** X11. [parseNumberForPrime] answers null exactly on the texts without a
    digit.  Otherwise its answer is read from the first number of the
    text, taken as long as it can be: it is the binary64 value nearest to
    the decimal value of that token, an infinity beyond the range, and so
    never [NaN]. *)
Theorem parseNumberForPrime_exact (env : Env) (text : string) :
  (parseNumberForPrime env text = None <-> no_digit text = true) /\
  (forall n,
      parseNumberForPrime env text = Some n ->
      n <> NaN /\
      exists pre a suf q,
        text = pre ++ a ++ suf /\ number_token a /\
        first_place starts_with_number text pre /\
        longest_number a suf /\
        decimal_literal a = Some q /\ n = Num.of_Q q /\ rounds_to q n).
Proof.
  pose proof (parseNumberForPrime_reads env text) as Hsound.
  split.
  - split.
    + intros Hnone. destruct (no_digit text) eqn:Hd; [reflexivity|]. exfalso.
      destruct (no_digit_split text Hd) as (pre & d & suf & Ht & Hdig).
      assert (Hs : search re_prime text <> None).
      { rewrite Ht. change (String d suf) with (String d "" ++ suf).
        apply search_complete. unfold re_prime. cbn [matches].
        apply number_token_matches. apply single_digit_token. exact Hdig. }
      unfold parseNumberForPrime in Hnone.
      destruct (search re_prime text); [discriminate | contradiction].
    + intros Hd. destruct (parseNumberForPrime env text) as [n|] eqn:Hp; [|reflexivity].
      exfalso. destruct (Hsound n eq_refl) as (pre & a & suf & q & Ht & Ha & _).
      rewrite Ht in Hd.
      unfold no_digit in Hd. rewrite !all_chars_app in Hd.
      apply andb_true_iff in Hd as [_ Hd]. apply andb_true_iff in Hd as [Hd _].
      pose proof (number_token_has_digit a Ha) as Hf. unfold no_digit in Hf.
      rewrite Hf in Hd. discriminate.
  - intros n Hp.
    destruct (Hsound n Hp) as (pre & a & suf & q & Ht & Ha & Hfirst & Hlong & Hq & Hn).
    split.
    + rewrite Hn. unfold Num.of_Q.
      destruct (Qle_bool Num.overflow_threshold q); [discriminate|].
      destruct (Qle_bool q (- Num.overflow_threshold)); discriminate.
    + exists pre, a, suf, q. repeat (split; [assumption|]).
      rewrite Hn. apply of_Q_rounds.
Qed.

End ParserProperties.

Section CoinProperties.

Lemma lits_price (w : string) (caps caps' : captures) :
  matches_with (lits "price") w caps caps' -> w = "price" /\ caps' = caps.
Proof.
  cbn [lits matches_with].
  intros (w1 & w2 & m1 & -> & [-> ->] & w3 & w4 & m2 & -> & [-> ->] &
          w5 & w6 & m3 & -> & [-> ->] & w7 & w8 & m4 & -> & [-> ->] & [-> ->]).
  split; reflexivity.
Qed.

(** The coin that either pattern captures is a non-empty word of letters
    a-z, digits and hyphens, and stands in the text next to "price". *)
Lemma search_price_patterns (t : string) (m : captures) :
  search re_price_of t = Some m \/ search re_coin_price t = Some m ->
  capture 1 m <> "" /\ all_chars is_coin_char (capture 1 m) = true /\
  includes t "price" = true /\ includes t (capture 1 m) = true.
Proof.
  intros [H | H]; apply search_sound in H; destruct H as (pre & w & suf & -> & Hw).
  - unfold re_price_of in Hw. cbn [matches_with] in Hw.
    destruct Hw as (w1 & w2 & m1 & -> & Hprice &
                    ws1 & w3 & m2 & -> & [[_ Hws1] ->] &
                    wof & w4 & m3 & -> & Hof &
                    ws2 & coin & m4 & -> & [[_ Hws2] ->] & m5 & [[Hne Hcoin] ->] & ->).
    apply lits_price in Hprice. destruct Hprice as [-> ->].
    cbn [lits matches_with] in Hof.
    destruct Hof as (o & f & m6 & -> & [-> ->] & [-> ->]).
    change (capture 1 [(1%nat, coin)]) with coin.
    split; [exact Hne|]. split; [exact Hcoin|]. split.
    + set (X := ws1 ++ ("o" ++ "f") ++ ws2 ++ coin).
      replace (pre ++ ("price" ++ X) ++ suf) with (pre ++ "price" ++ (X ++ suf))
        by (rewrite !append_assoc; reflexivity).
      apply includes_middle.
    + replace (pre ++ ("price" ++ ws1 ++ ("o" ++ "f") ++ ws2 ++ coin) ++ suf)
        with ((pre ++ "price" ++ ws1 ++ "of" ++ ws2) ++ coin ++ suf)
        by (rewrite !append_assoc; reflexivity).
      apply includes_middle.
  - unfold re_coin_price in Hw. cbn [matches_with] in Hw.
    destruct Hw as (coin & w2 & m1 & -> & (m0 & [[Hne Hcoin] ->] & ->) &
                    ws & wp & m2 & -> & [[_ Hws] ->] & Hprice).
    apply lits_price in Hprice. destruct Hprice as [-> ->].
    change (capture 1 [(1%nat, coin)]) with coin.
    split; [exact Hne|]. split; [exact Hcoin|]. split.
    + replace (pre ++ (coin ++ ws ++ "price") ++ suf)
        with ((pre ++ coin ++ ws) ++ "price" ++ suf)
        by (rewrite !append_assoc; reflexivity).
      apply includes_middle.
    + replace (pre ++ (coin ++ ws ++ "price") ++ suf)
        with (pre ++ coin ++ ((ws ++ "price") ++ suf))
        by (rewrite !append_assoc; reflexivity).
      apply includes_middle.
Qed.

Lemma parseCoinForPrice_safe (text coin : string) :
  parseCoinForPrice text = Some coin ->
  coin <> "" /\ all_chars is_coin_char coin = true.
Proof.
  unfold parseCoinForPrice. cbv zeta.
  destruct (includes (toLowerCase text) "bitcoin" || includes (toLowerCase text) "btc").
  { intros H. inversion H. split; [discriminate | reflexivity]. }
  destruct (includes (toLowerCase text) "ethereum" || includes (toLowerCase text) "eth").
  { intros H. inversion H. split; [discriminate | reflexivity]. }
  destruct (search re_price_of (toLowerCase text)) as [m|] eqn:H1.
  { intros H. inversion H.
    destruct (search_price_patterns _ m (or_introl H1)) as (Hne & Hall & _). split; assumption. }
  destruct (search re_coin_price (toLowerCase text)) as [m|] eqn:H2; [|discriminate].
  intros H. inversion H.
  destruct (search_price_patterns _ m (or_intror H2)) as (Hne & Hall & _). split; assumption.
Qed.

(** X12. The coin that [parseCoinForPrice] resolves is never empty and is
    made of the letters a-z, digits and hyphens only.  It is "bitcoin" when
    the text names bitcoin or btc, whatever else it names; otherwise
    "ethereum" when the text names ethereum or eth; otherwise a word of the
    lower-cased text, which then also holds "price".  A text that names
    none of the four and does not hold "price" resolves to no coin. *)
Theorem parseCoinForPrice_resolves (text : string) :
  let t := toLowerCase text in
  (forall coin, parseCoinForPrice text = Some coin ->
                coin <> "" /\ all_chars is_coin_char coin = true) /\
  (includes t "bitcoin" || includes t "btc" = true ->
   parseCoinForPrice text = Some "bitcoin") /\
  (includes t "bitcoin" || includes t "btc" = false ->
   includes t "ethereum" || includes t "eth" = true ->
   parseCoinForPrice text = Some "ethereum") /\
  (forall coin,
      includes t "bitcoin" || includes t "btc" = false ->
      includes t "ethereum" || includes t "eth" = false ->
      parseCoinForPrice text = Some coin ->
      includes t "price" = true /\ includes t coin = true) /\
  (includes t "bitcoin" || includes t "btc" = false ->
   includes t "ethereum" || includes t "eth" = false ->
   includes t "price" = false ->
   parseCoinForPrice text = None).
Proof.
  cbv zeta.
  assert (Hword : forall coin,
             includes (toLowerCase text) "bitcoin" || includes (toLowerCase text) "btc" = false ->
             includes (toLowerCase text) "ethereum" || includes (toLowerCase text) "eth" = false ->
             parseCoinForPrice text = Some coin ->
             includes (toLowerCase text) "price" = true /\
             includes (toLowerCase text) coin = true).
  { intros coin Hb He. unfold parseCoinForPrice. cbv zeta. rewrite Hb, He.
    destruct (search re_price_of (toLowerCase text)) as [m|] eqn:H1.
    { intros H. inversion H. subst coin.
      destruct (search_price_patterns _ m (or_introl H1)) as (_ & _ & Hp & Hc).
      split; assumption. }
    destruct (search re_coin_price (toLowerCase text)) as [m|] eqn:H2; [|discriminate].
    intros H. inversion H. subst coin.
    destruct (search_price_patterns _ m (or_intror H2)) as (_ & _ & Hp & Hc).
    split; assumption. }
  split; [intros coin; apply parseCoinForPrice_safe|].
  split; [intros Hb; unfold parseCoinForPrice; cbv zeta; rewrite Hb; reflexivity|].
  split; [intros Hb He; unfold parseCoinForPrice; cbv zeta; rewrite Hb, He; reflexivity|].
  split; [exact Hword|].
  intros Hb He Hp. destruct (parseCoinForPrice text) as [coin|] eqn:Hc; [|reflexivity].
  destruct (Hword coin Hb He eq_refl) as [Hp' _]. rewrite Hp in Hp'. discriminate.
Qed.

(** X13. The offline responder never touches the transcript or the cached
    client and never calls the provider or a registered tool through the
    registry.  Its only external call, made at most once, is a request to
    the price index for a coin that is a non-empty word of letters a-z,
    digits and hyphens; the price-index address never carries any other
    text of the message. *)
Theorem offline_responder_is_isolated (fuel : nat) (env : Env) (text : string) (st : State) :
  snd (runOfflineDemo fuel env text st) = st \/
  exists coin,
    snd (runOfflineDemo fuel env text st) = logged st [EvFetch (price_url coin)] /\
    parseCoinForPrice text = Some coin /\
    coin <> "" /\ all_chars is_coin_char coin = true.
Proof.
  destruct (runOfflineDemo_run fuel env text st) as [[Hst _] | (coin & Hcoin & Hst & _)].
  - left. exact Hst.
  - right. exists coin. split; [exact Hst|]. split; [exact Hcoin|].
    apply (parseCoinForPrice_safe text coin Hcoin).
Qed.

End CoinProperties.

(** X12, applied to "Price of Dogecoin today?". *)
Lemma parseCoinForPrice_resolves_witness :
  parseCoinForPrice "Price of Dogecoin today?" = Some "dogecoin" /\
  includes (toLowerCase "Price of Dogecoin today?") "price" = true /\
  includes (toLowerCase "Price of Dogecoin today?") "dogecoin" = true /\
  "dogecoin" <> "" /\ all_chars is_coin_char "dogecoin" = true.
Proof.
  destruct (parseCoinForPrice_resolves "Price of Dogecoin today?") as (Hsafe & _ & _ & Hword & _).
  split; [reflexivity|].
  destruct (Hword "dogecoin" eq_refl eq_refl eq_refl) as [Hp Hc].
  split; [exact Hp|]. split; [exact Hc|].
  apply (Hsafe "dogecoin"). reflexivity.
Defined.

(* ================================================================== *)
(** * Further properties of the tool registry *)
(* ================================================================== *)

Section ToolProperties.

Variable fuel : nat.
Variable env : Env.


Lemma call_prime_object (fields : list (string * JValue)) (st : State) :
  call_tool fuel env "check_prime_number" (JObj fields) st =
  (match prime fuel (ToNumber env (assoc "number" fields)) with
   | Some b => Return (Some (JBool b))
   | None => Diverge
   end,
   logged st [EvTool "check_prime_number" (JObj fields)]).
Proof.
  unfold call_tool, bind, record. cbn.
  destruct (prime fuel (ToNumber env (assoc "number" fields))); reflexivity.
Qed.


(** X15. The [check_prime_number] tool converts its argument to a number
    first.  A missing argument converts to [NaN], on which [prime] returns
    true: the tool reports a missing number as prime.  [null] converts to
    0 and booleans to 0 and 1, which are reported as not prime.  On a
    finite number the answer is the verdict of trial division. *)
Theorem prime_tool_arguments :
  (forall (fields : list (string * JValue)) (st : State),
      (1 <= fuel)%nat ->
      assoc "number" fields = None ->
      call_tool fuel env "check_prime_number" (JObj fields) st =
      (Return (Some (JBool true)), logged st [EvTool "check_prime_number" (JObj fields)])) /\
  (forall (fields : list (string * JValue)) (v : JValue) (st : State),
      assoc "number" fields = Some v ->
      v = JNull \/ (exists b, v = JBool b) ->
      call_tool fuel env "check_prime_number" (JObj fields) st =
      (Return (Some (JBool false)), logged st [EvTool "check_prime_number" (JObj fields)])) /\
  (forall (fields : list (string * JValue)) (q : Q) (st : State),
      (Z.to_nat (isqrt q) <= fuel)%nat ->
      assoc "number" fields = Some (JNum (Fin q)) ->
      call_tool fuel env "check_prime_number" (JObj fields) st =
      (Return (Some (JBool (check_prime_spec q))),
       logged st [EvTool "check_prime_number" (JObj fields)])).
Proof.
  split; [|split].
  - intros fields st Hfuel Hmiss. rewrite call_prime_object, Hmiss.
    destruct fuel as [|fuel']; [lia | reflexivity].
  - intros fields v st Hv Hcase. rewrite call_prime_object, Hv.
    destruct Hcase as [-> | [[] ->]]; reflexivity.
  - intros fields q st Hfuel Hv. rewrite call_prime_object, Hv.
    cbn [ToNumber]. rewrite (prime_total q fuel Hfuel). reflexivity.
Qed.

(** X16. The catalogue offered to the provider and the registry of
    implementations name the same tools in the same order, without
    repetition, so a call to an offered tool never falls through to an
    inherited property; every required parameter of an offered tool is one
    of its declared parameters. *)
Theorem catalogue_matches_registry :
  map spec_name tools = map fst (availableTools fuel env) /\
  NoDup (map spec_name tools) /\
  Forall (fun spec =>
            exists tool, own_property (spec_name spec) (availableTools fuel env) = Some tool)
         tools /\
  Forall (fun spec => incl (required spec) (map fst (properties spec))) tools.
Proof.
  split; [reflexivity|]. split.
  { cbn. repeat constructor; cbn; intuition discriminate. }
  split.
  - repeat (constructor; [eexists; reflexivity|]). constructor.
  - repeat (constructor; [intros x Hx; exact Hx|]). constructor.
Qed.

(** X17. [getGroqClient] hands out a client exactly when one is cached or
    the key is set, constructs it at most once, and touches nothing else:
    after the first call a second call changes nothing and answers the
    same. *)
Theorem getGroqClient_caches (st : State) :
  let r := getGroqClient env st in
  fst r = Return (provider_configured env st) /\
  groqClient (snd r) = provider_configured env st /\
  History (snd r) = History st /\ log (snd r) = log st /\
  getGroqClient env (snd r) = (fst r, snd r).
Proof.
  cbv zeta. unfold getGroqClient, provider_configured.
  destruct st as [h c l]. cbn [groqClient History log].
  destruct c; [cbn; repeat split; reflexivity|].
  destruct (truthy_string (GROQ_API_KEY env)) eqn:Hk; cbn;
    rewrite ?Hk; repeat split; reflexivity.
Qed.

End ToolProperties.

(* ================================================================== *)
(** * Starting the server *)
(* ================================================================== *)

Section StartServer.

Variable listen : nat -> number -> ListenResult.
Variable p0 : number.

Lemma startServer_from_skip (k : nat) :
  forall (a fuel : nat),
    (a + k <= maxAttempts)%nat ->
    (forall j, (a <= j < a + k)%nat ->
               exists code, listen j (port_of p0 j) = ListenError code /\ in_use code = true) ->
    startServer_from listen p0 (k + fuel) a = startServer_from listen p0 fuel (a + k).
Proof.
  induction k as [|k IH]; intros a fuel Hle Hbusy.
  - rewrite Nat.add_0_r. reflexivity.
  - cbn [Nat.add startServer_from].
    destruct (Hbusy a) as (code & Hl & Hc); [lia|].
    replace (a <=? maxAttempts)%nat with true by (symmetry; apply Nat.leb_le; lia).
    rewrite Hl, Hc.
    replace (a <? maxAttempts)%nat with true by (symmetry; apply Nat.ltb_lt; lia).
    cbn [andb]. rewrite IH.
    + f_equal. lia.
    + lia.
    + intros j Hj. apply Hbusy. lia.
Qed.

Lemma startServer_from_outcome (n : nat) :
  forall (a fuel : nat),
    (a + n = maxAttempts)%nat -> (n < fuel)%nat ->
    exists k, (a <= k <= maxAttempts)%nat /\
      (forall j, (a <= j < k)%nat ->
                 exists code, listen j (port_of p0 j) = ListenError code /\ in_use code = true) /\
      match listen k (port_of p0 k) with
      | Listening => startServer_from listen p0 fuel a = Some (ServerOn (port_of p0 k))
      | NoEvent => startServer_from listen p0 fuel a = Some (Waiting (port_of p0 k))
      | ListenError code =>
          (in_use code = false \/ k = maxAttempts) /\
          startServer_from listen p0 fuel a = Some (ExitFailed (port_of p0 k) code)
      end.
Proof.
  induction n as [|n IH]; intros a fuel Ha Hfuel;
    (destruct fuel as [|fuel]; [lia|]); cbn [startServer_from];
    (replace (a <=? maxAttempts)%nat with true by (symmetry; apply Nat.leb_le; lia));
    destruct (listen a (port_of p0 a)) as [|code|] eqn:Hl;
    try (exists a; split; [lia|]; split; [intros j Hj; lia|]; rewrite Hl; reflexivity).
  - exists a. split; [lia|]. split; [intros j Hj; lia|]. rewrite Hl.
    replace (a <? maxAttempts)%nat with false by (symmetry; apply Nat.ltb_ge; lia).
    rewrite andb_false_r. split; [right; lia | reflexivity].
  - destruct (in_use code) eqn:Hc; cbn [andb].
    + replace (a <? maxAttempts)%nat with true by (symmetry; apply Nat.ltb_lt; lia).
      destruct (IH (S a) fuel) as (k & Hk & Hbusy & Hres); [lia | lia |].
      exists k. split; [lia|]. split; [|exact Hres].
      intros j Hj. destruct (Nat.eq_dec j a) as [-> | Hne].
      * exists code. split; assumption.
      * apply Hbusy. lia.
    + exists a. split; [lia|]. split; [intros j Hj; lia|]. rewrite Hl.
      split; [left; exact Hc | reflexivity].
Qed.

(** X18. [startServer] tries the ports [initialPort], [initialPort + 1],
    ... in order and stops at the first one that does not answer
    [EADDRINUSE], or at the eleventh: there it returns the server when the
    port listens, exits the process on any error, and waits for ever when
    neither event comes.  Eleven turns of the loop always suffice, and the
    code after the loop is never reached: the message that no port was
    free in the range is never printed. *)
Theorem startServer_outcome (fuel : nat) :
  (S maxAttempts <= fuel)%nat ->
  startServer listen p0 fuel <> Some ExitNoPort /\
  exists k, (k <= maxAttempts)%nat /\ all_in_use listen p0 k /\
    match listen k (port_of p0 k) with
    | Listening => startServer listen p0 fuel = Some (ServerOn (port_of p0 k))
    | NoEvent => startServer listen p0 fuel = Some (Waiting (port_of p0 k))
    | ListenError code =>
        (in_use code = false \/ k = maxAttempts) /\
        startServer listen p0 fuel = Some (ExitFailed (port_of p0 k) code)
    end.
Proof.
  intros Hfuel.
  destruct (startServer_from_outcome maxAttempts 0 fuel) as (k & Hk & Hbusy & Hres);
    [reflexivity | exact Hfuel |].
  unfold startServer. split.
  - destruct (listen k (port_of p0 k)); [rewrite Hres | destruct Hres as [_ ->] | rewrite Hres];
      discriminate.
  - exists k. split; [lia|]. split; [|exact Hres].
    intros j Hj. apply Hbusy. lia.
Qed.

(** X19. When the first [k] ports are in use and the next one listens,
    with [k] at most ten, [startServer] returns the server on
    [initialPort + k]; when eleven ports in a row are in use it exits on
    the eleventh. *)
Theorem startServer_first_free_port (fuel k : nat) :
  (k <= maxAttempts)%nat -> (k < fuel)%nat ->
  all_in_use listen p0 k ->
  (listen k (port_of p0 k) = Listening ->
   startServer listen p0 fuel = Some (ServerOn (port_of p0 k))) /\
  (k = maxAttempts ->
   forall code, listen k (port_of p0 k) = ListenError code ->
                startServer listen p0 fuel = Some (ExitFailed (port_of p0 k) code)).
Proof.
  intros Hk Hfuel Hbusy.
  assert (Hskip : startServer listen p0 fuel = startServer_from listen p0 (fuel - k) k).
  { unfold startServer. replace fuel with (k + (fuel - k))%nat at 1 by lia.
    rewrite startServer_from_skip; [reflexivity | exact Hk |].
    intros j Hj. apply Hbusy. lia. }
  rewrite Hskip. destruct (fuel - k)%nat as [|fuel'] eqn:Hf; [lia|].
  cbn [startServer_from].
  replace (k <=? maxAttempts)%nat with true by (symmetry; apply Nat.leb_le; lia).
  split.
  - intros ->. reflexivity.
  - intros -> code ->. rewrite Nat.ltb_irrefl, andb_false_r. reflexivity.
Qed.

End StartServer.

Lemma startServer_outcome_witness :
  startServer three_taken (Num.of_Z 3000) 11 <> Some ExitNoPort /\
  startServer three_taken (Num.of_Z 3000) 11 = Some (ServerOn (Num.of_Z 3003)).
Proof.
  split.
  - apply (startServer_outcome three_taken (Num.of_Z 3000) 11). unfold maxAttempts. lia.
  - reflexivity.
Defined.

Lemma startServer_first_free_port_witness :
  startServer three_taken (Num.of_Z 3000) 11 = Some (ServerOn (port_of (Num.of_Z 3000) 3)).
Proof.
  apply (startServer_first_free_port three_taken (Num.of_Z 3000) 11 3).
  - unfold maxAttempts. lia.
  - lia.
  - intros j Hj. exists (Some "EADDRINUSE"). split; [|reflexivity].
    unfold three_taken. replace (j <? 3)%nat with true by (symmetry; apply Nat.ltb_lt; lia).
    reflexivity.
  - reflexivity.
Defined.

(* ================================================================== *)
(** * The two primality checks *)
(* ================================================================== *)

(** X20. The primality check of [src/api/chat.js], which rejects
    [n <= 1], and the one of [src/index.js], which rejects [num < 2],
    return the same on every number that is not strictly between 1 and 2,
    with the same budget; on a number strictly between 1 and 2 the first
    answers true and the second false. *)
Theorem prime_variants (fuel : nat) (num : number) :
  (between_one_and_two num = false -> ApiChat.prime fuel num = prime fuel num) /\
  (between_one_and_two num = true -> (1 <= fuel)%nat ->
   ApiChat.prime fuel num = Some true /\ prime fuel num = Some false).
Proof.
  unfold between_one_and_two, ApiChat.prime, prime.
  destruct num as [| | |q]; cbn [Num.lt Num.le Num.of_Z andb];
    try (split; [reflexivity | discriminate]).
  destruct (Qle_bool q (inject_Z 1)) eqn:H1; destruct (Qle_bool (inject_Z 2) q) eqn:H2;
    cbn [negb andb]; (split; intros Ht; try discriminate Ht); try reflexivity.
  - apply Qle_bool_iff in H1. apply Qle_bool_iff in H2.
    exfalso. assert (H : (inject_Z 2 <= inject_Z 1)%Q) by (eapply Qle_trans; eassumption).
    unfold Qle in H. cbn in H. lia.
  - intros Hfuel. split; [|reflexivity].
    destruct fuel as [|fuel']; [lia|]. cbn [prime_loop Num.le_sqrt].
    replace (Qle_bool (inject_Z (2 * 2)) q) with false; [rewrite andb_false_r; reflexivity|].
    symmetry. apply not_true_is_false. intros H4. apply Qle_bool_iff in H4.
    assert (H2' : ~ (inject_Z 2 <= q)%Q) by (rewrite <- Qle_bool_iff, H2; discriminate).
    apply H2'. eapply Qle_trans; [|exact H4]. unfold Qle. cbn. lia.
Qed.

Lemma prime_variants_witness :
  ApiChat.prime 1 (Fin (3 # 2)) = Some true /\ prime 1 (Fin (3 # 2)) = Some false.
Proof.
  apply (prime_variants 1 (Fin (3 # 2))); [reflexivity | lia].
Defined.

(* ================================================================== *)
(** * The further properties on sample runs *)
(* ================================================================== *)

(** X5, applied to the message "hello" and a provider that fails: the user
    message stays in the transcript. *)
Lemma request_appends_one_of_five_witness :
  exists appended,
    History (snd (chatHandler 0 failing_env (chat_request "hello") initial_state)) =
      (History initial_state ++ user_message "hello" :: appended)%list /\
    request_appends "hello" (user_message "hello" :: appended).
Proof.
  apply (proj2 (request_appends_one_of_five 0 failing_env (chat_request "hello") initial_state)
           "h"%char "ello"); reflexivity.
Defined.

(** X6, applied to a request that makes the provider ask for two tools:
    the tool message for "call_1" stands right after the provider's
    message, whose first requested invocation it answers. *)
Lemma tool_messages_are_paired_witness :
  tool_paired
    (History (snd (chatHandler 5 tool_env (chat_request "add 2 and 3") initial_state))) = true /\
  (requests_tools (tool_message "call_1" (Some "5")) = true \/
   exists pre' m tc tcs,
     [system_message; user_message "add 2 and 3"; two_calls] = (pre' ++ [m])%list /\
     tool_calls m = Some (tc :: tcs) /\
     tool_call_id (tool_message "call_1" (Some "5")) = Some (id tc)).
Proof.
  destruct (tool_messages_are_paired 5 tool_env) as (Hstep & _ & Hat).
  split.
  - apply Hstep. reflexivity.
  - apply (Hat [("/chat", chat_request "add 2 and 3")]
               [system_message; user_message "add 2 and 3"; two_calls]
               [assistant_message "2 + 3 = 5"]
               (tool_message "call_1" (Some "5"))); reflexivity.
Defined.

(** X8, applied to a provider that answers "Hello!". *)
Lemma plain_answer_witness :
  runAgent 0 plain_env "hello" initial_state =
  (Return (mkReply (Some "Hello!") None),
   mkState [system_message; user_message "hello"; assistant_message "Hello!"] true
           [EvCompletion (first_request plain_env initial_state "hello")]).
Proof.
  exact (plain_answer 0 plain_env "hello" initial_state
           (mkChatResponse [mkChoice (Some (assistant_message "Hello!"))])
           (mkChoice (Some (assistant_message "Hello!"))) [] (assistant_message "Hello!")
           eq_refl eq_refl eq_refl eq_refl (or_introl eq_refl)).
Defined.

(** X9, applied to a provider that asks for [sum] on 2 and 3. *)
Lemma tool_answer_witness :
  fst (chatHandler 5 tool_env (chat_request "add 2 and 3") initial_state) =
  Return (mkHttpResponse 200
            (ChatBody (Some "2 + 3 = 5")
               (Some (mkToolCallInfo "sum"
                        (JObj [("num1", JNum (Num.of_Z 2)); ("num2", JNum (Num.of_Z 3))]))))).
Proof.
  exact (f_equal fst
           (tool_answer 5 tool_env "a"%char "dd 2 and 3" initial_state
              (mkChatResponse [mkChoice (Some two_calls)]) (mkChoice (Some two_calls)) []
              two_calls (mkToolCall "call_1" (mkToolFunction "sum" sum_arguments))
              [mkToolCall "call_2" (mkToolFunction "check_prime_number" prime_arguments)]
              (JObj [("num1", JNum (Num.of_Z 2)); ("num2", JNum (Num.of_Z 3))])
              (Some (JNum (Num.of_Z 5)))
              (snd (call_tool 5 tool_env "sum"
                      (JObj [("num1", JNum (Num.of_Z 2)); ("num2", JNum (Num.of_Z 3))])
                      (after_first_request tool_env initial_state "add 2 and 3")))
              (mkChatResponse [mkChoice (Some (assistant_message "2 + 3 = 5"))])
              (mkChoice (Some (assistant_message "2 + 3 = 5"))) []
              (assistant_message "2 + 3 = 5")
              eq_refl eq_refl eq_refl eq_refl eq_refl eq_refl eq_refl eq_refl eq_refl eq_refl)).
Defined.

(** X10, applied to "Calculate 0.1 + 0.25": the numbers read are binary64
    values, and the second is the whole of "0.25". *)
Lemma parseTwoNumbersForSum_exact_witness :
  contains_sum "Calculate 0.1 + 0.25" /\
  exists pre a ws1 ws2 b suf qa qb,
    "Calculate 0.1 + 0.25" = pre ++ a ++ ws1 ++ "+" ++ ws2 ++ b ++ suf /\
    number_token a /\ number_token b /\
    all_chars is_space ws1 = true /\ all_chars is_space ws2 = true /\
    first_place starts_with_sum "Calculate 0.1 + 0.25" pre /\
    longest_number b suf /\
    decimal_literal a = Some qa /\ decimal_literal b = Some qb /\
    Fin (3602879701896397 # 36028797018963968) = Num.of_Q qa /\
    Fin (1 # 4) = Num.of_Q qb /\
    rounds_to qa (Fin (3602879701896397 # 36028797018963968)) /\
    rounds_to qb (Fin (1 # 4)).
Proof.
  destruct (parseTwoNumbersForSum_exact failing_env "Calculate 0.1 + 0.25") as [Hiff Hread].
  split.
  - apply (proj1 Hiff). eexists. vm_compute. reflexivity.
  - apply Hread. vm_compute. reflexivity.
Defined.

(** X11, applied to "Is 9973 prime?". *)
Lemma parseNumberForPrime_exact_witness :
  Num.of_Z 9973 <> NaN /\
  exists pre a suf q,
    "Is 9973 prime?" = pre ++ a ++ suf /\ number_token a /\
    first_place starts_with_number "Is 9973 prime?" pre /\
    longest_number a suf /\
    decimal_literal a = Some q /\ Num.of_Z 9973 = Num.of_Q q /\
    rounds_to q (Num.of_Z 9973).
Proof.
  apply (proj2 (parseNumberForPrime_exact failing_env "Is 9973 prime?")).
  vm_compute. reflexivity.
Defined.


(** X15, applied to an empty arguments object. *)
Lemma prime_tool_arguments_witness :
  call_tool 1 failing_env "check_prime_number" (JObj []) initial_state =
  (Return (Some (JBool true)),
   logged initial_state [EvTool "check_prime_number" (JObj [])]).
Proof.
  apply (proj1 (prime_tool_arguments 1 failing_env) [] initial_state); [lia | reflexivity].
Defined.
